(** * OBS-League-Integration: a shallow embedding of the connection and
      event-dispatch core

    The development follows the Python sources:
    - [auth.py]       [LeagueClientAuth]: credentials and their discovery
                      in the process table, connection callbacks;
    - [api.py]        [LCUApi]: subscriptions, the WebSocket receive loop,
                      the HTTPS requests;
    - [obs_client.py] [OBSClient]: the profile and recording commands with
                      their worker threads, the [RecordStateChanged]
                      handler, the connection listeners;
    - [logic.py]      [GameTracker]: the game-phase state machine.

    Python objects are records gathered in one [World]; methods are
    computations in a state-and-exception monad [M] over that world and
    keep their Python names inside a module named after their class.
    Everything the program does to its environment (log lines, callback
    invocations, RPC calls, HTTPS requests) is appended to a chronological
    [trace]; a started worker thread is queued in [threads] and run later
    by [run_task], which is how "the caller is never blocked" shows up
    here.  What the environment answers (an RPC response, an HTTP response,
    an inbound WebSocket frame, the process table) is an explicit argument
    of the method that asks for it.

    Library behaviour the sources rely on is stated where it is used:
    [json.loads], [len], indexing and [dict.get] on decoded JSON,
    [str.replace], [list.remove], [Response.raise_for_status] (an
    [HTTPError] for a 4xx or 5xx status), [Response.json] (a
    [requests.exceptions.JSONDecodeError], which is a [RequestException]),
    the serialisation of a POST body by [json.dumps], and for the
    credentials [re.findall], [int] and [base64.b64encode]. *)

From Stdlib Require Import String Ascii List ZArith Bool Arith Lia RelationClasses.
From Stdlib Require Import SpecFloat.
Import ListNotations.

Open Scope string_scope.
Open Scope list_scope.

(* ================================================================== *)
(** ** Python values *)
(* ================================================================== *)

Module Py.

(** The values [json.loads] produces, which are also the values carried by
    callbacks.  A Python [float] is an IEEE binary64, kept as a
    [spec_float]; a [dict] is an association list in insertion order with
    distinct keys. *)
#[local] Unset Elimination Schemes.
Inductive json : Type :=
| JNull
| JBool (b : bool)
| JInt (z : Z)
| JFloat (f : spec_float)
| JStr (s : string)
| JList (l : list json)
| JDict (d : list (string * json)).
#[local] Set Elimination Schemes.

(** The exceptions raised by the modelled code; all of them are subclasses
    of Python's [Exception]. *)
Inductive exn : Type :=
| AttributeError
| TypeError
| KeyError
| IndexError
| ValueError
| JSONDecodeError            (* json.JSONDecodeError *)
| ConnectionClosed           (* websockets.exceptions.ConnectionClosed *)
| RequestException           (* requests: ConnectionError, Timeout, ... *)
| HTTPError                  (* requests.HTTPError, from raise_for_status *)
| RequestsJSONDecodeError    (* requests.exceptions.JSONDecodeError *)
| InvalidJSONError           (* requests.exceptions.InvalidJSONError *)
| RecursionError
| OBSWebSocketError
| CallbackError (id : nat).  (* whatever a consumer-supplied callable raises *)

(** [isinstance(e, requests.RequestException)] *)
Definition is_RequestException (e : exn) : bool :=
  match e with
  | RequestException | HTTPError | RequestsJSONDecodeError | InvalidJSONError => true
  | _ => false
  end.

(** [isinstance(e, Exception)]: every modelled exception. *)
Definition is_Exception (_ : exn) : bool := true.

(** 8.0 as a binary64: mantissa 2^52, exponent -49. *)
Definition float_eight : spec_float := S754_finite false 4503599627370496 (-49).

Definition float_is_zero (f : spec_float) : bool :=
  match f with S754_zero _ => true | _ => false end.

(** [bool(v)] *)
Definition truthy (v : json) : bool :=
  match v with
  | JNull => false
  | JBool b => b
  | JInt z => negb (z =? 0)%Z
  | JFloat f => negb (float_is_zero f)
  | JStr s => negb (s =? EmptyString)
  | JList l => match l with [] => false | _ => true end
  | JDict d => match d with [] => false | _ => true end
  end.

(** [v == 8].  Python compares numbers by value across [int], [float] and
    [bool] ([True] is 1); anything else is unequal to 8. *)
Definition eq_8 (v : json) : bool :=
  match v with
  | JInt z => (z =? 8)%Z
  | JFloat f => SFeqb f float_eight
  | _ => false
  end.

(** [d[k]] on an association list. *)
Fixpoint lookup {V : Type} (k : string) (d : list (string * V)) : option V :=
  match d with
  | [] => None
  | (k', v) :: d' => if k' =? k then Some v else lookup k d'
  end.

(** [k in d] *)
Definition has_key {V : Type} (k : string) (d : list (string * V)) : bool :=
  match lookup k d with Some _ => true | None => false end.

(** [d[k] = v]: overwrite in place, or append a new key at the end. *)
Fixpoint store {V : Type} (k : string) (v : V) (d : list (string * V))
  : list (string * V) :=
  match d with
  | [] => [(k, v)]
  | (k', v') :: d' => if k' =? k then (k', v) :: d' else (k', v') :: store k v d'
  end.

(** [v.get(k, default)]: only a [dict] has a [get] attribute. *)
Definition get (v : json) (k : string) (default : json) : exn + json :=
  match v with
  | JDict d => inr (match lookup k d with Some x => x | None => default end)
  | _ => inl AttributeError
  end.

(** [len(v)]: a number, a boolean or [None] has no [len()]. *)
Definition len (v : json) : exn + nat :=
  match v with
  | JList l => inr (List.length l)
  | JStr s => inr (String.length s)
  | JDict d => inr (List.length d)
  | _ => inl TypeError
  end.

(** [v[i]] for an integer [i]: a list element, a one-character string; a
    [dict] decoded from JSON has string keys only, so an integer key is a
    [KeyError]. *)
Definition getitem (v : json) (i : nat) : exn + json :=
  match v with
  | JList l => match nth_error l i with Some x => inr x | None => inl IndexError end
  | JStr s => match String.get i s with
              | Some c => inr (JStr (String c EmptyString))
              | None => inl IndexError
              end
  | JDict _ => inl KeyError
  | _ => inl TypeError
  end.

(** [s.replace(old, '')] for a non-empty [old]: every non-overlapping
    occurrence, scanning left to right.  [skip] counts the characters of
    the occurrence being dropped that are still ahead. *)
Fixpoint remove_all_from (old s : string) (skip : nat) : string :=
  match s with
  | EmptyString => EmptyString
  | String c s' =>
      match skip with
      | S k => remove_all_from old s' k
      | O => if String.prefix old s
             then remove_all_from old s' (String.length old - 1)
             else String c (remove_all_from old s' 0)
      end
  end.

Definition remove_all (old s : string) : string := remove_all_from old s 0.

(** [v.replace(old, '')]: only a [str] has [replace]. *)
Definition replace (v : json) (old : string) : exn + string :=
  match v with
  | JStr s => inr (remove_all old s)
  | _ => inl AttributeError
  end.

(** [s.startswith(p)] *)
Definition startswith (s p : string) : bool := String.prefix p s.

(** [x in l] and [l.remove(x)] for a list compared with [eqb]. *)
Section ListOps.
Context {A : Type} (eqb : A -> A -> bool).

Definition mem (x : A) (l : list A) : bool := existsb (eqb x) l.

Fixpoint remove_first (x : A) (l : list A) : option (list A) :=
  match l with
  | [] => None
  | y :: l' => if eqb x y then Some l'
               else option_map (cons y) (remove_first x l')
  end.
End ListOps.

End Py.

Import Py.

(* ================================================================== *)
(** ** Python library functions used by the credential discovery and
       the requests *)
(* ================================================================== *)

(** [re.findall] for the two shapes of pattern in [auth.py], [int] on a
    string, [str.encode] and [base64.b64encode]; and [json.dumps] as
    [requests] runs it on the body of a POST.  A [str] is taken to hold
    code points below 256, one per character. *)
Module PyLib.

Local Open Scope nat_scope.

Definition code (c : ascii) : nat := nat_of_ascii c.

(** The double quote. *)
Definition dquote : ascii := ascii_of_nat 34.

(** [\s] of [re]: the whitespace code points below 256. *)
Definition re_space (c : ascii) : bool :=
  let n := code c in
  ((9 <=? n) && (n <=? 13)) || ((28 <=? n) && (n <=? 32)) || (n =? 133) || (n =? 160).

(** The whitespace [int] strips: the ASCII blanks, and the whitespace code
    points from 128 on. *)
Definition int_space (c : ascii) : bool :=
  let n := code c in
  ((9 <=? n) && (n <=? 13)) || (n =? 32) || (n =? 133) || (n =? 160).

Fixpoint take_while (p : ascii -> bool) (s : string) : string :=
  match s with
  | EmptyString => EmptyString
  | String c s' => if p c then String c (take_while p s') else EmptyString
  end.

Fixpoint drop (n : nat) (s : string) : string :=
  match n, s with
  | O, _ => s
  | S n', String _ s' => drop n' s'
  | S _, EmptyString => EmptyString
  end.

Definition nonempty (s : string) : bool :=
  match s with EmptyString => false | String _ _ => true end.

(** The class of the first pattern: any character but the double quote
    and whitespace. *)
Definition bare_char (c : ascii) : bool := negb (Ascii.eqb c dquote) && negb (re_space c).

(** The class of the second pattern: any character but the double
    quote. *)
Definition quoted_char (c : ascii) : bool := negb (Ascii.eqb c dquote).

(** The group of a match, at the head of [s], of the first pattern:
    [key] followed by one or more [bare_char], as many as there are. *)
Definition match_bare (key s : string) : option string :=
  if String.prefix key s then
    let value := take_while bare_char (drop (String.length key) s) in
    if nonempty value then Some value else None
  else None.

(** The group of a match, at the head of [s], of the second pattern:
    [key], a double quote, one or more [quoted_char], a double quote. *)
Definition match_quoted (key s : string) : option string :=
  if String.prefix (key ++ String dquote EmptyString) s then
    let rest := drop (String.length key + 1) s in
    let value := take_while quoted_char rest in
    if nonempty value
       && String.prefix (String dquote EmptyString) (drop (String.length value) rest)
    then Some value else None
  else None.

(** [re.findall(pattern, s)[0]] when [findall] is not empty: the group of
    the leftmost match, [at_head] deciding a match at each position. *)
Fixpoint first_match (at_head : string -> option string) (s : string) : option string :=
  match at_head s with
  | Some value => Some value
  | None =>
      match s with
      | EmptyString => None
      | String _ s' => first_match at_head s'
      end
  end.

(** [(re.findall(bare, s) or re.findall(quoted, s))[0]], [None] when both
    lists are empty. *)
Definition find_option (key s : string) : option string :=
  match first_match (match_bare key) s with
  | Some value => Some value
  | None => first_match (match_quoted key) s
  end.

Fixpoint lstrip (s : string) : string :=
  match s with
  | EmptyString => EmptyString
  | String c s' => if int_space c then lstrip s' else s
  end.

Fixpoint all_space (s : string) : bool :=
  match s with
  | EmptyString => true
  | String c s' => int_space c && all_space s'
  end.

Definition digit (c : ascii) : option Z :=
  let n := code c in
  if (48 <=? n) && (n <=? 57) then Some (Z.of_nat (n - 48)) else None.

(** The digits of an integer literal, single underscores allowed between
    digits, trailing whitespace allowed: the value and the number of
    digits read.  [after_digit] tells that the previous character was a
    digit. *)
Fixpoint digits (s : string) (value : Z) (count : nat) (after_digit : bool)
  : option (Z * nat) :=
  match s with
  | EmptyString => if after_digit then Some (value, count) else None
  | String c s' =>
      match digit c with
      | Some d => digits s' (10 * value + d)%Z (S count) true
      | None =>
          if Ascii.eqb c "_" then
            if after_digit then digits s' value count false else None
          else if after_digit && all_space s then Some (value, count)
          else None
      end
  end.

(** [sys.get_int_max_str_digits()], CPython's default. *)
Definition int_max_str_digits : nat := 4300.

(** [int(s)] *)
Definition int (s : string) : exn + Z :=
  let body := lstrip s in
  let '(negative, unsigned) :=
    match body with
    | String c rest =>
        if Ascii.eqb c "-" then (true, rest)
        else if Ascii.eqb c "+" then (false, rest)
        else (false, body)
    | EmptyString => (false, body)
    end in
  match digits unsigned 0%Z 0 false with
  | Some (value, count) =>
      if int_max_str_digits <? count then inl ValueError
      else inr (if negative then (- value)%Z else value)
  | None => inl ValueError
  end.




(** [s.encode()]: UTF-8, for code points below 256. *)
Fixpoint encode (s : string) : list nat :=
  match s with
  | EmptyString => []
  | String c s' =>
      let n := code c in
      if n <? 128 then n :: encode s'
      else (192 + n / 64) :: (128 + n mod 64) :: encode s'
  end.

Definition b64_alphabet : string :=
  "ABCDEFGHIJKLMNOPQRSTUVWXYZabcdefghijklmnopqrstuvwxyz0123456789+/".

Definition b64_char (sextet : nat) : ascii :=
  match String.get sextet b64_alphabet with
  | Some c => c
  | None => "="%char
  end.

(** [base64.b64encode(bytes).decode()] *)
Fixpoint b64encode (bytes : list nat) : string :=
  match bytes with
  | [] => EmptyString
  | [a] =>
      String (b64_char (a / 4)) (String (b64_char (a mod 4 * 16)) "==")
  | [a; b] =>
      String (b64_char (a / 4))
        (String (b64_char (a mod 4 * 16 + b / 16))
           (String (b64_char (b mod 16 * 4)) "="))
  | a :: b :: c :: rest =>
      String (b64_char (a / 4))
        (String (b64_char (a mod 4 * 16 + b / 16))
           (String (b64_char (b mod 16 * 4 + c / 64))
              (String (b64_char (c mod 64)) (b64encode rest))))
  end.

End PyLib.


(* ================================================================== *)
(** ** Callables, events, threads *)
(* ================================================================== *)

(** A callable handed to [OBSClient], [LeagueClientAuth] or
    [GameTracker.register_game_update_callback].  [Extern id raises] is a
    consumer-supplied function (GUI code): the model knows its identity and
    whether calling it raises.  The others are the closures and the bound
    method that [logic.py] passes to [OBSClient]. *)
Inductive Callback : Type :=
| Extern (id : nat) (raises : bool)
| on_profile_set              (* closure of GameTracker._set_obs_profile *)
| on_record_start             (* closure of GameTracker._start_recording *)
| on_record_stop              (* closure of GameTracker._stop_recording *)
| bound_handle_recording_state. (* GameTracker._handle_recording_state *)

(** A handler subscribed to an [LCUApi] event path: any callable, or one of
    the two bound methods [GameTracker.__init__] subscribes. *)
Inductive Handler : Type :=
| Plain (c : Callback)
| bound_handle_gameflow_update
| bound_handle_champselect_update.

(** [c1 == c2] on callables: identity. *)
Definition Callback_eqb (c1 c2 : Callback) : bool :=
  match c1, c2 with
  | Extern i r, Extern j s => Nat.eqb i j && Bool.eqb r s
  | on_profile_set, on_profile_set => true
  | on_record_start, on_record_start => true
  | on_record_stop, on_record_stop => true
  | bound_handle_recording_state, bound_handle_recording_state => true
  | _, _ => false
  end.

Definition Handler_eqb (h1 h2 : Handler) : bool :=
  match h1, h2 with
  | Plain c1, Plain c2 => Callback_eqb c1 c2
  | bound_handle_gameflow_update, bound_handle_gameflow_update => true
  | bound_handle_champselect_update, bound_handle_champselect_update => true
  | _, _ => false
  end.

(** The requests of [obswebsocket.requests] issued by the modelled
    commands. *)
Inductive ObsRequest : Type :=
| SetCurrentProfile (profile_name : string)
| StartRecord
| StopRecord.

(** What [self._ws.call(request)] gives back: a response object, of which
    the commands read the [status] attribute ([None] here when
    [hasattr(response, 'status')] is false), or an exception. *)
Record RpcResponse : Type := {
  resp_status : option json
}.

Inductive RpcOutcome : Type :=
| RpcRaises (e : exn)
| RpcReturns (r : RpcResponse).

(** What [requests.get] / [requests.post] gives back. *)
Record Response : Type := {
  status_code : Z;
  content : string;             (* response.content *)
  json_decoded : option json    (* response.json(), None when it cannot decode *)
}.

Inductive HttpOutcome : Type :=
| TransportError                (* a RequestException: refused, reset, timeout *)
| Responds (r : Response).

(** The targets of the [OBSClient] worker threads
    ([threading.Thread(target=...)]). *)
Inductive Task : Type :=
| T_set_profile (profile_name : string) (callback : option Callback)
| T_start_recording (callback : option Callback)
| T_stop_recording (callback : option Callback).

Inductive LogLevel : Type := DEBUG | INFO | WARNING | ERROR.

(** Observable effects, in the order they happen. *)
Inductive Event : Type :=
| Log (level : LogLevel) (msg : string)
| Called (c : Callback) (args : list json)     (* the call c(args) *)
| Invoked (h : Handler) (event_data : json)    (* LCUApi dispatch: h(event_data) *)
| Rpc (req : ObsRequest)                       (* self._ws.call(req) *)
| HttpGet (port : option Z) (endpoint : string)
| HttpPost (port : option Z) (endpoint : string) (data : option json)
| ScheduledSubscribe.    (* run_coroutine_threadsafe(self._subscribe_to_events(), ...) *)

(* ================================================================== *)
(** ** Object state *)
(* ================================================================== *)

(** [logic.GamePhase] *)
Inductive GamePhase : Type :=
| NONE | LOBBY | MATCHMAKING | CHAMPION_SELECT | GAME_START | IN_GAME | POST_GAME.

Definition GamePhase_eqb (p q : GamePhase) : bool :=
  match p, q with
  | NONE, NONE | LOBBY, LOBBY | MATCHMAKING, MATCHMAKING
  | CHAMPION_SELECT, CHAMPION_SELECT | GAME_START, GAME_START
  | IN_GAME, IN_GAME | POST_GAME, POST_GAME => true
  | _, _ => false
  end.

(** The fields of [LeagueClientAuth] the modelled methods touch. *)
Record AuthState : Type := {
  auth_token : option string;                  (* self.auth_token *)
  client_port : option Z;                      (* self.client_port *)
  auth_connection_callbacks : list Callback;   (* self._connection_callbacks *)
  auth_connected : bool                        (* self._connected *)
}.

(** [LCUApi] *)
Record ApiState : Type := {
  api_running : bool;                                (* self._running *)
  api_event_handlers : list (string * list Handler); (* self._event_handlers *)
  api_ws : bool;                                     (* self._ws is not None *)
  api_subscribed : bool;                             (* self._subscribed *)
  api_is_connected : bool                            (* self.is_connected *)
}.

(** [OBSClient] *)
Record ObsState : Type := {
  obs_ws : bool;                                     (* self._ws is not None *)
  obs_connected : bool;                              (* self._connected *)
  obs_profiles : list string;                        (* self._profiles *)
  obs_recording : bool;                              (* self._recording *)
  obs_event_handlers : list (string * list Callback);(* self._event_handlers *)
  obs_connection_callbacks : list Callback;          (* self._connection_callbacks *)
  obs_connection_handlers : list Callback            (* self._connection_handlers *)
}.

(** [GameTracker] *)
Record TrackerState : Type := {
  current_phase : GamePhase;
  recording_started : bool;
  game_update_callback : option Callback             (* self._game_update_callback *)
}.

Record World : Type := {
  auth : AuthState;
  api : ApiState;
  obs : ObsState;
  tracker : TrackerState;
  threads : list Task;     (* started, not yet run *)
  trace : list Event
}.

(** Field updates. *)
Definition with_auth (f : AuthState -> AuthState) (w : World) : World :=
  {| auth := f (auth w); api := api w; obs := obs w; tracker := tracker w;
     threads := threads w; trace := trace w |}.
Definition with_api (f : ApiState -> ApiState) (w : World) : World :=
  {| auth := auth w; api := f (api w); obs := obs w; tracker := tracker w;
     threads := threads w; trace := trace w |}.
Definition with_obs (f : ObsState -> ObsState) (w : World) : World :=
  {| auth := auth w; api := api w; obs := f (obs w); tracker := tracker w;
     threads := threads w; trace := trace w |}.
Definition with_tracker (f : TrackerState -> TrackerState) (w : World) : World :=
  {| auth := auth w; api := api w; obs := obs w; tracker := f (tracker w);
     threads := threads w; trace := trace w |}.
Definition with_threads (f : list Task -> list Task) (w : World) : World :=
  {| auth := auth w; api := api w; obs := obs w; tracker := tracker w;
     threads := f (threads w); trace := trace w |}.
Definition with_trace (f : list Event -> list Event) (w : World) : World :=
  {| auth := auth w; api := api w; obs := obs w; tracker := tracker w;
     threads := threads w; trace := f (trace w) |}.

Definition set_auth_connection_callbacks l (a : AuthState) : AuthState :=
  {| auth_token := auth_token a; client_port := client_port a;
     auth_connection_callbacks := l; auth_connected := auth_connected a |}.
Definition set_auth_connected b (a : AuthState) : AuthState :=
  {| auth_token := auth_token a; client_port := client_port a;
     auth_connection_callbacks := auth_connection_callbacks a;
     auth_connected := b |}.

Definition set_api_event_handlers d (a : ApiState) : ApiState :=
  {| api_running := api_running a; api_event_handlers := d; api_ws := api_ws a;
     api_subscribed := api_subscribed a; api_is_connected := api_is_connected a |}.

Definition set_obs_recording b (o : ObsState) : ObsState :=
  {| obs_ws := obs_ws o; obs_connected := obs_connected o;
     obs_profiles := obs_profiles o; obs_recording := b;
     obs_event_handlers := obs_event_handlers o;
     obs_connection_callbacks := obs_connection_callbacks o;
     obs_connection_handlers := obs_connection_handlers o |}.
Definition set_obs_event_handlers d (o : ObsState) : ObsState :=
  {| obs_ws := obs_ws o; obs_connected := obs_connected o;
     obs_profiles := obs_profiles o; obs_recording := obs_recording o;
     obs_event_handlers := d;
     obs_connection_callbacks := obs_connection_callbacks o;
     obs_connection_handlers := obs_connection_handlers o |}.
Definition set_obs_connection_callbacks l (o : ObsState) : ObsState :=
  {| obs_ws := obs_ws o; obs_connected := obs_connected o;
     obs_profiles := obs_profiles o; obs_recording := obs_recording o;
     obs_event_handlers := obs_event_handlers o;
     obs_connection_callbacks := l;
     obs_connection_handlers := obs_connection_handlers o |}.
Definition set_obs_connection_handlers l (o : ObsState) : ObsState :=
  {| obs_ws := obs_ws o; obs_connected := obs_connected o;
     obs_profiles := obs_profiles o; obs_recording := obs_recording o;
     obs_event_handlers := obs_event_handlers o;
     obs_connection_callbacks := obs_connection_callbacks o;
     obs_connection_handlers := l |}.

Definition set_current_phase p (t : TrackerState) : TrackerState :=
  {| current_phase := p; recording_started := recording_started t;
     game_update_callback := game_update_callback t |}.
Definition set_recording_started b (t : TrackerState) : TrackerState :=
  {| current_phase := current_phase t; recording_started := b;
     game_update_callback := game_update_callback t |}.
Definition set_game_update_callback c (t : TrackerState) : TrackerState :=
  {| current_phase := current_phase t; recording_started := recording_started t;
     game_update_callback := c |}.

(* ================================================================== *)
(** ** The monad of methods *)
(* ================================================================== *)

Inductive Result (A : Type) : Type :=
| Ok (a : A)
| Raise (e : exn).
Arguments Ok {A} a.
Arguments Raise {A} e.

(** A method body: it runs in a world, returns or raises, and leaves a
    world.  What was done before an exception stays done. *)
Definition M (A : Type) : Type := World -> Result A * World.

Definition ret {A} (a : A) : M A := fun w => (Ok a, w).

Definition bind {A B} (m : M A) (k : A -> M B) : M B :=
  fun w => match m w with
           | (Ok a, w') => k a w'
           | (Raise e, w') => (Raise e, w')
           end.

Definition raise {A} (e : exn) : M A := fun w => (Raise e, w).

(** [try: m  except C as e: h e] where [catches] decides [isinstance(e, C)]. *)
Definition try_except {A} (m : M A) (catches : exn -> bool) (h : exn -> M A) : M A :=
  fun w => match m w with
           | (Ok a, w') => (Ok a, w')
           | (Raise e, w') => if catches e then h e w' else (Raise e, w')
           end.

(** [try: m  except <class expression> as e: h e].  Python evaluates the
    class expression when an exception reaches the clause; if that
    evaluation raises, what it raises replaces the exception being handled
    and the clause's body is not run. *)
Definition try_except_eval {A} (m : M A) (clause : exn + (exn -> bool))
    (h : exn -> M A) : M A :=
  fun w => match m w with
           | (Ok a, w') => (Ok a, w')
           | (Raise e, w') =>
               match clause with
               | inl raised => (Raise raised, w')
               | inr catches => if catches e then h e w' else (Raise e, w')
               end
           end.

Definition gets {A} (f : World -> A) : M A := fun w => (Ok (f w), w).
Definition modify (f : World -> World) : M unit := fun w => (Ok tt, f w).

(** An [exn + A] computed by a pure Python expression. *)
Definition lift {A} (r : exn + A) : M A :=
  match r with inl e => raise e | inr a => ret a end.

Definition emit (e : Event) : M unit := modify (with_trace (fun t => t ++ [e])).
Definition log (level : LogLevel) (msg : string) : M unit := emit (Log level msg).
Definition spawn (t : Task) : M unit := modify (with_threads (fun l => l ++ [t])).

Definition exec {A} (m : M A) (w : World) : World := snd (m w).
Definition result {A} (m : M A) (w : World) : Result A := fst (m w).

Declare Scope monad_scope.
Delimit Scope monad_scope with monad.
Notation "x <- m ;; k" := (bind m (fun x => k))
  (at level 61, m at next level, right associativity) : monad_scope.
Notation "m ;; k" := (bind m (fun _ => k))
  (at level 61, right associativity) : monad_scope.
Open Scope monad_scope.

(** [if b: m] with no [else] branch. *)
Definition when_ (b : bool) (m : M unit) : M unit := if b then m else ret tt.

(** [if callback: callback(args)] for an [Optional[Callable]]. *)
Definition if_some {A} (o : option A) (f : A -> M unit) : M unit :=
  match o with Some a => f a | None => ret tt end.

(** [for x in l: body x] *)
Fixpoint for_each {A} (l : list A) (body : A -> M unit) : M unit :=
  match l with
  | [] => ret tt
  | x :: l' => body x ;; for_each l' body
  end.

(* ================================================================== *)
(** ** Calling a callable *)
(* ================================================================== *)

(** [logic.py], [GameTracker._handle_recording_state].  The flag is only
    ever tested for truth, so its truth value is what is stored. *)
Definition _handle_recording_state (is_recording : json) : M unit :=
  modify (with_tracker (set_recording_started (truthy is_recording))) ;;
  log INFO (if truthy is_recording then "Recording started" else "Recording stopped").

(** The three completion closures of [logic.py]: each takes [success] and
    writes one log line. *)
Definition completion_closure (ok_msg err_msg : string) (args : list json) : M unit :=
  match args with
  | [success] => if truthy success then log INFO ok_msg else log ERROR err_msg
  | _ => raise TypeError
  end.

(** [c(args)] *)
Definition call (c : Callback) (args : list json) : M unit :=
  emit (Called c args) ;;
  match c with
  | Extern id raises => if raises then raise (CallbackError id) else ret tt
  | on_profile_set =>
      completion_closure "Set OBS profile to: League of Legends"
                         "Failed to set OBS profile to: League of Legends" args
  | on_record_start =>
      completion_closure "Started recording" "Failed to start recording" args
  | on_record_stop =>
      completion_closure "Stopped recording" "Failed to stop recording" args
  | bound_handle_recording_state =>
      match args with
      | [is_recording] => _handle_recording_state is_recording
      | _ => raise TypeError
      end
  end.

(* ================================================================== *)
(** ** auth.py: LeagueClientAuth *)
(* ================================================================== *)

(** A process as [psutil.process_iter(['name', 'cmdline'])] yields it: the
    two entries of [process.info], [None] where the attribute could not be
    read. *)
Record Process : Type := {
  proc_name : option string;
  proc_cmdline : option (list string)
}.

Module LeagueClientAuth.

(** property [is_client_running]: [bool(self.auth_token and self.client_port)] *)
Definition is_client_running (a : AuthState) : bool :=
  match auth_token a, client_port a with
  | Some t, Some p => negb (t =? EmptyString) && negb (p =? 0)%Z
  | _, _ => false
  end.

Definition get_connection_headers : M (list (string * string)) :=
  a <- gets auth ;;
  match auth_token a with
  | None => log WARNING "No auth token available for headers" ;; ret []
  | Some t =>
      if t =? EmptyString then log WARNING "No auth token available for headers" ;; ret []
      else log DEBUG "Generated connection headers" ;;
           ret [("Authorization", ("Basic " ++ t)%string);
                ("Content-Type", "application/json");
                ("Accept", "application/json")]
  end.

Definition add_connection_callback (callback : Callback) : M unit :=
  a <- gets auth ;;
  when_ (negb (mem Callback_eqb callback (auth_connection_callbacks a)))
    (modify (with_auth (set_auth_connection_callbacks
                          (auth_connection_callbacks a ++ [callback]))) ;;
     (* Notify of current state immediately *)
     call callback [JBool (auth_connected a)]).

Definition remove_connection_callback (callback : Callback) : M unit :=
  a <- gets auth ;;
  match remove_first Callback_eqb callback (auth_connection_callbacks a) with
  | Some l => modify (with_auth (set_auth_connection_callbacks l))
  | None => ret tt
  end.

Definition _notify_connection_callbacks (connected : bool) : M unit :=
  modify (with_auth (set_auth_connected connected)) ;;
  a <- gets auth ;;
  for_each (auth_connection_callbacks a) (fun callback =>
    try_except (call callback [JBool connected]) is_Exception
      (fun _ => log ERROR "Error in connection callback")).

Definition connect : M unit :=
  a <- gets auth ;;
  match auth_token a, client_port a with
  | Some _, Some _ => _notify_connection_callbacks true
  | _, _ => ret tt
  end.

Definition disconnect : M unit := _notify_connection_callbacks false.

(* ---- Credential discovery ---- *)

Definition set_credentials (token : option string) (port : option Z) (a : AuthState)
  : AuthState :=
  {| auth_token := token; client_port := port;
     auth_connection_callbacks := auth_connection_callbacks a;
     auth_connected := auth_connected a |}.

(** [self.process_names] *)
Definition process_names : list string := ["LeagueClientUx.exe"; "LeagueClient.exe"].

(** The body of the [try] in the loop of [get_auth_data], for one process:
    the pair it [return]s, or [None] when the loop goes on. *)
Definition check_process (process : Process) : M (option (string * Z)) :=
  match proc_name process with
  | None => ret None
  | Some name =>
      if mem String.eqb name process_names then
        match proc_cmdline process with
        | None | Some [] => ret None                                (* continue *)
        | Some cmdline =>
            log DEBUG ("Found process: " ++ name)%string ;;
            let cmd_str := String.concat " " cmdline in
            let auth_token := PyLib.find_option "--remoting-auth-token=" cmd_str in
            let port := PyLib.find_option "--app-port=" cmd_str in
            match auth_token, port with
            | Some token, Some port0 =>
                log DEBUG ("Found League Client process " ++ name ++ " on port " ++ port0)%string ;;
                let encoded := PyLib.b64encode (PyLib.encode ("riot:" ++ token)%string) in
                client_port <- lift (PyLib.int port0) ;;
                ret (Some (encoded, client_port))
            | _, _ =>
                log DEBUG "Auth token or port not found in command line" ;;
                ret None
            end
        end
      else ret None
  end.

(** [get_auth_data], over the processes [psutil.process_iter] yields. *)
Fixpoint get_auth_data (processes : list Process) : M (option string * option Z) :=
  match processes with
  | [] =>
      log WARNING "League Client process not found" ;;
      ret (None, None)
  | process :: rest =>
      found <- try_except (check_process process) is_Exception
                 (fun _ =>
                    log ERROR "Unexpected error while checking process" ;;
                    ret None) ;;
      match found with
      | Some (token, port) => ret (Some token, Some port)
      | None => get_auth_data rest
      end
  end.

Definition option_eqb {A} (eqb : A -> A -> bool) (x y : option A) : bool :=
  match x, y with
  | Some a, Some b => eqb a b
  | None, None => true
  | _, _ => false
  end.

(** [bool(new_auth_token and new_client_port)] *)
Definition both_present (token : option string) (port : option Z) : bool :=
  match token, port with
  | Some t, Some p => negb (t =? EmptyString) && negb (p =? 0)%Z
  | _, _ => false
  end.

Definition update_auth (processes : list Process) : M unit :=
  log DEBUG "Checking authentication data..." ;;
  found <- get_auth_data processes ;;
  let '(new_auth_token, new_client_port) := found in
  a <- gets auth ;;
  (* Check if values have changed *)
  let auth_changed := negb (option_eqb String.eqb new_auth_token (auth_token a)) in
  let port_changed := negb (option_eqb Z.eqb new_client_port (client_port a)) in
  if auth_changed || port_changed then
    log INFO "Authentication data changed, updating values" ;;
    modify (with_auth (set_credentials new_auth_token new_client_port)) ;;
    (* Notify connection state change *)
    if both_present new_auth_token new_client_port then connect else disconnect
  else
    log DEBUG "No changes in authentication data".

(** property [is_connected] *)
Definition is_connected (a : AuthState) : bool := auth_connected a.

End LeagueClientAuth.

(* ================================================================== *)
(** ** obs_client.py: OBSClient *)
(* ================================================================== *)

Module OBSClient.

(** properties [is_connected], [is_recording], [profiles] *)
Definition is_connected (w : World) : bool := obs_connected (obs w).
Definition is_recording (w : World) : bool := obs_recording (obs w).
Definition profiles (w : World) : list string := obs_profiles (obs w).

(** [self._ws.call(req)], answered by [out].  With [self._ws] being [None]
    the attribute access fails before anything is sent. *)
Definition ws_call (req : ObsRequest) (out : RpcOutcome) : M RpcResponse :=
  o <- gets obs ;;
  if obs_ws o then
    emit (Rpc req) ;;
    match out with
    | RpcRaises e => raise e
    | RpcReturns r => ret r
    end
  else raise AttributeError.

(** [hasattr(response, 'status') and response.status] *)
Definition response_success (response : RpcResponse) : json :=
  match resp_status response with
  | None => JBool false
  | Some status => status
  end.

(** The class expression [obsws.exceptions.OBSWebSocketError] of the inner
    [except] of [_set_profile].  [obsws] is the class that
    [from obswebsocket import obsws, requests, events] binds, and that
    class has no attribute [exceptions]: evaluating the expression raises
    [AttributeError]. *)
Definition obsws_exceptions_OBSWebSocketError : exn + (exn -> bool) :=
  inl AttributeError.

(** The thread target [_set_profile] of [set_profile].  Whatever is raised
    inside the inner [try] reaches the inner clause, whose evaluation
    raises; so it is the outer handler that deals with every failure. *)
Definition _set_profile (profile_name : string) (callback : option Callback)
    (out : RpcOutcome) : M json :=
  try_except
    ((* with self._operation_lock: *)
     o <- gets obs ;;
     (* First verify profile exists *)
     if negb (mem String.eqb profile_name (obs_profiles o)) then
       log ERROR ("Profile '" ++ profile_name ++ "' not found")%string ;;
       if_some callback (fun c => call c [JBool false]) ;;
       ret (JBool false)
     else
       try_except_eval
         (_ <- ws_call (SetCurrentProfile profile_name) out ;;
          (* In v5, no response means success *)
          log INFO ("Changed profile to: " ++ profile_name)%string ;;
          if_some callback (fun c => call c [JBool true]) ;;
          ret (JBool true))
         obsws_exceptions_OBSWebSocketError
         (fun _ =>
            log ERROR "OBS WebSocket error" ;;
            if_some callback (fun c => call c [JBool false]) ;;
            ret (JBool false)))
    is_Exception
    (fun _ =>
       log ERROR "Failed to set profile" ;;
       if_some callback (fun c => call c [JBool false]) ;;
       ret (JBool false)).

Definition set_profile (profile_name : string) (callback : option Callback) : M bool :=
  o <- gets obs ;;
  if negb (obs_connected o) then
    log ERROR "Not connected to OBS" ;;
    if_some callback (fun c => call c [JBool false]) ;;
    ret false
  else
    spawn (T_set_profile profile_name callback) ;;
    ret true.

(** The thread target [_start_recording] of [start_recording]. *)
Definition _start_recording (callback : option Callback) (out : RpcOutcome) : M json :=
  try_except
    ((* with self._operation_lock: *)
     response <- ws_call StartRecord out ;;
     let success := response_success response in
     when_ (truthy success)
       (modify (with_obs (set_obs_recording true)) ;;
        log INFO "Started recording") ;;
     if_some callback (fun c => call c [success]) ;;
     ret success)
    is_Exception
    (fun _ =>
       log ERROR "Failed to start recording" ;;
       if_some callback (fun c => call c [JBool false]) ;;
       ret (JBool false)).

Definition start_recording (callback : option Callback) : M bool :=
  o <- gets obs ;;
  if negb (obs_connected o) then
    log ERROR "Not connected to OBS" ;;
    if_some callback (fun c => call c [JBool false]) ;;
    ret false
  else
    spawn (T_start_recording callback) ;;
    ret true.

(** The thread target [_stop_recording] of [stop_recording]. *)
Definition _stop_recording (callback : option Callback) (out : RpcOutcome) : M json :=
  try_except
    ((* with self._operation_lock: *)
     response <- ws_call StopRecord out ;;
     let success := response_success response in
     when_ (truthy success)
       (modify (with_obs (set_obs_recording false)) ;;
        log INFO "Stopped recording") ;;
     if_some callback (fun c => call c [success]) ;;
     ret success)
    is_Exception
    (fun _ =>
       log ERROR "Failed to stop recording" ;;
       if_some callback (fun c => call c [JBool false]) ;;
       ret (JBool false)).

Definition stop_recording (callback : option Callback) : M bool :=
  o <- gets obs ;;
  if negb (obs_connected o) then
    log ERROR "Not connected to OBS" ;;
    if_some callback (fun c => call c [JBool false]) ;;
    ret false
  else
    spawn (T_stop_recording callback) ;;
    ret true.

Definition register_event_handler (event_type : string) (callback : Callback) : M unit :=
  o <- gets obs ;;
  let handlers :=
    match lookup event_type (obs_event_handlers o) with
    | Some l => l
    | None => []
    end in
  modify (with_obs (set_obs_event_handlers
                      (store event_type (handlers ++ [callback]) (obs_event_handlers o)))).

(** A [RecordStateChanged] event object: its [datain] attribute when it has
    one, a dict in which [outputActive], when present, is a boolean. *)
Record RecordStateChanged : Type := {
  ev_datain : option (option bool)
}.

Definition _on_recording_state_changed (event : RecordStateChanged) : M unit :=
  try_except
    (match ev_datain event with
     | Some outputActive =>
         let recording := match outputActive with Some b => b | None => false end in
         modify (with_obs (set_obs_recording recording)) ;;
         log DEBUG "Recording state changed" ;;
         o <- gets obs ;;
         match lookup "RecordStateChanged" (obs_event_handlers o) with
         | Some callbacks =>
             for_each callbacks (fun callback =>
               try_except (call callback [JBool recording]) is_Exception
                 (fun _ => log ERROR "Error in recording state callback"))
         | None => ret tt
         end
     | None => ret tt
     end)
    is_Exception
    (fun _ =>
       log ERROR "Error handling recording state change" ;;
       modify (with_obs (set_obs_recording false))).

Definition add_connection_callback (callback : Callback) : M unit :=
  o <- gets obs ;;
  when_ (negb (mem Callback_eqb callback (obs_connection_callbacks o)))
    (modify (with_obs (set_obs_connection_callbacks
                         (obs_connection_callbacks o ++ [callback])))).

Definition _notify_connection_callbacks (connected : bool) : M unit :=
  o <- gets obs ;;
  for_each (obs_connection_callbacks o) (fun callback =>
    try_except (call callback [JBool connected]) is_Exception
      (fun _ => log ERROR "Error in connection callback")).

Definition add_connection_handler (handler : Callback) : M unit :=
  o <- gets obs ;;
  when_ (negb (mem Callback_eqb handler (obs_connection_handlers o)))
    (modify (with_obs (set_obs_connection_handlers
                         (obs_connection_handlers o ++ [handler]))) ;;
     (* Immediately notify of current state if already connected *)
     when_ (obs_connected o)
       (try_except (call handler [JBool true]) is_Exception
          (fun _ => log ERROR "Error in connection handler"))).

Definition _notify_connection_state (connected : bool) : M unit :=
  log DEBUG (if connected
             then "Notifying connection handlers of state: Connected"
             else "Notifying connection handlers of state: Disconnected") ;;
  o <- gets obs ;;
  for_each (obs_connection_handlers o) (fun handler =>
    try_except (call handler [JBool connected]) is_Exception
      (fun _ => log ERROR "Error in connection handler")).

End OBSClient.

(* ================================================================== *)
(** ** api.py: LCUApi *)
(* ================================================================== *)

(** What [await self._ws.recv()] delivers: a text frame, given with the
    outcome of [json.loads] on it, or the end of the connection. *)
Inductive Message : Type :=
| NotJson (text : string)     (* json.loads raises JSONDecodeError *)
| Json (data : json).

Inductive Recv : Type :=
| Closed                      (* recv raises ConnectionClosed *)
| Frame (message : Message).

(** How a run of [_handle_messages] over the frames received so far ends:
    still inside the loop, suspended in [recv], or returned. *)
Inductive LoopEnd : Type :=
| AwaitingFrame
| Returned.

Module LCUApi.

(* ---- Event subscription ---- *)

Definition _store_subscription (event_path : string) (callback : Handler) : M unit :=
  a <- gets api ;;
  let handlers :=
    if has_key event_path (api_event_handlers a) then api_event_handlers a
    else store event_path [] (api_event_handlers a) in
  let registered :=
    match lookup event_path handlers with Some l => l | None => [] end in
  let handlers' :=
    if mem Handler_eqb callback registered then handlers
    else store event_path (registered ++ [callback]) handlers in
  modify (with_api (set_api_event_handlers handlers')).

Definition subscribe (event_path : string) (callback : Handler) : M unit :=
  _store_subscription event_path callback ;;
  log DEBUG ("Added callback for event: " ++ event_path)%string ;;
  (* If we're already connected but not subscribed, try to subscribe *)
  a <- gets api ;;
  when_ (api_is_connected a && negb (api_subscribed a) && api_ws a)
    (emit ScheduledSubscribe).

Definition unsubscribe (event_path : string) (callback : option Handler) : M unit :=
  a <- gets api ;;
  match lookup event_path (api_event_handlers a) with
  | Some registered =>
      match callback with
      | None =>
          modify (with_api (set_api_event_handlers
                              (store event_path [] (api_event_handlers a)))) ;;
          log DEBUG ("Removed all callbacks for event: " ++ event_path)%string
      | Some cb =>
          (* list.remove raises ValueError when the item is absent *)
          match remove_first Handler_eqb cb registered with
          | Some rest =>
              modify (with_api (set_api_event_handlers
                                  (store event_path rest (api_event_handlers a)))) ;;
              log DEBUG ("Removed specific callback for event: " ++ event_path)%string
          | None => raise ValueError
          end
      end
  | None => ret tt
  end.

(* ---- WebSocket receive loop ---- *)

Section Dispatch.
(** Running the body of a subscribed handler: [callback(event_data)]. *)
Variable run_handler : Handler -> json -> M unit.

Definition json_loads (message : Message) : M json :=
  match message with
  | NotJson _ => raise JSONDecodeError
  | Json data => ret data
  end.

(** One iteration of the [while] loop of [_handle_messages], after
    [recv] has delivered [message]. *)
Definition on_message (message : Message) : M unit :=
  try_except
    (data <- json_loads message ;;
     n <- lift (len data) ;;
     is_event <- (if Nat.eqb n 3
                  then first <- lift (getitem data 0) ;; ret (eq_8 first)
                  else ret false) ;;
     (* Event message format *)
     when_ is_event
       (name <- lift (getitem data 1) ;;
        event_path <- lift (replace name "OnJsonApiEvent_") ;;
        event_data <- lift (getitem data 2) ;;
        event_uri <- lift (get event_data "uri" (JStr EmptyString)) ;;
        (* Check if any callbacks are registered for this event *)
        a <- gets api ;;
        for_each (api_event_handlers a) (fun '(registered_path, callbacks) =>
          when_ (startswith event_path registered_path)
            (for_each callbacks (fun callback =>
               try_except
                 (log DEBUG ("Calling event handler for " ++ event_path)%string ;;
                  emit (Invoked callback event_data) ;;
                  run_handler callback event_data)
                 is_Exception
                 (fun _ =>
                    log ERROR ("Error in event handler for " ++ event_path)%string))))))
    (fun e => match e with JSONDecodeError => true | _ => false end)
    (fun _ => log WARNING "Received invalid JSON message").

(** [while self._running and self._ws: message = await recv(); ...] *)
Fixpoint receive_loop (inbox : list Recv) : M LoopEnd :=
  a <- gets api ;;
  if api_running a && api_ws a then
    match inbox with
    | [] => ret AwaitingFrame
    | r :: rest =>
        match r with
        | Closed => raise ConnectionClosed
        | Frame message => on_message message
        end ;;
        receive_loop rest
    end
  else ret Returned.

Definition _handle_messages (inbox : list Recv) : M LoopEnd :=
  try_except (receive_loop inbox) is_Exception
    (fun e =>
       match e with
       | ConnectionClosed => log WARNING "WebSocket connection closed"
       | _ => log ERROR "Error handling WebSocket messages"
       end ;;
       ret Returned).
End Dispatch.

(* ---- HTTPS requests ---- *)

(** [response.raise_for_status()]: an [HTTPError] for a 4xx or 5xx status
    code, nothing otherwise. *)
Definition raise_for_status (r : Response) : M unit :=
  if ((400 <=? status_code r) && (status_code r <? 600))%Z
  then raise HTTPError
  else ret tt.

(** [response.json()] *)
Definition response_json (r : Response) : M json :=
  match json_decoded r with
  | Some j => ret j
  | None => raise RequestsJSONDecodeError
  end.

Definition get_request (endpoint : string) (net : HttpOutcome) : M json :=
  a <- gets auth ;;
  if negb (LeagueClientAuth.is_client_running a) then
    log ERROR "League Client not running" ;;
    ret (JDict [])
  else
    headers <- LeagueClientAuth.get_connection_headers ;;
    try_except
      (emit (HttpGet (client_port a) endpoint) ;;
       match net with
       | TransportError => raise RequestException
       | Responds response =>
           raise_for_status response ;;
           response_json response
       end)
      is_RequestException
      (fun _ => log ERROR "GET request failed" ;; ret (JDict [])).



Definition get_current_gameflow (net : HttpOutcome) : M json :=
  get_request "lol-gameflow/v1/session" net.

Definition get_champ_select (net : HttpOutcome) : M json :=
  get_request "lol-champ-select/v1/session" net.

Definition get_current_summoner (net : HttpOutcome) : M json :=
  get_request "lol-summoner/v1/current-summoner" net.

Definition get_game_data (net : HttpOutcome) : M json :=
  get_request "liveclientdata/allgamedata" net.

(** The frame [_subscribe_to_events] sends for a registered path:
    [[5, "OnJsonApiEvent_" + event_path, {}]]. *)
Definition subscribe_msg (event_path : string) : json :=
  JList [JInt 5; JStr ("OnJsonApiEvent_" ++ event_path)%string; JDict []].

End LCUApi.

(* ================================================================== *)
(** ** logic.py: GameTracker *)
(* ================================================================== *)

Module GameTracker.

Definition phase_mapping : list (string * GamePhase) :=
  [ ("Home Screen", NONE);
    ("Lobby", LOBBY);
    ("Matchmaking", MATCHMAKING);
    ("ChampSelect", CHAMPION_SELECT);
    ("GameStart", GAME_START);
    ("InProgress", IN_GAME);
    ("WaitingForStats", POST_GAME);
    ("PreEndOfGame", POST_GAME);
    ("EndOfGame", POST_GAME) ].

(** [phase_mapping.get(new_phase, GamePhase.NONE)]: a list or a dict is
    not hashable; any other value that is not one of the keys gets the
    default. *)
Definition map_phase (new_phase : json) : exn + GamePhase :=
  match new_phase with
  | JStr s => inr (match lookup s phase_mapping with Some p => p | None => NONE end)
  | JList _ | JDict _ => inl TypeError
  | _ => inr NONE
  end.

Definition register_game_update_callback (callback : Callback) : M unit :=
  modify (with_tracker (set_game_update_callback (Some callback))) ;;
  log INFO "Game update callback registered".

Definition _set_obs_profile : M unit :=
  let profile_name := "League of Legends" in
  _ <- OBSClient.set_profile profile_name (Some on_profile_set) ;;
  ret tt.

Definition _start_recording : M unit :=
  t <- gets tracker ;;
  connected <- gets OBSClient.is_connected ;;
  when_ (negb (recording_started t) && connected)
    (_ <- OBSClient.start_recording (Some on_record_start) ;; ret tt).

Definition _stop_recording : M unit :=
  t <- gets tracker ;;
  connected <- gets OBSClient.is_connected ;;
  when_ (recording_started t && connected)
    (_ <- OBSClient.stop_recording (Some on_record_stop) ;; ret tt).

Definition _handle_phase_change (new_phase : GamePhase) : M unit :=
  try_except
    (match new_phase with
     | CHAMPION_SELECT => _start_recording
     | IN_GAME =>
         t <- gets tracker ;;
         when_ (negb (recording_started t)) _start_recording
     | NONE | LOBBY | POST_GAME =>
         t <- gets tracker ;;
         when_ (recording_started t) _stop_recording
     | MATCHMAKING | GAME_START => ret tt
     end)
    is_Exception
    (fun _ => log ERROR "Error handling phase change").

Definition _handle_dodge : M unit :=
  log INFO "Game was dodged - stopping recording" ;;
  _stop_recording ;;
  modify (with_tracker (set_current_phase NONE)).

Definition _handle_gameflow_update (data : json) : M unit :=
  try_except
    (game_data <- lift (get data "data" (JDict [])) ;;
     new_phase <- lift (get game_data "phase" (JStr "None")) ;;
     gameData <- lift (get game_data "gameData" (JDict [])) ;;
     queue <- lift (get gameData "queue" (JDict [])) ;;
     queue_info <- lift (get queue "description" (JStr "Unknown Queue")) ;;
     new_game_phase <- lift (map_phase new_phase) ;;
     t <- gets tracker ;;
     when_ (negb (GamePhase_eqb new_game_phase (current_phase t)))
       (log INFO "Game phase changed" ;;
        (* Use callback instead of direct GUI access *)
        if_some (game_update_callback t) (fun callback =>
          try_except
            (call callback [JStr "gameflow";
                            JDict [("phase", new_phase); ("queue", queue_info)]])
            is_Exception
            (fun _ => log ERROR "Error in game update callback")) ;;
        _handle_phase_change new_game_phase ;;
        modify (with_tracker (set_current_phase new_game_phase))))
    is_Exception
    (fun _ => log ERROR "Error handling gameflow update").

Definition _handle_champselect_update (data : json) : M unit :=
  try_except
    ((* Check for dodge *)
     session <- lift (get data "data" JNull) ;;
     when_ (negb (truthy session))       (* Session ended *)
       (t <- gets tracker ;;
        when_ (GamePhase_eqb (current_phase t) CHAMPION_SELECT)
          (log INFO "Champion select ended - possible dodge" ;;
           _handle_dodge)))
    is_Exception
    (fun _ => log ERROR "Error handling champselect update").

(** The attribute lookup [self.<name>] for a method taking an event dict.
    [logic.py] defines [__init__], [register_game_update_callback],
    [start], [stop], [_set_obs_profile], [_handle_gameflow_update],
    [_handle_champselect_update], [_handle_phase_change], [_handle_dodge],
    [_handle_recording_state], [_start_recording] and [_stop_recording];
    the two below are the ones that take [data], and a name the class does
    not define is an [AttributeError]. *)
Definition method (name : string) : M (json -> M unit) :=
  if name =? "_handle_gameflow_update" then ret _handle_gameflow_update
  else if name =? "_handle_champselect_update" then ret _handle_champselect_update
  else raise AttributeError.

Definition start (net : HttpOutcome) : M unit :=
  log INFO "Starting game tracker..." ;;
  (* Check initial game state *)
  try_except
    (gameflow <- LCUApi.get_current_gameflow net ;;
     when_ (truthy gameflow)
       (_gameflow_update <- method "_gameflow_update" ;;
        _gameflow_update (JDict [("data", gameflow)])) ;;
     (* Don't auto-start recording for in-progress games *)
     t <- gets tracker ;;
     when_ (GamePhase_eqb (current_phase t) IN_GAME)
       (log WARNING "Game in progress detected - not starting recording"))
    is_Exception
    (fun _ => log ERROR "Error checking initial game state") ;;
  (* Set initial profile in OBS if connected *)
  connected <- gets OBSClient.is_connected ;;
  when_ connected _set_obs_profile ;;
  OBSClient.register_event_handler "RecordStateChanged" bound_handle_recording_state.

Definition stop : M unit :=
  log INFO "Stopping game tracker..." ;;
  t <- gets tracker ;;
  when_ (recording_started t) _stop_recording.

(** [__init__]: the initial fields, then the two subscriptions. *)
Definition __init__ : M unit :=
  modify (with_tracker (fun _ =>
    {| current_phase := NONE; recording_started := false;
       game_update_callback := None |})) ;;
  LCUApi.subscribe "lol-gameflow_v1_session" bound_handle_gameflow_update ;;
  LCUApi.subscribe "lol-champ-select_v1_session" bound_handle_champselect_update.

End GameTracker.

(* ================================================================== *)
(** ** Running handlers and threads *)
(* ================================================================== *)

(** [callback(event_data)] for a handler subscribed to [LCUApi]. *)
Definition run_handler (h : Handler) (event_data : json) : M unit :=
  match h with
  | Plain c => call c [event_data]
  | bound_handle_gameflow_update => GameTracker._handle_gameflow_update event_data
  | bound_handle_champselect_update => GameTracker._handle_champselect_update event_data
  end.

(** The receive loop of the running program. *)
Definition handle_messages : list Recv -> M LoopEnd :=
  LCUApi._handle_messages run_handler.

(** Running the target of a started [OBSClient] worker thread, the RPC
    session answering [out].  The thread discards the target's return
    value. *)
Definition run_task (t : Task) (out : RpcOutcome) : M unit :=
  match t with
  | T_set_profile profile_name callback =>
      _ <- OBSClient._set_profile profile_name callback out ;; ret tt
  | T_start_recording callback =>
      _ <- OBSClient._start_recording callback out ;; ret tt
  | T_stop_recording callback =>
      _ <- OBSClient._stop_recording callback out ;; ret tt
  end.

(* ================================================================== *)
(** ** Initial objects *)
(* ================================================================== *)

(** The objects as their [__init__] methods build them. *)
Definition auth_init : AuthState :=
  {| auth_token := None; client_port := None;
     auth_connection_callbacks := []; auth_connected := false |}.

Definition api_init : ApiState :=
  {| api_running := false; api_event_handlers := []; api_ws := false;
     api_subscribed := false; api_is_connected := false |}.

Definition obs_init : ObsState :=
  {| obs_ws := false; obs_connected := false; obs_profiles := [];
     obs_recording := false; obs_event_handlers := [];
     obs_connection_callbacks := []; obs_connection_handlers := [] |}.

Definition tracker_init : TrackerState :=
  {| current_phase := NONE; recording_started := false;
     game_update_callback := None |}.

Definition world_init : World :=
  {| auth := auth_init; api := api_init; obs := obs_init; tracker := tracker_init;
     threads := []; trace := [] |}.

(** The application once [main.py] has built its objects:
    [GameTracker.__init__] has subscribed its two handlers. *)
Definition world_built : World := exec GameTracker.__init__ world_init.

(** An OBS session that is up, with the profile list fetched on connect. *)
Definition obs_up (profile_list : list string) (o : ObsState) : ObsState :=
  {| obs_ws := true; obs_connected := true; obs_profiles := profile_list;
     obs_recording := obs_recording o; obs_event_handlers := obs_event_handlers o;
     obs_connection_callbacks := obs_connection_callbacks o;
     obs_connection_handlers := obs_connection_handlers o |}.

(** The League client found by the credential monitor, the WebSocket open
    and the receive loop running. *)
Definition auth_up (token : string) (port : Z) (a : AuthState) : AuthState :=
  {| auth_token := Some token; client_port := Some port;
     auth_connection_callbacks := auth_connection_callbacks a;
     auth_connected := true |}.

Definition api_up (a : ApiState) : ApiState :=
  {| api_running := true; api_event_handlers := api_event_handlers a;
     api_ws := true; api_subscribed := true; api_is_connected := true |}.

Definition world_live : World :=
  with_obs (obs_up ["League of Legends"])
    (with_api api_up (with_auth (auth_up "cmlvdDpzZWNyZXQ=" 51234) world_built)).

(* ================================================================== *)
(** * Vocabulary of the properties *)
(* ================================================================== *)

(** ** Frame relations *)

(** [Respects R m]: running [m] takes every world to an [R]-related one,
    whether it returns or raises. *)
Definition Respects (R : World -> World -> Prop) {A} (m : M A) : Prop :=
  forall w, R w (snd (m w)).

(** Computations that always return. *)
Definition Returns (m : M unit) : Prop := forall w, fst (m w) = Ok tt.

(** Worlds with the same [current_phase]. *)
Definition same_phase (w w' : World) : Prop :=
  current_phase (tracker w') = current_phase (tracker w).

(** Worlds with the same [OBSClient] object. *)
Definition same_obs (w w' : World) : Prop := obs w' = obs w.

(** Growth of the trace by events none of which satisfies [P]. *)
Definition adds_no (P : Event -> bool) (w w' : World) : Prop :=
  exists d, trace w' = trace w ++ d /\ filter P d = [].

(** ** Reading a trace *)

Definition is_Invoked (e : Event) : bool :=
  match e with Invoked _ _ => true | _ => false end.

(** The handler dispatches among the events [d]. *)
Definition invoked (d : list Event) : list Event := filter is_Invoked d.

Definition is_Called (e : Event) : bool :=
  match e with Called _ _ => true | _ => false end.

(** The callable invocations among the events [d]. *)
Definition calls (d : list Event) : list Event := filter is_Called d.

Definition is_Rpc (e : Event) : bool :=
  match e with Rpc _ => true | _ => false end.

(** The RPC calls among the events [d]. *)
Definition rpcs (d : list Event) : list Event := filter is_Rpc d.

(** A downstream notification: the game-update callback called with
    ['gameflow'] and a payload. *)
Definition is_game_update (e : Event) : bool :=
  match e with
  | Called _ [JStr kind; _] => kind =? "gameflow"
  | _ => false
  end.

Definition game_updates (d : list Event) : list Event := filter is_game_update d.

Definition is_stop_request (t : Task) : bool :=
  match t with T_stop_recording _ => true | _ => false end.

(** The stop-recording requests among the started workers. *)
Definition stop_requests (l : list Task) : nat := List.length (filter is_stop_request l).

(** [quiet_step w w']: between [w] and [w'] the [LCUApi] object is
    unchanged and the trace has only grown, by events none of which is a
    handler dispatch. *)
Definition quiet_step (w w' : World) : Prop :=
  api w' = api w /\ exists d, trace w' = trace w ++ d /\ invoked d = [].

Abbreviation Quiet := (Respects quiet_step).

Abbreviation NoUpdate := (Respects (adds_no is_game_update)).

(** ** The dispatch loop of [_handle_messages], piece by piece *)

(** An inbound event frame [[8, name, {..payload..}]]. *)
Definition event_frame (name : string) (payload : list (string * json)) : Message :=
  Json (JList [JInt 8; JStr name; JDict payload]).

(** The handlers an event at [event_path] reaches: those of every
    registered path that is a prefix of it, in registration order. *)
Definition matching (event_path : string) (handlers : list (string * list Handler))
  : list Handler :=
  flat_map (fun '(registered_path, callbacks) =>
              if startswith event_path registered_path then callbacks else [])
           handlers.

(** The innermost [try] of [_handle_messages]. *)
Definition guarded_call (event_path : string) (event_data : json)
    (callback : Handler) : M unit :=
  try_except
    (log DEBUG ("Calling event handler for " ++ event_path)%string ;;
     emit (Invoked callback event_data) ;;
     run_handler callback event_data)
    is_Exception
    (fun _ => log ERROR ("Error in event handler for " ++ event_path)%string).

(** The [for registered_path, callbacks in ...items()] loop. *)
Definition deliver (event_path : string) (event_data : json)
    (handlers : list (string * list Handler)) : M unit :=
  for_each handlers (fun '(registered_path, callbacks) =>
    when_ (startswith event_path registered_path)
      (for_each callbacks (guarded_call event_path event_data))).

(** What a loop over handlers leaves behind: it returns, the
    subscriptions are as before, and the dispatches it added to the trace
    are exactly [hs], in order. *)
Definition delivers (event_data : json) (m : M unit) (hs : list Handler) : Prop :=
  forall w, exists w' d,
    m w = (Ok tt, w') /\ api w' = api w /\ trace w' = trace w ++ d /\
    invoked d = map (fun h => Invoked h event_data) hs.

(** The JSON values without a length: numbers, booleans and [null]. *)
Definition unsized (data : json) : bool :=
  match len data with inl _ => true | inr _ => false end.

(** ** [_handle_gameflow_update], piece by piece *)

(** What [_handle_gameflow_update] reads in an event before it acts: the
    raw phase, the queue description and the mapped phase, or the
    exception one of the reads raises. *)
Definition gameflow_fields (data : json) : exn + (json * json * GamePhase) :=
  match get data "data" (JDict []) with
  | inl e => inl e
  | inr game_data =>
  match get game_data "phase" (JStr "None") with
  | inl e => inl e
  | inr new_phase =>
  match get game_data "gameData" (JDict []) with
  | inl e => inl e
  | inr gameData =>
  match get gameData "queue" (JDict []) with
  | inl e => inl e
  | inr queue =>
  match get queue "description" (JStr "Unknown Queue") with
  | inl e => inl e
  | inr queue_info =>
  match GameTracker.map_phase new_phase with
  | inl e => inl e
  | inr new_game_phase => inr (new_phase, queue_info, new_game_phase)
  end end end end end end.

(** The downstream notification of a phase change. *)
Definition notify_game_update (new_phase queue_info : json) : M unit :=
  t <- gets tracker ;;
  if_some (game_update_callback t) (fun callback =>
    try_except
      (call callback [JStr "gameflow";
                      JDict [("phase", new_phase); ("queue", queue_info)]])
      is_Exception
      (fun _ => log ERROR "Error in game update callback")).

(** What [_handle_gameflow_update] does on a changed phase: notify
    downstream, then apply the phase-change policy, then commit. *)
Definition on_phase_change (new_phase queue_info : json) (new_game_phase : GamePhase)
  : M unit :=
  log INFO "Game phase changed" ;;
  notify_game_update new_phase queue_info ;;
  GameTracker._handle_phase_change new_game_phase ;;
  modify (with_tracker (set_current_phase new_game_phase)).

(** [not data.get('data')] on a champ-select event. *)
Definition session_ended (data : list (string * json)) : bool :=
  negb (truthy (match lookup "data" data with Some session => session | None => JNull end)).

(** ** Outcomes of the commands and requests *)

(** The command's RPC call went through and the response has a true
    [status]. *)
Definition rpc_succeeds (w : World) (out : RpcOutcome) : bool :=
  obs_ws (obs w) &&
  match out with
  | RpcReturns response => truthy (OBSClient.response_success response)
  | RpcRaises _ => false
  end.


(** ** Concrete inputs and worlds *)

(** An OBS session that answers a request with success. *)
Definition record_ok : RpcOutcome :=
  RpcReturns {| resp_status := Some (JBool true) |}.

(** The session the League client reports while the player sits in a
    lobby, as a successful HTTPS response. *)
Definition lobby_session : json := JDict [("phase", JStr "Lobby")].

Definition lobby_response : HttpOutcome :=
  Responds {| status_code := 200; content := "(session)";
              json_decoded := Some lobby_session |}.


(** The gameflow event frame announcing [phase]. *)
Definition gameflow_event (phase : string) : Message :=
  event_frame "OnJsonApiEvent_lol-gameflow_v1_session"
    [("uri", JStr "/lol-gameflow/v1/session");
     ("data", JDict [("phase", JStr phase)])].

Definition lobby_event : Message := gameflow_event "Lobby".

(** The payload of the event that announces champion select. *)
Definition champ_select_event : json :=
  JDict [("uri", JStr "/lol-gameflow/v1/session");
         ("data", JDict [("phase", JStr "ChampSelect")])].

(** The running application in champion select: the gameflow event has
    arrived and the recording worker is started, but OBS has not yet
    confirmed anything, so [recording_started] is still false. *)
Definition world_champ_select : World :=
  exec (GameTracker._handle_gameflow_update champ_select_event) world_live.

(** The running application with a downstream consumer registered. *)
Definition world_watched : World :=
  exec (GameTracker.register_game_update_callback (Extern 3 false)) world_live.

(** ** A run of the whole application

    What can happen next to the running application: a frame arrives
    from the League client, the oldest started worker thread gets to run
    (its RPC call answered by [out]), or OBS emits [RecordStateChanged]. *)
Inductive Happening : Type :=
| Receives (message : Message)
| WorkerRuns (out : RpcOutcome)
| ObsEmits (event : OBSClient.RecordStateChanged).

Definition happen (h : Happening) : M unit :=
  match h with
  | Receives message => _ <- handle_messages [Frame message] ;; ret tt
  | WorkerRuns out =>
      started <- gets threads ;;
      match started with
      | [] => ret tt
      | t :: rest => modify (with_threads (fun _ => rest)) ;; run_task t out
      end
  | ObsEmits event => OBSClient._on_recording_state_changed event
  end.

(** OBS confirming that the recording output is, or is no longer, active. *)
Definition confirms (active : bool) : Happening :=
  ObsEmits {| OBSClient.ev_datain := Some (Some active) |}.

(** A full match, from the home screen to the end-of-game statistics,
    OBS answering every request and confirming every state change. *)
Definition full_match : list Happening :=
  [ WorkerRuns record_ok;                    (* the set_profile worker of start() *)
    Receives (gameflow_event "HomeScreen");
    Receives (gameflow_event "Lobby");
    Receives (gameflow_event "ChampSelect");
    WorkerRuns record_ok; confirms true;     (* the start_recording worker *)
    Receives (gameflow_event "InProgress");
    Receives (gameflow_event "WaitingForStats");
    WorkerRuns record_ok; confirms false ].  (* the stop_recording worker *)

(** ** Vocabulary of the further properties *)

(** Everything but the trace is as before, and the trace has grown by log
    lines only. *)
Definition is_Log (e : Event) : bool :=
  match e with Log _ _ => true | _ => false end.

Definition logs_only (w w' : World) : Prop :=
  auth w' = auth w /\ api w' = api w /\ obs w' = obs w /\
  tracker w' = tracker w /\ threads w' = threads w /\
  exists d, trace w' = trace w ++ d /\ forallb is_Log d = true.

(** What a callable may touch: the trace and the tracker's recording flag. *)
Definition flag_step (w w' : World) : Prop :=
  auth w' = auth w /\ api w' = api w /\ obs w' = obs w /\
  threads w' = threads w /\
  current_phase (tracker w') = current_phase (tracker w) /\
  game_update_callback (tracker w') = game_update_callback (tracker w).

(** Worlds with the same [LeagueClientAuth] object. *)
Definition same_auth (w w' : World) : Prop := auth w' = auth w.

(** A table of handlers as a Python [dict] of lists holds it: distinct
    keys, and here no handler twice under one key. *)
Definition distinct_keys {V : Type} (d : list (string * V)) : Prop :=
  NoDup (map fst d).

Definition no_duplicates {A : Type} (d : list (string * list A)) : Prop :=
  forall k l, In (k, l) d -> NoDup l.

(** The handlers registered under [path], none when it is not a key. *)
Definition handlers_at {A : Type} (path : string) (d : list (string * list A)) : list A :=
  match lookup path d with Some l => l | None => [] end.

(** [old] occurs somewhere in [s]. *)
Fixpoint occurs (old s : string) : bool :=
  String.prefix old s ||
  match s with
  | EmptyString => false
  | String _ s' => occurs old s'
  end.

(** The JSON frames the guard of [_handle_messages] lets pass without
    effect: arrays and objects whose length is not 3, three-element arrays
    that do not start with 8, and strings. *)
Definition ignorable (data : json) : bool :=
  match data with
  | JList l =>
      negb (Nat.eqb (List.length l) 3)
      || match l with first :: _ => negb (eq_8 first) | [] => true end
  | JDict d => negb (Nat.eqb (List.length d) 3)
  | JStr _ => true
  | _ => false
  end.

(** The event frames: [[8, name, {...}]] with a string and an object. *)
Definition well_shaped (data : json) : bool :=
  match data with
  | JList [first; JStr _; JDict _] => eq_8 first
  | _ => false
  end.

(** The deliveries after which the receive loop is still receiving. *)
Definition goes_on (r : Recv) : bool :=
  match r with
  | Closed => false
  | Frame (NotJson _) => true
  | Frame (Json data) => ignorable data || well_shaped data
  end.

(** The recording request the phase-change policy makes on entering
    [new_phase], by the recording flag and the OBS connection. *)
Definition policy_requests (new_phase : GamePhase) (recording connected : bool)
  : list Task :=
  match new_phase with
  | CHAMPION_SELECT | IN_GAME =>
      if negb recording && connected then [T_start_recording (Some on_record_start)]
      else []
  | NONE | LOBBY | POST_GAME =>
      if recording && connected then [T_stop_recording (Some on_record_stop)]
      else []
  | MATCHMAKING | GAME_START => []
  end.

(** Calling [c] with one argument raises: only a consumer-supplied
    callable can. *)
Definition raises (c : Callback) : bool :=
  match c with Extern _ true => true | _ => false end.

(** What calling [c] raises when it does. *)
Definition raised (c : Callback) : exn :=
  match c with Extern id _ => CallbackError id | _ => TypeError end.

(** The three commands of [OBSClient] that are modelled, as the caller
    sees them. *)
Definition commands (profile_name : string) : list (option Callback -> M bool) :=
  [OBSClient.set_profile profile_name; OBSClient.start_recording;
   OBSClient.stop_recording].

(** The RPC call of a worker is answered. *)
Definition answered (w : World) (out : RpcOutcome) : option RpcResponse :=
  if obs_ws (obs w) then
    match out with RpcReturns response => Some response | RpcRaises _ => None end
  else None.

(** The HTTPS requests among the events [d]. *)
Definition is_Http (e : Event) : bool :=
  match e with HttpGet _ _ | HttpPost _ _ _ => true | _ => false end.

Definition https (d : list Event) : list Event := filter is_Http d.

(** Induction on a JSON value, its elements and entries included. *)
Section JsonInduction.
Variable P : json -> Prop.
Hypothesis HNull : P JNull.
Hypothesis HBool : forall b, P (JBool b).
Hypothesis HInt : forall z, P (JInt z).
Hypothesis HFloat : forall f, P (JFloat f).
Hypothesis HStr : forall s, P (JStr s).
Hypothesis HList : forall l, Forall P l -> P (JList l).
Hypothesis HDict : forall d, Forall (fun entry => P (snd entry)) d -> P (JDict d).

End JsonInduction.




(** Between [w] and [w'] the tracker's phase became [p] or stayed. *)
Definition settles (p : GamePhase) (w w' : World) : Prop :=
  current_phase (tracker w') = p \/
  current_phase (tracker w') = current_phase (tracker w).

(** The raw phase strings [phase_mapping] knows. *)
Definition recognized : list string := map fst GameTracker.phase_mapping.

(** The credentials one process gives, without the logging: the encoded
    token and the port when its name is one of [process_names], its
    command line is not empty, both options are found and the port
    converts to an integer. *)
Definition credentials (process : Process) : option (string * Z) :=
  match proc_name process, proc_cmdline process with
  | Some name, Some (arg :: args) =>
      if mem String.eqb name LeagueClientAuth.process_names then
        let cmd_str := String.concat " " (arg :: args) in
        match PyLib.find_option "--remoting-auth-token=" cmd_str,
              PyLib.find_option "--app-port=" cmd_str with
        | Some token, Some port =>
            match PyLib.int port with
            | inr client_port =>
                Some (PyLib.b64encode (PyLib.encode ("riot:" ++ token)%string),
                      client_port)
            | inl _ => None
            end
        | _, _ => None
        end
      else None
  | _, _ => None
  end.

(** The first process, in the order of the scan, that gives credentials. *)
Fixpoint scan (processes : list Process) : option string * option Z :=
  match processes with
  | [] => (None, None)
  | process :: rest =>
      match credentials process with
      | Some (token, port) => (Some token, Some port)
      | None => scan rest
      end
  end.

(** The connection flag tells what [is_client_running] tells. *)
Definition consistent (w : World) : Prop :=
  auth_connected (auth w) = LeagueClientAuth.is_client_running (auth w).

(** A League client process as it shows in the process table. *)
Definition client_process : Process :=
  {| proc_name := Some "LeagueClientUx.exe";
     proc_cmdline :=
       Some ["C:/Riot Games/League of Legends/LeagueClientUx.exe";
             "--remoting-auth-token=Zm9vYmFy"; "--app-port=51234";
             "--locale=en_GB"] |}.

(* ================================================================== *)
(** * Properties *)
(* ================================================================== *)

Create HintDb monad_ops.
#[global] Hint Unfold bind ret raise try_except try_except_eval gets modify lift
  emit log spawn when_ if_some exec result : monad_ops.

(** Unfold the monad and evaluate. *)
Ltac run := autounfold with monad_ops; cbn.

(** ** Python values, on examples *)

Example remove_all_prefix :
  remove_all "OnJsonApiEvent_" "OnJsonApiEvent_lol-gameflow_v1_session"
  = "lol-gameflow_v1_session".
Proof. reflexivity. Qed.

Example remove_all_everywhere :
  remove_all "ab" "xabyabab" = "xy".
Proof. reflexivity. Qed.

Example eq_8_float : eq_8 (JFloat float_eight) = true.
Proof. reflexivity. Qed.

(** ** Equality tests decide equality *)

Lemma Callback_eqb_eq (c1 c2 : Callback) : Callback_eqb c1 c2 = true <-> c1 = c2.
Proof.
  destruct c1, c2; cbn; split; intro H; try discriminate; try reflexivity.
  - apply andb_true_iff in H. destruct H as [Hi Hr].
    apply Nat.eqb_eq in Hi. apply Bool.eqb_prop in Hr. now subst.
  - inversion H; subst. now rewrite Nat.eqb_refl, Bool.eqb_reflx.
Qed.

Lemma Handler_eqb_eq (h1 h2 : Handler) : Handler_eqb h1 h2 = true <-> h1 = h2.
Proof.
  destruct h1, h2; cbn; split; intro H; try discriminate; try reflexivity.
  - apply Callback_eqb_eq in H. now subst.
  - inversion H; subst. now apply Callback_eqb_eq.
Qed.

Section Membership.
Context {A : Type} (eqb : A -> A -> bool).
Hypothesis eqb_eq : forall x y, eqb x y = true <-> x = y.

Lemma mem_In (x : A) (l : list A) : mem eqb x l = true <-> In x l.
Proof.
  unfold mem. rewrite existsb_exists. split.
  - intros [y [Hy E]]. apply eqb_eq in E. now subst.
  - intro H. exists x. split; [assumption | now apply eqb_eq].
Qed.

Lemma remove_first_absent (x : A) (l : list A) :
  mem eqb x l = false -> remove_first eqb x l = None.
Proof.
  induction l as [|y l IH]; cbn; [reflexivity|].
  intro H. apply orb_false_iff in H. destruct H as [Hy Hl].
  rewrite Hy. unfold mem in IH. now rewrite (IH Hl).
Qed.

Lemma remove_first_present (x : A) (l : list A) :
  mem eqb x l = true -> exists l', remove_first eqb x l = Some l'.
Proof.
  induction l as [|y l IH]; cbn; [discriminate|].
  destruct (eqb x y); cbn; [now eexists|].
  intro H. destruct (IH H) as [l' E]. unfold mem in *. rewrite E. now eexists.
Qed.
End Membership.

(** A callback that was never registered for a path is one on which the
    membership test of [unsubscribe] and [_store_subscription] fails. *)
Lemma never_registered (cb : Handler) (registered : list Handler) :
  ~ In cb registered <-> mem Handler_eqb cb registered = false.
Proof.
  rewrite <- (mem_In Handler_eqb Handler_eqb_eq).
  destruct (mem Handler_eqb cb registered); split; intro H.
  - now contradiction H.
  - discriminate.
  - reflexivity.
  - discriminate.
Qed.

(** ** Frame rules

    [Respects R m]: running [m] takes every world to an [R]-related one,
    whether it returns or raises.  For a preorder [R] this is preserved by
    every way the methods are put together, so a frame property of a whole
    method follows from its leaves. *)

Section FrameRules.
Context (R : World -> World -> Prop) `{!PreOrder R}.
Context {A B : Type}.

Lemma respects_ret (a : A) : Respects R (ret a).
Proof. intro w. reflexivity. Qed.

Lemma respects_raise (e : exn) : Respects R (@raise A e).
Proof. intro w. reflexivity. Qed.

Lemma respects_gets (f : World -> A) : Respects R (gets f).
Proof. intro w. reflexivity. Qed.

Lemma respects_lift (r : exn + A) : Respects R (lift r).
Proof. destruct r; [apply respects_raise | apply respects_ret]. Qed.

Lemma respects_modify (f : World -> World) :
  (forall w, R w (f w)) -> Respects R (modify f).
Proof. intros H w. apply H. Qed.

Lemma respects_bind (m : M A) (k : A -> M B) :
  Respects R m -> (forall a, Respects R (k a)) -> Respects R (bind m k).
Proof.
  intros Hm Hk w. unfold bind. specialize (Hm w).
  destruct (m w) as [[a|e] w1]; cbn in *; [|assumption].
  etransitivity; [eassumption | apply Hk].
Qed.

Lemma respects_try_except (m : M A) (catches : exn -> bool) (h : exn -> M A) :
  Respects R m -> (forall e, Respects R (h e)) -> Respects R (try_except m catches h).
Proof.
  intros Hm Hh w. unfold try_except. specialize (Hm w).
  destruct (m w) as [[a|e] w1]; cbn in *; [assumption|].
  destruct (catches e); [|assumption].
  etransitivity; [eassumption | apply Hh].
Qed.

Lemma respects_try_except_eval (m : M A) (clause : exn + (exn -> bool))
    (h : exn -> M A) :
  Respects R m -> (forall e, Respects R (h e)) ->
  Respects R (try_except_eval m clause h).
Proof.
  intros Hm Hh w. unfold try_except_eval. specialize (Hm w).
  destruct (m w) as [[a|e] w1]; cbn in *; [assumption|].
  destruct clause as [raised|catches]; [assumption|].
  destruct (catches e); [|assumption].
  etransitivity; [eassumption | apply Hh].
Qed.

Lemma respects_when (b : bool) (m : M unit) :
  Respects R m -> Respects R (when_ b m).
Proof.
  intro H. destruct b; [assumption|]. intro w. reflexivity.
Qed.

Lemma respects_if_some (o : option A) (f : A -> M unit) :
  (forall a, Respects R (f a)) -> Respects R (if_some o f).
Proof.
  intro H. destruct o; [apply H|]. intro w. reflexivity.
Qed.

Lemma respects_for_each (l : list A) (body : A -> M unit) :
  (forall x, Respects R (body x)) -> Respects R (for_each l body).
Proof.
  intro H. induction l as [|x l IH]; cbn.
  - intro w. reflexivity.
  - unfold bind. intro w. specialize (H x w).
    destruct (body x w) as [[[]|e] w1]; cbn in *; [|assumption].
    etransitivity; [eassumption | apply IH].
Qed.
End FrameRules.

(** Decompose a method along its structure; [leaf] closes what is left:
    state updates, emitted events and calls already dealt with. *)
Ltac frame_step :=
  lazymatch goal with
  | |- Respects _ (ret _) => apply respects_ret; exact _
  | |- Respects _ (raise _) => apply respects_raise; exact _
  | |- Respects _ (gets _) => apply respects_gets; exact _
  | |- Respects _ (lift _) => apply respects_lift; exact _
  | |- Respects _ (bind _ _) => apply respects_bind; [exact _ | | intros ?]
  | |- Respects _ (try_except _ _ _) =>
      apply respects_try_except; [exact _ | | intros ?]
  | |- Respects _ (try_except_eval _ _ _) =>
      apply respects_try_except_eval; [exact _ | | intros ?]
  | |- Respects _ (when_ _ _) => apply respects_when; [exact _ |]
  | |- Respects _ (if_some _ _) => apply respects_if_some; [exact _ | intros ?]
  | |- Respects _ (for_each _ _) => apply respects_for_each; [exact _ | intros ?]
  | |- Respects _ (match ?x with _ => _ end) => destruct x
  end.

Ltac frame_with leaf := repeat first [ solve [leaf] | frame_step ].

(** ** Computations that leave the subscriptions alone

    [quiet_step w w']: between [w] and [w'] the [LCUApi] object is
    unchanged and the trace has only grown, by events none of which is a
    handler dispatch.  Every callable and both tracker handlers are quiet,
    which is what lets the dispatch loop be read off the trace. *)

Lemma invoked_app (d1 d2 : list Event) : invoked (d1 ++ d2) = invoked d1 ++ invoked d2.
Proof. apply filter_app. Qed.

#[global] Instance quiet_step_preorder : PreOrder quiet_step.
Proof.
  split.
  - intro w. split; [reflexivity|]. exists []. now rewrite app_nil_r.
  - intros w1 w2 w3 [A1 [d1 [T1 I1]]] [A2 [d2 [T2 I2]]]. split; [congruence|].
    exists (d1 ++ d2). split.
    + now rewrite T2, T1, app_assoc.
    + now rewrite invoked_app, I1, I2.
Qed.

Lemma quiet_emit (e : Event) : is_Invoked e = false -> Quiet (emit e).
Proof.
  intros He w. split; [reflexivity|]. exists [e]. split; [reflexivity|].
  unfold invoked. cbn. now rewrite He.
Qed.

Lemma quiet_log (level : LogLevel) (msg : string) : Quiet (log level msg).
Proof. now apply quiet_emit. Qed.

Lemma quiet_modify (f : World -> World) :
  (forall w, api (f w) = api w) -> (forall w, trace (f w) = trace w) ->
  Quiet (modify f).
Proof.
  intros Ha Ht w. split; [apply Ha|]. exists []. cbn.
  split; [now rewrite Ht, app_nil_r | reflexivity].
Qed.

Lemma quiet_spawn (t : Task) : Quiet (spawn t).
Proof. now apply quiet_modify. Qed.

Lemma quiet_modify_tracker (f : TrackerState -> TrackerState) :
  Quiet (modify (with_tracker f)).
Proof. now apply quiet_modify. Qed.

Lemma quiet_modify_obs (f : ObsState -> ObsState) : Quiet (modify (with_obs f)).
Proof. now apply quiet_modify. Qed.

Create HintDb quiet.
#[global] Hint Resolve quiet_log quiet_spawn quiet_modify_tracker quiet_modify_obs
  : quiet.
#[global] Hint Extern 1 (Quiet (emit _)) => (apply quiet_emit; reflexivity) : quiet.

Ltac quiet := frame_with ltac:(auto with quiet).

Lemma quiet_call (c : Callback) (args : list json) : Quiet (call c args).
Proof.
  unfold call, completion_closure, _handle_recording_state.
  destruct c; quiet.
Qed.
#[global] Hint Resolve quiet_call : quiet.

Lemma quiet_obs_start_recording cb : Quiet (OBSClient.start_recording cb).
Proof. unfold OBSClient.start_recording. quiet. Qed.

Lemma quiet_obs_stop_recording cb : Quiet (OBSClient.stop_recording cb).
Proof. unfold OBSClient.stop_recording. quiet. Qed.
#[global] Hint Resolve quiet_obs_start_recording quiet_obs_stop_recording : quiet.

Lemma quiet_start_recording : Quiet GameTracker._start_recording.
Proof. unfold GameTracker._start_recording. quiet. Qed.

Lemma quiet_stop_recording : Quiet GameTracker._stop_recording.
Proof. unfold GameTracker._stop_recording. quiet. Qed.
#[global] Hint Resolve quiet_start_recording quiet_stop_recording : quiet.

Lemma quiet_handle_phase_change p : Quiet (GameTracker._handle_phase_change p).
Proof. unfold GameTracker._handle_phase_change. quiet. Qed.
#[global] Hint Resolve quiet_handle_phase_change : quiet.

Lemma quiet_handle_gameflow_update data :
  Quiet (GameTracker._handle_gameflow_update data).
Proof. unfold GameTracker._handle_gameflow_update. quiet. Qed.

Lemma quiet_handle_champselect_update data :
  Quiet (GameTracker._handle_champselect_update data).
Proof.
  unfold GameTracker._handle_champselect_update, GameTracker._handle_dodge. quiet.
Qed.

Lemma quiet_run_handler (h : Handler) (event_data : json) :
  Quiet (run_handler h event_data).
Proof.
  destruct h; cbn;
    [ apply quiet_call
    | apply quiet_handle_gameflow_update
    | apply quiet_handle_champselect_update ].
Qed.

(** ** LCUApi: dispatch of an event frame *)

Section DispatchFacts.
Variable event_path : string.
Variable event_data : json.

Lemma delivers_nil : delivers event_data (ret tt) [].
Proof.
  intro w. exists w, []. repeat split. now rewrite app_nil_r.
Qed.

Lemma delivers_seq (m1 m2 : M unit) (hs1 hs2 : list Handler) :
  delivers event_data m1 hs1 -> delivers event_data m2 hs2 ->
  delivers event_data (m1 ;; m2) (hs1 ++ hs2).
Proof.
  intros H1 H2 w.
  destruct (H1 w) as [w1 [d1 [E1 [A1 [T1 I1]]]]].
  destruct (H2 w1) as [w2 [d2 [E2 [A2 [T2 I2]]]]].
  exists w2, (d1 ++ d2). unfold bind. rewrite E1, E2.
  repeat split.
  - congruence.
  - now rewrite T2, T1, app_assoc.
  - now rewrite invoked_app, I1, I2, map_app.
Qed.

Lemma guarded_call_delivers (callback : Handler) :
  delivers event_data (guarded_call event_path event_data callback) [callback].
Proof.
  intro w. unfold guarded_call. run.
  set (w2 := with_trace _ (with_trace _ w)).
  pose proof (quiet_run_handler callback event_data w2) as Q.
  destruct (run_handler callback event_data w2) as [[[]|e] w3];
    cbn in Q; destruct Q as [A3 [d3 [T3 I3]]].
  - exists w3, ([Log DEBUG ("Calling event handler for " ++ event_path)%string;
                 Invoked callback event_data] ++ d3).
    repeat split; [assumption | |].
    + rewrite T3. subst w2. cbn. now rewrite <- !app_assoc.
    + rewrite invoked_app, I3. reflexivity.
  - eexists _, ([Log DEBUG ("Calling event handler for " ++ event_path)%string;
                 Invoked callback event_data] ++ d3 ++ [_]).
    repeat split; cbn; [assumption | |].
    + rewrite T3. subst w2. cbn. now rewrite <- !app_assoc.
    + rewrite invoked_app, I3. reflexivity.
Qed.

Lemma callbacks_deliver (callbacks : list Handler) :
  delivers event_data
    (for_each callbacks (guarded_call event_path event_data)) callbacks.
Proof.
  induction callbacks as [|c callbacks IH]; cbn.
  - apply delivers_nil.
  - change (c :: callbacks) with ([c] ++ callbacks).
    apply delivers_seq; [apply guarded_call_delivers | exact IH].
Qed.

Lemma deliver_delivers (handlers : list (string * list Handler)) :
  delivers event_data (deliver event_path event_data handlers)
    (matching event_path handlers).
Proof.
  induction handlers as [|[registered_path callbacks] handlers IH]; cbn.
  - apply delivers_nil.
  - apply delivers_seq; [|exact IH].
    unfold when_. destruct (startswith event_path registered_path).
    + apply callbacks_deliver.
    + apply delivers_nil.
Qed.

(** No registered path is a prefix: the loop does nothing at all. *)
Lemma deliver_no_match (handlers : list (string * list Handler)) (w : World) :
  (forall registered_path callbacks,
      In (registered_path, callbacks) handlers ->
      startswith event_path registered_path = false) ->
  deliver event_path event_data handlers w = (Ok tt, w).
Proof.
  induction handlers as [|[registered_path callbacks] handlers IH]; cbn; intro H.
  - reflexivity.
  - unfold bind, when_.
    rewrite (H registered_path callbacks (or_introl eq_refl)). cbn.
    apply IH. intros p c Hin. apply (H p c). now right.
Qed.
End DispatchFacts.

(** On an event frame, one loop iteration is the delivery loop at the
    stripped path. *)
Lemma on_message_event_frame (name : string) (payload : list (string * json))
    (w : World) :
  LCUApi.on_message run_handler (event_frame name payload) w
  = deliver (remove_all "OnJsonApiEvent_" name) (JDict payload)
            (api_event_handlers (api w)) w.
Proof.
  set (event_path := remove_all "OnJsonApiEvent_" name).
  transitivity
    (try_except (deliver event_path (JDict payload) (api_event_handlers (api w)))
       (fun e => match e with JSONDecodeError => true | _ => false end)
       (fun _ => log WARNING "Received invalid JSON message") w);
    [reflexivity|].
  destruct (deliver_delivers event_path (JDict payload)
              (api_event_handlers (api w)) w) as [w' [d [E _]]].
  unfold try_except. now rewrite E.
Qed.

(** C6: dispatch is prefix-matched.  For an event frame [[8, name, {..}]],
    with [event_path] the name stripped of ["OnJsonApiEvent_"], one
    iteration of the receive loop returns normally and the handler
    dispatches it adds to the trace are exactly the handlers registered
    under the paths that [event_path] starts with, each called with the
    event payload, in registration order.  In particular every handler
    registered under a path [p] that is a prefix of [event_path] is invoked,
    and when no registered path is a prefix nothing happens at all: the
    world is unchanged. *)
Theorem dispatch_prefix_matched (w : World) (name : string)
    (payload : list (string * json)) :
  let event_path := remove_all "OnJsonApiEvent_" name in
  let event_data := JDict payload in
  let handlers := api_event_handlers (api w) in
  exists w' d,
    LCUApi.on_message run_handler (event_frame name payload) w = (Ok tt, w') /\
    trace w' = trace w ++ d /\
    invoked d = map (fun h => Invoked h event_data) (matching event_path handlers) /\
    (forall p callbacks h,
        In (p, callbacks) handlers -> startswith event_path p = true ->
        In h callbacks -> In (Invoked h event_data) d) /\
    ((forall p callbacks,
         In (p, callbacks) handlers -> startswith event_path p = false) ->
     w' = w).
Proof.
  intros event_path event_data handlers.
  destruct (deliver_delivers event_path event_data handlers w)
    as [w' [d [E [_ [T I]]]]].
  exists w', d. rewrite on_message_event_frame. fold event_path handlers.
  repeat split; try assumption.
  - intros p callbacks h Hp Hs Hh.
    assert (Hm : In h (matching event_path handlers)).
    { unfold matching. apply in_flat_map. exists (p, callbacks).
      split; [assumption|]. now rewrite Hs. }
    apply (in_map (fun h => Invoked h event_data)) in Hm.
    rewrite <- I in Hm. unfold invoked in Hm. now apply filter_In in Hm.
  - intro Hnone.
    rewrite (deliver_no_match event_path event_data handlers w Hnone) in E.
    now inversion E.
Qed.

(** The scenario of the specification, on the running application: an
    event at ["lol-gameflow_v1_session/extra"] reaches the handler
    registered at ["lol-gameflow_v1_session"]; an event at ["other_path"]
    reaches nobody. *)
Lemma dispatch_prefix_matched_witness :
  (exists w' d,
      LCUApi.on_message run_handler
        (event_frame "OnJsonApiEvent_lol-gameflow_v1_session/extra" []) world_live
      = (Ok tt, w') /\
      trace w' = trace world_live ++ d /\
      In (Invoked bound_handle_gameflow_update (JDict [])) d) /\
  (exists w' d,
      LCUApi.on_message run_handler
        (event_frame "OnJsonApiEvent_other_path" []) world_live
      = (Ok tt, w') /\
      trace w' = trace world_live ++ d /\
      w' = world_live).
Proof.
  split.
  - destruct (dispatch_prefix_matched world_live
                "OnJsonApiEvent_lol-gameflow_v1_session/extra" [])
      as [w' [d [E [T [_ [H _]]]]]].
    exists w', d. repeat split; try assumption.
    apply (H "lol-gameflow_v1_session" [bound_handle_gameflow_update]).
    + left. reflexivity.
    + reflexivity.
    + left. reflexivity.
  - destruct (dispatch_prefix_matched world_live "OnJsonApiEvent_other_path" [])
      as [w' [d [E [T [_ [_ H]]]]]].
    exists w', d. repeat split; try assumption.
    apply H. intros p callbacks [Hp|[Hp|[]]]; inversion Hp; reflexivity.
Defined.

(** ** LCUApi: unsubscribe *)

(** C10: [unsubscribe] is not total.  On a path that is a key of the
    handler table (in particular one with at least one registered handler),
    unsubscribing a callback that is not in the path's list raises
    [ValueError] and changes nothing; on a path that is not a key,
    [unsubscribe] returns silently and changes nothing, whatever the
    callback argument. *)
Theorem unsubscribe_not_total (w : World) (event_path : string) (cb : Handler) :
  (forall registered,
      lookup event_path (api_event_handlers (api w)) = Some registered ->
      mem Handler_eqb cb registered = false ->
      LCUApi.unsubscribe event_path (Some cb) w = (Raise ValueError, w)) /\
  (lookup event_path (api_event_handlers (api w)) = None ->
   forall callback, LCUApi.unsubscribe event_path callback w = (Ok tt, w)).
Proof.
  split.
  - intros registered Hl Hm. unfold LCUApi.unsubscribe. run.
    rewrite Hl. cbn. now rewrite (remove_first_absent _ _ _ Hm).
  - intros Hl callback. unfold LCUApi.unsubscribe. run. now rewrite Hl.
Qed.

(** On the running application: the tracker's champ-select handler was
    never registered under the gameflow path, and nothing is registered
    under ["lol-summoner_v1_current-summoner"]. *)
Lemma unsubscribe_not_total_witness :
  LCUApi.unsubscribe "lol-gameflow_v1_session"
    (Some bound_handle_champselect_update) world_live
  = (Raise ValueError, world_live) /\
  LCUApi.unsubscribe "lol-summoner_v1_current-summoner"
    (Some bound_handle_champselect_update) world_live
  = (Ok tt, world_live).
Proof.
  split.
  - apply (proj1 (unsubscribe_not_total world_live "lol-gameflow_v1_session"
                    bound_handle_champselect_update)
             [bound_handle_gameflow_update]); reflexivity.
  - apply (proj2 (unsubscribe_not_total world_live
                    "lol-summoner_v1_current-summoner"
                    bound_handle_champselect_update)); reflexivity.
Defined.

(** ** LCUApi: the receive loop *)

(** A frame that is not JSON is logged and skipped. *)
Lemma on_message_not_json (text : string) (w : World) :
  LCUApi.on_message run_handler (NotJson text) w
  = (Ok tt, with_trace (fun t => t ++ [Log WARNING "Received invalid JSON message"]) w).
Proof. reflexivity. Qed.

(** A JSON array, string or object whose length is not 3 is ignored. *)
Lemma on_message_other_length (data : json) (n : nat) (w : World) :
  len data = inr n -> n <> 3 ->
  LCUApi.on_message run_handler (Json data) w = (Ok tt, w).
Proof.
  intros Hl Hn. unfold LCUApi.on_message. run. rewrite Hl. cbn.
  apply Nat.eqb_neq in Hn. now rewrite Hn.
Qed.

(** A three-element array that does not start with 8 is ignored. *)
Lemma on_message_not_an_event (first name payload : json) (w : World) :
  eq_8 first = false ->
  LCUApi.on_message run_handler (Json (JList [first; name; payload])) w = (Ok tt, w).
Proof.
  intro H8. unfold LCUApi.on_message. run. now rewrite H8.
Qed.

(** On such a frame [len(data)] raises [TypeError], which the inner
    [except json.JSONDecodeError] does not catch. *)
Lemma on_message_unsized (data : json) (w : World) :
  unsized data = true ->
  LCUApi.on_message run_handler (Json data) w = (Raise TypeError, w).
Proof.
  unfold unsized, LCUApi.on_message. run.
  destruct data; cbn; intro H; try discriminate; reflexivity.
Qed.

(** So do the frames that pass the guard with a name that is not a
    string or a payload that is not an object, and the objects with three
    keys, on which [data[0]] is a [KeyError]. *)
Lemma on_message_ill_typed_event (name payload : json) (w : World) :
  replace name "OnJsonApiEvent_" = inl AttributeError
  \/ (exists s, name = JStr s) /\ get payload "uri" (JStr EmptyString) = inl AttributeError ->
  LCUApi.on_message run_handler (Json (JList [JInt 8; name; payload])) w
  = (Raise AttributeError, w).
Proof.
  unfold LCUApi.on_message. run. intros [Hn | [[s Hs] Hp]].
  - now rewrite Hn.
  - subst name. cbn. now rewrite Hp.
Qed.

Lemma on_message_three_keys (k1 k2 k3 : string) (v1 v2 v3 : json) (w : World) :
  LCUApi.on_message run_handler (Json (JDict [(k1, v1); (k2, v2); (k3, v3)])) w
  = (Raise KeyError, w).
Proof. reflexivity. Qed.

(** The exception reaches the outer handler of [_handle_messages]: the
    method logs and returns, and the frames that follow are never read. *)
Lemma handle_messages_unsized (data : json) (rest : list Recv) (w : World) :
  api_running (api w) && api_ws (api w) = true ->
  unsized data = true ->
  handle_messages (Frame (Json data) :: rest) w
  = (Ok Returned,
     with_trace (fun t => t ++ [Log ERROR "Error handling WebSocket messages"]) w).
Proof.
  intros Hrun Hd. unfold handle_messages, LCUApi._handle_messages.
  unfold try_except. cbn [LCUApi.receive_loop]. unfold bind at 1, gets at 1.
  rewrite Hrun. unfold bind at 1.
  now rewrite (on_message_unsized data w Hd).
Qed.

(** A non-JSON frame, by contrast, does not end the loop. *)
Lemma receive_loop_skips_not_json (text : string) (rest : list Recv) (w : World) :
  api_running (api w) && api_ws (api w) = true ->
  LCUApi.receive_loop run_handler (Frame (NotJson text) :: rest) w
  = LCUApi.receive_loop run_handler rest
      (with_trace (fun t => t ++ [Log WARNING "Received invalid JSON message"]) w).
Proof.
  intro Hrun. cbn [LCUApi.receive_loop]. unfold bind at 1, gets at 1.
  rewrite Hrun. unfold bind at 1. now rewrite on_message_not_json.
Qed.

(** C5, at the frame [42]: the text is valid JSON and not an event, yet
    the receive loop of the running application returns instead of going
    on: the only effect is the error log line, and the lobby event that
    follows is never dispatched (the phase stays [NONE]).  With a frame
    that is not JSON in its place the loop goes on and the lobby event
    reaches the tracker. *)
Theorem receive_loop_ends_on_json_number :
  handle_messages [Frame (Json (JInt 42)); Frame lobby_event] world_live
  = (Ok Returned,
     with_trace (fun t => t ++ [Log ERROR "Error handling WebSocket messages"])
       world_live)
  /\ result (handle_messages [Frame (NotJson "42!"); Frame lobby_event]) world_live
     = Ok AwaitingFrame
  /\ current_phase
       (tracker (exec (handle_messages [Frame (NotJson "42!"); Frame lobby_event])
                   world_live))
     = LOBBY.
Proof. repeat split; reflexivity. Qed.

(** ** GameTracker: start *)

#[global] Instance same_phase_preorder : PreOrder same_phase.
Proof.
  split.
  - intro w. reflexivity.
  - intros w1 w2 w3 H1 H2. unfold same_phase in *. congruence.
Qed.

Lemma same_phase_modify (f : World -> World) :
  (forall w, tracker (f w) = tracker w) -> Respects same_phase (modify f).
Proof. intros H w. unfold same_phase. cbn. now rewrite H. Qed.

Lemma same_phase_emit (e : Event) : Respects same_phase (emit e).
Proof. now apply same_phase_modify. Qed.

Lemma same_phase_log level msg : Respects same_phase (log level msg).
Proof. apply same_phase_emit. Qed.

Lemma same_phase_spawn (t : Task) : Respects same_phase (spawn t).
Proof. now apply same_phase_modify. Qed.

Lemma same_phase_modify_obs f : Respects same_phase (modify (with_obs f)).
Proof. now apply same_phase_modify. Qed.

Lemma same_phase_set_recording_started b :
  Respects same_phase (modify (with_tracker (set_recording_started b))).
Proof. intro w. reflexivity. Qed.

Create HintDb same_phase.
#[global] Hint Resolve same_phase_emit same_phase_log same_phase_spawn
  same_phase_modify_obs same_phase_set_recording_started : same_phase.

Ltac same_phase := frame_with ltac:(auto with same_phase).

Lemma same_phase_call (c : Callback) (args : list json) :
  Respects same_phase (call c args).
Proof.
  unfold call, completion_closure, _handle_recording_state.
  destruct c; same_phase.
Qed.
#[global] Hint Resolve same_phase_call : same_phase.

Lemma same_phase_get_request endpoint net :
  Respects same_phase (LCUApi.get_request endpoint net).
Proof.
  unfold LCUApi.get_request, LeagueClientAuth.get_connection_headers,
    LCUApi.raise_for_status, LCUApi.response_json.
  same_phase.
Qed.

Lemma same_phase_set_profile profile_name callback :
  Respects same_phase (OBSClient.set_profile profile_name callback).
Proof. unfold OBSClient.set_profile. same_phase. Qed.

Lemma same_phase_register_event_handler event_type callback :
  Respects same_phase (OBSClient.register_event_handler event_type callback).
Proof. unfold OBSClient.register_event_handler. same_phase. Qed.
#[global] Hint Resolve same_phase_get_request same_phase_set_profile
  same_phase_register_event_handler : same_phase.

(** [self._gameflow_update]: [GameTracker] has no attribute of that name. *)
Lemma no_method_gameflow_update :
  GameTracker.method "_gameflow_update" = raise AttributeError.
Proof. reflexivity. Qed.

(** Whatever the session read returns, [start] leaves [current_phase] as
    it found it: the call that was to seed it raises [AttributeError]
    inside the [try]. *)
Lemma start_keeps_current_phase (net : HttpOutcome) :
  Respects same_phase (GameTracker.start net).
Proof.
  unfold GameTracker.start, GameTracker._set_obs_profile,
    LCUApi.get_current_gameflow.
  rewrite no_method_gameflow_update.
  change (bind (@raise (json -> M unit) AttributeError) ?k)
    with (@raise unit AttributeError).
  same_phase.
Qed.

(** C3, when the client is in a lobby at startup: [start] makes its one
    GET request, which succeeds with phase ["Lobby"], and yet
    [current_phase] is [NONE] afterwards and the error branch has logged;
    the same payload handed to [_handle_gameflow_update], the method
    [start] means to call, gives [LOBBY].  No recording request is issued
    either way. *)
Theorem start_does_not_seed_phase :
  let w' := exec (GameTracker.start lobby_response) world_live in
  result (LCUApi.get_current_gameflow lobby_response) world_live = Ok lobby_session
  /\ current_phase (tracker w') = NONE
  /\ In (Log ERROR "Error checking initial game state") (trace w')
  /\ threads w' = [T_set_profile "League of Legends" (Some on_profile_set)]
  /\ current_phase
       (tracker (exec (GameTracker._handle_gameflow_update
                         (JDict [("data", lobby_session)])) world_live))
     = LOBBY.
Proof.
  cbn. repeat split; try reflexivity.
  repeat (try (left; reflexivity); right).
Qed.

(** ** OBSClient: the recording flag *)

#[global] Instance same_obs_preorder : PreOrder same_obs.
Proof.
  split.
  - intro w. reflexivity.
  - intros w1 w2 w3 H1 H2. unfold same_obs in *. congruence.
Qed.

Lemma same_obs_modify (f : World -> World) :
  (forall w, obs (f w) = obs w) -> Respects same_obs (modify f).
Proof. intros H w. apply H. Qed.

Lemma same_obs_emit (e : Event) : Respects same_obs (emit e).
Proof. now apply same_obs_modify. Qed.

Lemma same_obs_log level msg : Respects same_obs (log level msg).
Proof. apply same_obs_emit. Qed.

Lemma same_obs_spawn (t : Task) : Respects same_obs (spawn t).
Proof. now apply same_obs_modify. Qed.

Lemma same_obs_modify_tracker f : Respects same_obs (modify (with_tracker f)).
Proof. now apply same_obs_modify. Qed.

Create HintDb same_obs.
#[global] Hint Resolve same_obs_emit same_obs_log same_obs_spawn
  same_obs_modify_tracker : same_obs.

Ltac same_obs := frame_with ltac:(auto with same_obs).

(** No callable of the model touches the [OBSClient] object. *)
Lemma same_obs_call (c : Callback) (args : list json) :
  Respects same_obs (call c args).
Proof.
  unfold call, completion_closure, _handle_recording_state.
  destruct c; same_obs.
Qed.
#[global] Hint Resolve same_obs_call : same_obs.

(** The caller's side of the two commands. *)
Lemma same_obs_start_recording cb : Respects same_obs (OBSClient.start_recording cb).
Proof. unfold OBSClient.start_recording. same_obs. Qed.

Lemma same_obs_stop_recording cb : Respects same_obs (OBSClient.stop_recording cb).
Proof. unfold OBSClient.stop_recording. same_obs. Qed.

(** [try: m except Exception: h] where [h] returns: the whole returns. *)
Lemma try_except_returns (m : M unit) (h : exn -> M unit) (w : World) :
  (forall e w1, fst (h e w1) = Ok tt) ->
  fst (try_except m is_Exception h w) = Ok tt.
Proof.
  intro Hh. unfold try_except.
  destruct (m w) as [[[]|e] w1]; cbn; [reflexivity | apply Hh].
Qed.

(** A loop of guarded calls returns and keeps the [OBSClient] object. *)
Lemma guarded_calls_same_obs (callbacks : list Callback) (args : list json)
    (msg : string) (w : World) :
  exists w',
    for_each callbacks (fun callback =>
      try_except (call callback args) is_Exception (fun _ => log ERROR msg)) w
    = (Ok tt, w') /\ obs w' = obs w.
Proof.
  revert w. induction callbacks as [|c callbacks IH]; intro w; cbn.
  - now exists w.
  - unfold bind at 1.
    assert (Hs : Respects same_obs
                   (try_except (call c args) is_Exception (fun _ => log ERROR msg)))
      by same_obs.
    specialize (Hs w).
    pose proof (try_except_returns (call c args) (fun _ => log ERROR msg) w
                  (fun _ _ => eq_refl)) as Hr.
    destruct (try_except (call c args) is_Exception (fun _ => log ERROR msg) w)
      as [r w1]; cbn in Hs, Hr; subst r.
    destruct (IH w1) as [w' [E Ho]]. exists w'. split; [exact E|].
    unfold same_obs in Hs. congruence.
Qed.

(** Keep [call] folded while evaluating a worker, then consume the
    callback invocations one by one. *)
#[local] Arguments call : simpl never.

Ltac after_calls :=
  repeat match goal with
    | |- context [call ?c ?a ?w] =>
        let H := fresh "Hcall" in
        pose proof (same_obs_call c a w) as H; unfold same_obs in H;
        destruct (call c a w) as [[[]|?] ?]; cbn in H |- *
    end.

Ltac obs_known :=
  repeat match goal with
    | H : obs ?x = _ |- context [obs ?x] => rewrite H
    end;
  reflexivity.

Lemma start_recording_flag (cb : option Callback) (out : RpcOutcome) (w : World) :
  obs_recording (obs (exec (OBSClient._start_recording cb out) w))
  = if rpc_succeeds w out then true else obs_recording (obs w).
Proof.
  unfold OBSClient._start_recording, OBSClient.ws_call, rpc_succeeds. run.
  destruct (obs_ws (obs w)); cbn;
    [destruct out as [e|response]; cbn;
       [|destruct (truthy (OBSClient.response_success response)); cbn]|];
    destruct cb as [c|]; cbn; after_calls; obs_known.
Qed.

Lemma stop_recording_flag (cb : option Callback) (out : RpcOutcome) (w : World) :
  obs_recording (obs (exec (OBSClient._stop_recording cb out) w))
  = if rpc_succeeds w out then false else obs_recording (obs w).
Proof.
  unfold OBSClient._stop_recording, OBSClient.ws_call, rpc_succeeds. run.
  destruct (obs_ws (obs w)); cbn;
    [destruct out as [e|response]; cbn;
       [|destruct (truthy (OBSClient.response_success response)); cbn]|];
    destruct cb as [c|]; cbn; after_calls; obs_known.
Qed.

(** Handling a [RecordStateChanged] event sets the flag to the event's
    [outputActive]. *)
Lemma recording_state_changed_flag (b : bool) (w : World) :
  obs_recording
    (obs (exec (OBSClient._on_recording_state_changed
                  {| OBSClient.ev_datain := Some (Some b) |}) w))
  = b.
Proof.
  unfold OBSClient._on_recording_state_changed. run.
  destruct (lookup "RecordStateChanged" (obs_event_handlers (obs w)))
    as [callbacks|]; cbn; [|reflexivity].
  match goal with
  | |- context [for_each callbacks ?body ?w1] =>
      destruct (guarded_calls_same_obs callbacks [JBool b]
                  "Error in recording state callback" w1
                : exists w', for_each callbacks body w1 = (Ok tt, w')
                             /\ obs w' = obs w1)
        as [w' [E Ho]]
  end.
  rewrite E. cbn. now rewrite Ho.
Qed.

(** C1 as stated fails: with OBS connected and not recording, the worker
    of [start_recording] whose request succeeds leaves [_recording] true,
    although no [RecordStateChanged] event was handled. *)
Lemma start_recording_sets_flag_optimistically :
  obs_recording (obs world_live) = false /\
  obs_recording (obs (exec (OBSClient._start_recording None record_ok) world_live))
  = true.
Proof. split; reflexivity. Qed.

(** C1, amended: the caller's side of [start_recording] and
    [stop_recording] never touches the [OBSClient] object; the worker
    leaves [_recording] as it was when the request fails (no session, an
    exception, a response without a true [status]) and, when the request
    succeeds, sets it to [True] for [start_recording] and to [False] for
    [stop_recording]; a handled [RecordStateChanged] event sets it to the
    event's [outputActive]. *)
Theorem recording_flag_after_command (w : World) (cb : option Callback)
    (out : RpcOutcome) (b : bool) :
  obs (exec (OBSClient.start_recording cb) w) = obs w
  /\ obs (exec (OBSClient.stop_recording cb) w) = obs w
  /\ obs_recording (obs (exec (OBSClient._start_recording cb out) w))
     = (if rpc_succeeds w out then true else obs_recording (obs w))
  /\ obs_recording (obs (exec (OBSClient._stop_recording cb out) w))
     = (if rpc_succeeds w out then false else obs_recording (obs w))
  /\ obs_recording
       (obs (exec (OBSClient._on_recording_state_changed
                     {| OBSClient.ev_datain := Some (Some b) |}) w))
     = b.
Proof.
  repeat split.
  - apply same_obs_start_recording.
  - apply same_obs_stop_recording.
  - apply start_recording_flag.
  - apply stop_recording_flag.
  - apply recording_state_changed_flag.
Qed.

(** ** Connection-state listeners *)

(** Calling [c] is one invocation, whatever [c] does next. *)
Lemma call_is_one_call (c : Callback) (args : list json) (w : World) :
  exists d, trace (snd (call c args w)) = trace w ++ d /\ calls d = [Called c args].
Proof.
  unfold call, completion_closure, _handle_recording_state.
  destruct c as [id [|]| | | |]; run;
    try (destruct args as [|a [|a' args]]; cbn; try destruct (truthy a); cbn);
    rewrite <- ?app_assoc; eexists; (split; [reflexivity|reflexivity]).
Qed.

Lemma auth_registration_calls (cb : Callback) (w : World) :
  exists d,
    trace (exec (LeagueClientAuth.add_connection_callback cb) w) = trace w ++ d /\
    calls d = if mem Callback_eqb cb (auth_connection_callbacks (auth w)) then []
              else [Called cb [JBool (auth_connected (auth w))]].
Proof.
  unfold LeagueClientAuth.add_connection_callback. run.
  destruct (mem Callback_eqb cb (auth_connection_callbacks (auth w))); cbn.
  - exists []. now rewrite app_nil_r.
  - match goal with
    | |- context [call cb ?a ?w1] =>
        destruct (call_is_one_call cb a w1) as [d [T C]];
        destruct (call cb a w1) as [[[]|e] w2]
    end; cbn in *; exists d; now split.
Qed.

Lemma obs_registration_calls (handler : Callback) (w : World) :
  exists d,
    trace (exec (OBSClient.add_connection_handler handler) w) = trace w ++ d /\
    calls d = if mem Callback_eqb handler (obs_connection_handlers (obs w)) then []
              else if obs_connected (obs w) then [Called handler [JBool true]]
              else [].
Proof.
  unfold OBSClient.add_connection_handler. run.
  destruct (mem Callback_eqb handler (obs_connection_handlers (obs w))); cbn.
  - exists []. now rewrite app_nil_r.
  - destruct (obs_connected (obs w)); cbn.
    + match goal with
      | |- context [call handler ?a ?w1] =>
          destruct (call_is_one_call handler a w1) as [d [T C]];
          destruct (call handler a w1) as [[[]|e] w2]
      end; cbn in *.
      * exists d. now split.
      * exists (d ++ [Log ERROR "Error in connection handler"]). split.
        -- now rewrite T, app_assoc.
        -- unfold calls in *. rewrite filter_app, C. reflexivity.
    + exists []. now rewrite app_nil_r.
Qed.

(** C4 as stated fails: a handler registered on [OBSClient] while OBS is
    disconnected is stored and not invoked; the trace does not move. *)
Lemma late_handler_silent_when_disconnected :
  obs_connected (obs world_built) = false /\
  OBSClient.add_connection_handler (Extern 1 false) world_built
  = (Ok tt, with_obs (set_obs_connection_handlers [Extern 1 false]) world_built) /\
  trace (exec (OBSClient.add_connection_handler (Extern 1 false)) world_built)
  = trace world_built.
Proof. repeat split; reflexivity. Qed.

(** C4, amended: registering a listener that is not yet registered invokes
    it exactly once on [LeagueClientAuth.add_connection_callback], with the
    connection state of the moment, be it connected or disconnected; on
    [OBSClient.add_connection_handler] it invokes it exactly once, with
    [True], when OBS is connected, and not at all when OBS is
    disconnected.  Registering a listener that is already registered
    invokes nothing.  ([calls d] are the invocations among the events [d]
    added by the registration.) *)
Theorem registration_replays_state (w : World) (cb : Callback) :
  exists d_auth d_obs,
    trace (exec (LeagueClientAuth.add_connection_callback cb) w) = trace w ++ d_auth /\
    calls d_auth
    = (if mem Callback_eqb cb (auth_connection_callbacks (auth w)) then []
       else [Called cb [JBool (auth_connected (auth w))]]) /\
    trace (exec (OBSClient.add_connection_handler cb) w) = trace w ++ d_obs /\
    calls d_obs
    = (if mem Callback_eqb cb (obs_connection_handlers (obs w)) then []
       else if obs_connected (obs w) then [Called cb [JBool true]]
       else []).
Proof.
  destruct (auth_registration_calls cb w) as [d_auth [Ta Ca]].
  destruct (obs_registration_calls cb w) as [d_obs [To Co]].
  exists d_auth, d_obs. repeat split; assumption.
Qed.

(** ** LCUApi: HTTPS requests *)








(** ** OBSClient: set_profile *)

(** C9: with OBS connected and [profile_name] not in the cached profile
    list, [set_profile] only starts its worker and returns [True]; the
    worker, whatever the RPC session would answer, makes no RPC call,
    calls the caller's callback with [False] and with nothing else, and
    leaves the [OBSClient] object as it was. *)
Theorem set_profile_unknown_fails_locally (w : World) (profile_name : string)
    (callback : Callback) (out : RpcOutcome) :
  obs_connected (obs w) = true ->
  mem String.eqb profile_name (obs_profiles (obs w)) = false ->
  let started := T_set_profile profile_name (Some callback) in
  let w1 := with_threads (fun l => l ++ [started]) w in
  OBSClient.set_profile profile_name (Some callback) w = (Ok true, w1) /\
  exists d,
    trace (exec (run_task started out) w1) = trace w ++ d /\
    rpcs d = [] /\
    In (Called callback [JBool false]) d /\
    (forall args, In (Called callback args) d -> args = [JBool false]) /\
    obs (exec (run_task started out) w1) = obs w.
Proof.
  intros Hc Hp started w1. split.
  - unfold OBSClient.set_profile. run. now rewrite Hc.
  - subst started w1. unfold run_task, OBSClient._set_profile, call,
      completion_closure, _handle_recording_state. run. rewrite Hp. cbn.
    destruct callback as [id [|]| | | |]; cbn; rewrite <- ?app_assoc;
      eexists; (split; [reflexivity|]); cbn;
      (split; [reflexivity|]);
      (split; [tauto|]);
      (split; [|reflexivity]);
      intros args Hin;
      repeat (destruct Hin as [Hin|Hin]; [now inversion Hin|]);
      destruct Hin.
Qed.

(** The scenario of the specification: [set_profile("Unknown")] with the
    cached list [["League of Legends"]], the session ready to answer. *)
Lemma set_profile_unknown_fails_locally_witness :
  let started := T_set_profile "Unknown" (Some (Extern 7 false)) in
  let w1 := with_threads (fun l => l ++ [started]) world_live in
  OBSClient.set_profile "Unknown" (Some (Extern 7 false)) world_live = (Ok true, w1) /\
  exists d,
    trace (exec (run_task started record_ok) w1) = trace world_live ++ d /\
    rpcs d = [] /\
    In (Called (Extern 7 false) [JBool false]) d /\
    (forall args, In (Called (Extern 7 false) args) d -> args = [JBool false]) /\
    obs (exec (run_task started record_ok) w1) = obs world_live.
Proof.
  apply (set_profile_unknown_fails_locally world_live "Unknown" (Extern 7 false)
           record_ok); reflexivity.
Defined.

(** ** GameTracker: dodge *)

(** C2 as stated fails: a dodge while [recording_started] is false resets
    the phase and issues no stop-recording request. *)
Lemma dodge_before_recording_confirmed :
  let w' := exec (GameTracker._handle_champselect_update (JDict [])) world_champ_select in
  current_phase (tracker world_champ_select) = CHAMPION_SELECT /\
  recording_started (tracker world_champ_select) = false /\
  current_phase (tracker w') = NONE /\
  stop_requests (threads w') = stop_requests (threads world_champ_select) /\
  stop_requests (threads w') <> S (stop_requests (threads world_champ_select)).
Proof. cbn. repeat split; try reflexivity. discriminate. Qed.

(** C2, amended: a champ-select event without data, handled while
    [current_phase] is [CHAMPION_SELECT], returns with [current_phase] set
    to [NONE]; it issues exactly one stop-recording request when
    [recording_started] is true and OBS is connected, and none otherwise.
    The recording flag and the [OBSClient] object are left as they were. *)
Theorem dodge_resets_phase (w : World) (data : list (string * json)) :
  current_phase (tracker w) = CHAMPION_SELECT ->
  session_ended data = true ->
  let w' := exec (GameTracker._handle_champselect_update (JDict data)) w in
  result (GameTracker._handle_champselect_update (JDict data)) w = Ok tt /\
  current_phase (tracker w') = NONE /\
  threads w'
  = threads w ++ (if recording_started (tracker w) && obs_connected (obs w)
                  then [T_stop_recording (Some on_record_stop)] else []) /\
  stop_requests (threads w')
  = stop_requests (threads w)
    + (if recording_started (tracker w) && obs_connected (obs w) then 1 else 0) /\
  recording_started (tracker w') = recording_started (tracker w) /\
  obs w' = obs w.
Proof.
  intros Hphase Hdata.
  unfold GameTracker._handle_champselect_update, GameTracker._handle_dodge,
    GameTracker._stop_recording, OBSClient.stop_recording, OBSClient.is_connected.
  unfold session_ended in Hdata. run. rewrite Hdata. cbn. rewrite Hphase. cbn.
  unfold stop_requests.
  destruct (recording_started (tracker w)) eqn:Hr; cbn;
    [destruct (obs_connected (obs w)) eqn:Hc; cbn; rewrite ?Hc; cbn|];
    rewrite ?app_nil_r, ?filter_app, ?length_app; cbn;
    repeat split; try reflexivity; try assumption; lia.
Qed.

(** A dodge after OBS has confirmed the recording: one stop request. *)
Lemma dodge_resets_phase_witness :
  let w := with_tracker (set_recording_started true) world_champ_select in
  let w' := exec (GameTracker._handle_champselect_update (JDict [])) w in
  current_phase (tracker w') = NONE /\
  stop_requests (threads w') = stop_requests (threads w) + 1.
Proof.
  intros w w'.
  destruct (dodge_resets_phase w []) as [_ [Hp [_ [Hs _]]]];
    [reflexivity | reflexivity |].
  split; [exact Hp | exact Hs].
Defined.

(** ** GameTracker: gameflow events *)

Lemma returns_ret : Returns (ret tt).
Proof. intro w. reflexivity. Qed.

Lemma returns_log level msg : Returns (log level msg).
Proof. intro w. reflexivity. Qed.

Lemma returns_modify f : Returns (modify f).
Proof. intro w. reflexivity. Qed.

Lemma returns_seq (m k : M unit) : Returns m -> Returns k -> Returns (m ;; k).
Proof.
  intros Hm Hk w. unfold bind. specialize (Hm w).
  destruct (m w) as [r w1]; cbn in Hm; subst r. apply Hk.
Qed.

Lemma returns_gets {A} (f : World -> A) (k : A -> M unit) :
  (forall a, Returns (k a)) -> Returns (a <- gets f ;; k a).
Proof. intros Hk w. apply Hk. Qed.

Lemma returns_when (b : bool) (m : M unit) : Returns m -> Returns (when_ b m).
Proof. intro H. destruct b; [exact H | apply returns_ret]. Qed.

Lemma returns_if_some {A} (o : option A) (f : A -> M unit) :
  (forall a, Returns (f a)) -> Returns (if_some o f).
Proof. intro H. destruct o; [apply H | apply returns_ret]. Qed.

Lemma returns_guarded (m : M unit) (h : exn -> M unit) :
  (forall e, Returns (h e)) -> Returns (try_except m is_Exception h).
Proof. intros Hh w. apply try_except_returns. intros e w1. apply Hh. Qed.

(** A [try] around a computation that returns is that computation. *)
Lemma try_except_of_returns (m : M unit) catches (h : exn -> M unit) :
  Returns m -> forall w, try_except m catches h w = m w.
Proof.
  intros Hm w. unfold try_except. specialize (Hm w).
  destruct (m w) as [r w1]; cbn in Hm; now subst r.
Qed.

Lemma bind_ret {A B} (a : A) (k : A -> M B) : bind (ret a) k = k a.
Proof. reflexivity. Qed.

Lemma bind_raise {A B} (e : exn) (k : A -> M B) : bind (raise e) k = raise e.
Proof. reflexivity. Qed.

Lemma handle_phase_change_returns p : Returns (GameTracker._handle_phase_change p).
Proof.
  unfold GameTracker._handle_phase_change. apply returns_guarded.
  intro e. apply returns_log.
Qed.

Lemma on_phase_change_returns new_phase queue_info p :
  Returns (on_phase_change new_phase queue_info p).
Proof.
  unfold on_phase_change, notify_game_update.
  repeat first
    [ apply returns_seq | apply returns_log | apply returns_modify
    | apply handle_phase_change_returns
    | apply returns_gets; intros ?
    | apply returns_if_some; intros ?
    | apply returns_guarded; intros ? ].
Qed.

Lemma handle_gameflow_update_cases (data : json) (w : World) :
  GameTracker._handle_gameflow_update data w
  = match gameflow_fields data with
    | inl _ =>
        (Ok tt, with_trace (fun t => t ++ [Log ERROR "Error handling gameflow update"]) w)
    | inr (new_phase, queue_info, new_game_phase) =>
        if GamePhase_eqb new_game_phase (current_phase (tracker w)) then (Ok tt, w)
        else on_phase_change new_phase queue_info new_game_phase w
    end.
Proof.
  unfold GameTracker._handle_gameflow_update, gameflow_fields.
  repeat match goal with
    | |- context [lift (get ?v ?k ?d)] =>
        destruct (get v k d) as [?e|?x]; cbn [lift];
        [reflexivity | rewrite bind_ret; cbv beta]
    end.
  destruct (GameTracker.map_phase x0) as [e|p]; cbn [lift];
    [reflexivity | rewrite bind_ret; cbv beta].
  match goal with
  | |- try_except (bind (gets tracker) ?K) ?c ?h w = _ =>
      change (try_except (bind (gets tracker) K) c h w)
        with (try_except (K (tracker w)) c h w)
  end.
  cbv beta.
  destruct (GamePhase_eqb p (current_phase (tracker w))); cbn [negb when_].
  - reflexivity.
  - rewrite try_except_of_returns.
    + reflexivity.
    + repeat first
        [ apply returns_seq | apply returns_log | apply returns_modify
        | apply handle_phase_change_returns
        | apply returns_if_some; intros ?
        | apply returns_guarded; intros ? ].
Qed.

Lemma GamePhase_eqb_eq (p q : GamePhase) : GamePhase_eqb p q = true <-> p = q.
Proof. destruct p, q; cbn; split; intro H; try discriminate; reflexivity. Qed.

(** After a computation that returns, the next one runs in its world. *)
Lemma seq_of_returns {A} (m : M unit) (k : M A) (w : World) :
  Returns m -> (m ;; k) w = k (snd (m w)).
Proof.
  intro Hm. unfold bind. specialize (Hm w).
  destruct (m w) as [r w1]; cbn in *; now subst r.
Qed.

#[global] Instance adds_no_preorder (P : Event -> bool) : PreOrder (adds_no P).
Proof.
  split.
  - intro w. exists []. now rewrite app_nil_r.
  - intros w1 w2 w3 [d1 [T1 F1]] [d2 [T2 F2]]. exists (d1 ++ d2). split.
    + now rewrite T2, T1, app_assoc.
    + now rewrite filter_app, F1, F2.
Qed.

Lemma adds_no_modify (P : Event -> bool) (f : World -> World) :
  (forall w, trace (f w) = trace w) -> Respects (adds_no P) (modify f).
Proof. intros H w. exists []. cbn. now rewrite H, app_nil_r. Qed.

Lemma adds_no_emit (P : Event -> bool) (e : Event) :
  P e = false -> Respects (adds_no P) (emit e).
Proof. intros H w. exists [e]. split; [reflexivity|]. cbn. now rewrite H. Qed.

Create HintDb no_update.
#[global] Hint Extern 1 (NoUpdate (emit _)) =>
  (apply adds_no_emit; reflexivity) : no_update.
#[global] Hint Extern 1 (NoUpdate (log _ _)) =>
  (apply adds_no_emit; reflexivity) : no_update.
#[global] Hint Extern 1 (NoUpdate (spawn _)) =>
  (apply adds_no_modify; reflexivity) : no_update.
#[global] Hint Extern 1 (NoUpdate (modify (with_tracker _))) =>
  (apply adds_no_modify; reflexivity) : no_update.

Ltac no_update := frame_with ltac:(auto with no_update).

(** A call that is not itself a game update adds none. *)
Lemma no_update_call (c : Callback) (args : list json) :
  is_game_update (Called c args) = false -> NoUpdate (call c args).
Proof.
  intro H. unfold call, completion_closure, _handle_recording_state.
  apply respects_bind; [exact _ | now apply adds_no_emit | intros _].
  destruct c; no_update.
Qed.
#[global] Hint Extern 1 (NoUpdate (call _ _)) =>
  (apply no_update_call; reflexivity) : no_update.

Lemma no_update_handle_phase_change p : NoUpdate (GameTracker._handle_phase_change p).
Proof.
  unfold GameTracker._handle_phase_change, GameTracker._start_recording,
    GameTracker._stop_recording, OBSClient.start_recording,
    OBSClient.stop_recording.
  no_update.
Qed.

(** The game updates among events are found among the calls. *)
Lemma game_updates_of_calls (d : list Event) :
  game_updates d = game_updates (calls d).
Proof.
  unfold game_updates, calls. induction d as [|e d IH]; cbn; [reflexivity|].
  destruct e; cbn; rewrite <- ?IH; reflexivity.
Qed.

(** The notification is one game update. *)
Lemma notify_game_update_once (new_phase queue_info : json) (cb : Callback)
    (w : World) :
  game_update_callback (tracker w) = Some cb ->
  exists d,
    trace (snd (notify_game_update new_phase queue_info w)) = trace w ++ d /\
    game_updates d
    = [Called cb [JStr "gameflow";
                  JDict [("phase", new_phase); ("queue", queue_info)]]].
Proof.
  intro Hcb. unfold notify_game_update. run. rewrite Hcb. cbn.
  match goal with
  | |- context [call cb ?a w] =>
      destruct (call_is_one_call cb a w) as [d [T C]];
      destruct (call cb a w) as [[[]|e] w1]
  end; cbn in *.
  - exists d. split; [exact T|]. now rewrite game_updates_of_calls, C.
  - exists (d ++ [Log ERROR "Error in game update callback"]). split.
    + now rewrite T, app_assoc.
    + rewrite game_updates_of_calls. unfold calls. rewrite filter_app.
      fold (calls d). rewrite C. reflexivity.
Qed.

(** A changed phase, step by step. *)
Lemma on_phase_change_effects (new_phase queue_info : json) (p : GamePhase)
    (w : World) :
  let w' := snd (on_phase_change new_phase queue_info p w) in
  current_phase (tracker w') = p /\
  forall cb, game_update_callback (tracker w) = Some cb ->
    exists d,
      trace w' = trace w ++ d /\
      game_updates d
      = [Called cb [JStr "gameflow";
                    JDict [("phase", new_phase); ("queue", queue_info)]]].
Proof.
  unfold on_phase_change.
  rewrite seq_of_returns by apply returns_log.
  set (w1 := snd (log INFO "Game phase changed" w)).
  rewrite seq_of_returns.
  2:{ unfold notify_game_update. apply returns_gets. intros t.
      apply returns_if_some. intros c. apply returns_guarded. intros e.
      apply returns_log. }
  set (w2 := snd (notify_game_update new_phase queue_info w1)).
  rewrite seq_of_returns by apply handle_phase_change_returns.
  set (w3 := snd (GameTracker._handle_phase_change p w2)).
  cbn. split; [reflexivity|].
  intros cb Hcb.
  destruct (notify_game_update_once new_phase queue_info cb w1 Hcb)
    as [d2 [T2 U2]].
  destruct (no_update_handle_phase_change p w2) as [d3 [T3 U3]].
  fold w2 in T2. fold w3 in T3.
  exists ([Log INFO "Game phase changed"] ++ d2 ++ d3). split.
  - rewrite T3, T2. subst w1. cbn. now rewrite <- !app_assoc.
  - unfold game_updates in *. rewrite !filter_app, U2, U3. reflexivity.
Qed.



(** ** A full match, end to end

    The scenario of the specification, run on the whole model: the phases
    [HomeScreen], [Lobby], [ChampSelect], [InProgress], [WaitingForStats]
    arrive in order.  The consumer is notified four times ([HomeScreen]
    maps to the initial phase and changes nothing); the RPC session sees
    the profile switch of [start], then [StartRecord] once and
    [StopRecord] once; at the end the phase is [POST_GAME], nothing is
    recording and no worker is left. *)
Example full_match_scenario :
  let w := exec (GameTracker.start TransportError) world_watched in
  let w' := exec (for_each full_match happen) w in
  let notified (phase : string) :=
    Called (Extern 3 false)
      [JStr "gameflow";
       JDict [("phase", JStr phase); ("queue", JStr "Unknown Queue")]] in
  game_updates (trace w')
  = [notified "Lobby"; notified "ChampSelect"; notified "InProgress";
     notified "WaitingForStats"] /\
  rpcs (trace w')
  = [Rpc (SetCurrentProfile "League of Legends"); Rpc StartRecord; Rpc StopRecord] /\
  current_phase (tracker w') = POST_GAME /\
  recording_started (tracker w') = false /\
  obs_recording (obs w') = false /\
  threads w' = [].
Proof. vm_compute. repeat split; reflexivity. Qed.

(* ================================================================== *)
(** * Further properties *)
(* ================================================================== *)

(** ** Dictionaries *)

Lemma lookup_absent {V : Type} (k : string) (d : list (string * V)) :
  ~ In k (map fst d) -> lookup k d = None.
Proof.
  induction d as [|[k' v] d IH]; cbn; intro H; [reflexivity|].
  destruct (String.eqb_spec k' k) as [E|E].
  - exfalso. apply H. now left.
  - apply IH. intro Hin. apply H. now right.
Qed.

Lemma lookup_In {V : Type} (k : string) (v : V) (d : list (string * V)) :
  lookup k d = Some v -> In (k, v) d.
Proof.
  induction d as [|[k' v'] d IH]; cbn; intro H; [discriminate|].
  destruct (String.eqb_spec k' k) as [E|E].
  - inversion H; subst. now left.
  - right. now apply IH.
Qed.

Lemma lookup_store_same {V : Type} (k : string) (v : V) (d : list (string * V)) :
  lookup k (store k v d) = Some v.
Proof.
  induction d as [|[k' v'] d IH]; cbn.
  - now rewrite String.eqb_refl.
  - destruct (k' =? k)%string eqn:E; cbn; rewrite E; [reflexivity | exact IH].
Qed.

Lemma lookup_store_other {V : Type} (k k' : string) (v : V) (d : list (string * V)) :
  k' <> k -> lookup k' (store k v d) = lookup k' d.
Proof.
  intro Hne. induction d as [|[k0 v0] d IH]; cbn.
  - destruct (String.eqb_spec k k'); [congruence | reflexivity].
  - destruct (String.eqb_spec k0 k) as [E|E]; cbn.
    + subst k0. destruct (String.eqb_spec k k'); [congruence | reflexivity].
    + destruct (k0 =? k')%string; [reflexivity | exact IH].
Qed.

Lemma store_keys {V : Type} (k : string) (v : V) (d : list (string * V)) :
  map fst (store k v d)
  = if has_key k d then map fst d else map fst d ++ [k].
Proof.
  unfold has_key. induction d as [|[k' v'] d IH]; cbn; [reflexivity|].
  destruct (k' =? k)%string eqn:E; cbn; [reflexivity|].
  rewrite IH. now destruct (lookup k d).
Qed.

Lemma has_key_In {V : Type} (k : string) (d : list (string * V)) :
  has_key k d = true <-> In k (map fst d).
Proof.
  unfold has_key. split.
  - destruct (lookup k d) as [v|] eqn:E; [|discriminate]. intros _.
    apply lookup_In in E. now apply (in_map fst) in E.
  - intro H. destruct (lookup k d) eqn:E; [reflexivity|].
    exfalso. revert H E. induction d as [|[k' v'] d IH]; cbn; [tauto|].
    destruct (String.eqb_spec k' k); [discriminate|].
    intros [H|H] E; [contradiction | now apply IH].
Qed.

(** ** GameTracker: the phase table and the policy *)

(** X1: a raw phase string that is not one of the keys of [phase_mapping]
    maps to [NONE] (so does ["HomeScreen"], the key being ["Home Screen"]),
    and a phase other than [NONE] only ever comes from a string the table
    lists with that phase. *)
Theorem unrecognized_phase_is_none (s : string) :
  (~ In s recognized -> GameTracker.map_phase (JStr s) = inr NONE) /\
  (forall p, GameTracker.map_phase (JStr s) = inr p -> p <> NONE ->
             In (s, p) GameTracker.phase_mapping).
Proof.
  split.
  - intro H. unfold GameTracker.map_phase. now rewrite (lookup_absent _ _ H).
  - intros p Hm Hp. unfold GameTracker.map_phase in Hm.
    destruct (lookup s GameTracker.phase_mapping) as [q|] eqn:E.
    + inversion Hm; subst. now apply lookup_In.
    + inversion Hm; subst. contradiction.
Qed.

Lemma unrecognized_phase_is_none_witness :
  GameTracker.map_phase (JStr "HomeScreen") = inr NONE.
Proof.
  apply (proj1 (unrecognized_phase_is_none "HomeScreen")).
  cbn. intros H.
  repeat (destruct H as [H|H]; [discriminate|]). exact H.
Defined.

(** X2: the phase-change policy never raises, never logs and touches
    nothing but the list of started workers, to which it adds at most one
    request: a start on entering [CHAMPION_SELECT] or [IN_GAME] when
    nothing is recording and OBS is connected, a stop on entering [NONE],
    [LOBBY] or [POST_GAME] when a recording is on and OBS is connected,
    nothing on [MATCHMAKING] and [GAME_START]. *)
Theorem phase_change_policy (new_phase : GamePhase) (w : World) :
  let w' := exec (GameTracker._handle_phase_change new_phase) w in
  result (GameTracker._handle_phase_change new_phase) w = Ok tt /\
  threads w'
  = threads w ++ policy_requests new_phase (recording_started (tracker w))
                                 (obs_connected (obs w)) /\
  trace w' = trace w /\ tracker w' = tracker w /\ obs w' = obs w /\
  api w' = api w /\ auth w' = auth w.
Proof.
  destruct w as [a ap o t th tr]. destruct t as [phase recording cb].
  destruct o as [ws connected profiles rec handlers callbacks chandlers].
  unfold GameTracker._handle_phase_change, GameTracker._start_recording,
    GameTracker._stop_recording, OBSClient.start_recording,
    OBSClient.stop_recording, OBSClient.is_connected.
  destruct new_phase, recording, connected; cbn;
    rewrite ?app_nil_r; repeat split; reflexivity.
Qed.

(** ** GameTracker: events that carry no session *)

(** X3: a gameflow event without a ['data'] entry is read as phase
    ['None'] with the queue unknown: in phase [NONE] nothing happens, in
    any other phase it is a change to [NONE]; either way the handler
    returns with [current_phase = NONE].  An event whose ['data'] is
    [null], or anything else that is not an object, is rejected: one error
    line is logged and nothing else changes. *)
Theorem gameflow_update_missing_or_null_data (w : World) (d : list (string * json)) :
  (lookup "data" d = None ->
   GameTracker._handle_gameflow_update (JDict d) w
   = (if GamePhase_eqb NONE (current_phase (tracker w)) then (Ok tt, w)
      else on_phase_change (JStr "None") (JStr "Unknown Queue") NONE w) /\
   result (GameTracker._handle_gameflow_update (JDict d)) w = Ok tt /\
   current_phase (tracker (exec (GameTracker._handle_gameflow_update (JDict d)) w))
   = NONE) /\
  (forall v, lookup "data" d = Some v -> (forall fields, v <> JDict fields) ->
   GameTracker._handle_gameflow_update (JDict d) w
   = (Ok tt,
      with_trace (fun t => t ++ [Log ERROR "Error handling gameflow update"]) w)).
Proof.
  split.
  - intro Hd.
    assert (Hf : gameflow_fields (JDict d)
                 = inr (JStr "None", JStr "Unknown Queue", NONE)).
    { unfold gameflow_fields. cbn. rewrite Hd. reflexivity. }
    unfold exec, result. rewrite handle_gameflow_update_cases, Hf.
    destruct (GamePhase_eqb NONE (current_phase (tracker w))) eqn:E.
    + apply GamePhase_eqb_eq in E. now repeat split.
    + repeat split.
      * apply on_phase_change_returns.
      * apply on_phase_change_effects.
  - intros v Hd Hv.
    rewrite handle_gameflow_update_cases.
    assert (Hf : exists e, gameflow_fields (JDict d) = inl e).
    { unfold gameflow_fields. cbn. rewrite Hd.
      destruct v; try (eexists; reflexivity). now contradiction (Hv d0). }
    destruct Hf as [e Hf]. now rewrite Hf.
Qed.

Lemma gameflow_update_missing_or_null_data_witness :
  current_phase
    (tracker (exec (GameTracker._handle_gameflow_update (JDict [])) world_champ_select))
  = NONE /\
  GameTracker._handle_gameflow_update (JDict [("data", JNull)]) world_champ_select
  = (Ok tt,
     with_trace (fun t => t ++ [Log ERROR "Error handling gameflow update"])
       world_champ_select).
Proof.
  split.
  - apply (proj1 (gameflow_update_missing_or_null_data world_champ_select [])).
    reflexivity.
  - apply (proj2 (gameflow_update_missing_or_null_data world_champ_select
                    [("data", JNull)]) JNull).
    + reflexivity.
    + discriminate.
Defined.

(** X4: a champ-select event is acted upon only as a dodge.  When the
    tracker is not in [CHAMPION_SELECT], or when the event carries a
    session, handling it changes nothing at all, trace included. *)
Theorem champselect_update_ignored (w : World) (d : list (string * json)) :
  current_phase (tracker w) <> CHAMPION_SELECT \/ session_ended d = false ->
  GameTracker._handle_champselect_update (JDict d) w = (Ok tt, w).
Proof.
  intro H. unfold GameTracker._handle_champselect_update. run.
  unfold session_ended in H.
  destruct (truthy match lookup "data" d with
                   | Some session => session | None => JNull end) eqn:Et;
    cbn; [reflexivity|].
  destruct H as [H|H]; [|discriminate].
  destruct (GamePhase_eqb (current_phase (tracker w)) CHAMPION_SELECT) eqn:E;
    [|reflexivity].
  apply GamePhase_eqb_eq in E. contradiction.
Qed.

Lemma champselect_update_ignored_witness :
  GameTracker._handle_champselect_update (JDict []) world_live = (Ok tt, world_live) /\
  GameTracker._handle_champselect_update
    (JDict [("data", JDict [("timer", JInt 30)])]) world_champ_select
  = (Ok tt, world_champ_select).
Proof.
  split.
  - apply (champselect_update_ignored world_live []). left. discriminate.
  - apply (champselect_update_ignored world_champ_select
             [("data", JDict [("timer", JInt 30)])]).
    right. reflexivity.
Defined.

(** ** GameTracker and OBSClient: the recording flag follows OBS *)

Lemma for_each_app {A} (l1 l2 : list A) (body : A -> M unit) (w : World) :
  for_each (l1 ++ l2) body w = (for_each l1 body ;; for_each l2 body) w.
Proof.
  revert w. induction l1 as [|x l1 IH]; intro w; cbn.
  - reflexivity.
  - unfold bind. destruct (body x w) as [[[]|e] w1]; [|reflexivity].
    rewrite IH. reflexivity.
Qed.

Lemma same_obs_get_request endpoint net :
  Respects same_obs (LCUApi.get_request endpoint net).
Proof.
  unfold LCUApi.get_request, LeagueClientAuth.get_connection_headers,
    LCUApi.raise_for_status, LCUApi.response_json.
  same_obs.
Qed.

Lemma same_obs_set_profile profile_name callback :
  Respects same_obs (OBSClient.set_profile profile_name callback).
Proof. unfold OBSClient.set_profile. same_obs. Qed.

Lemma set_obs_profile_returns : Returns GameTracker._set_obs_profile.
Proof.
  intro w. unfold GameTracker._set_obs_profile, OBSClient.set_profile, call,
    completion_closure. run.
  now destruct (obs_connected (obs w)).
Qed.

(** [start] leaves the [OBSClient] object as registering the tracker's
    handler for [RecordStateChanged] leaves it. *)
Lemma start_registers_handler (net : HttpOutcome) (w : World) :
  obs (exec (GameTracker.start net) w)
  = obs (exec (OBSClient.register_event_handler "RecordStateChanged"
                 bound_handle_recording_state) w).
Proof.
  unfold exec, GameTracker.start, LCUApi.get_current_gameflow.
  rewrite no_method_gameflow_update.
  change (bind (@raise (json -> M unit) AttributeError) ?k)
    with (@raise unit AttributeError).
  rewrite seq_of_returns by apply returns_log.
  pose proof (same_obs_log INFO "Starting game tracker..." w) as H1.
  set (w1 := snd (log INFO "Starting game tracker..." w)) in *.
  match goal with
  | |- context [bind (try_except ?m ?c ?h) _ w1] =>
      rewrite (seq_of_returns (try_except m c h))
        by (apply returns_guarded; intro; apply returns_log);
      assert (H2 : Respects same_obs (try_except m c h))
        by (pose proof same_obs_get_request; same_obs);
      specialize (H2 w1);
      set (w2 := snd (try_except m c h w1)) in *
  end.
  unfold bind at 1, gets at 1. cbv beta iota.
  rewrite seq_of_returns
    by (apply returns_when; apply set_obs_profile_returns).
  match goal with
  | |- context [snd (when_ ?b ?m w2)] =>
      assert (H3 : Respects same_obs (when_ b m))
        by (unfold GameTracker._set_obs_profile;
            pose proof same_obs_set_profile; same_obs);
      specialize (H3 w2);
      set (w3 := snd (when_ b m w2)) in *
  end.
  unfold same_obs in *.
  unfold OBSClient.register_event_handler. run.
  now rewrite H3, H2, H1.
Qed.

(** X5: once [start] has run, whatever the initial session read gave,
    every [RecordStateChanged] event OBS emits with [outputActive = b]
    leaves both the client's [_recording] and the tracker's
    [recording_started] equal to [b], whatever other handlers are
    registered for the event and whether or not they raise. *)
Theorem recording_flag_follows_obs (w : World) (net : HttpOutcome) (b : bool) :
  let started := exec (GameTracker.start net) w in
  let w' := exec (OBSClient._on_recording_state_changed
                    {| OBSClient.ev_datain := Some (Some b) |}) started in
  recording_started (tracker w') = b /\ obs_recording (obs w') = b.
Proof.
  intros started w'. split; [|apply recording_state_changed_flag].
  subst w'. pose proof (start_registers_handler net w) as Ho.
  fold started in Ho.
  unfold OBSClient.register_event_handler in Ho.
  autounfold with monad_ops in Ho. cbn in Ho.
  set (earlier := match lookup "RecordStateChanged" (obs_event_handlers (obs w)) with
                  | Some l => l | None => [] end) in *.
  unfold OBSClient._on_recording_state_changed. run.
  rewrite Ho. cbn. rewrite lookup_store_same.
  match goal with
  | |- context [for_each (earlier ++ [?c]) ?body ?w1] =>
      rewrite (for_each_app earlier [c] body w1);
      destruct (guarded_calls_same_obs earlier [JBool b]
                  "Error in recording state callback" w1
                : exists w2, for_each earlier body w1 = (Ok tt, w2)
                             /\ obs w2 = obs w1)
        as [w2 [E _]]
  end.
  unfold bind at 1. rewrite E. unfold call, _handle_recording_state. run.
  reflexivity.
Qed.

(** ** Fan-out to callables *)

#[global] Instance flag_step_preorder : PreOrder flag_step.
Proof.
  split.
  - intro w. now repeat split.
  - intros w1 w2 w3 H1 H2. unfold flag_step in *.
    destruct H1 as (A1 & B1 & C1 & D1 & E1 & F1).
    destruct H2 as (A2 & B2 & C2 & D2 & E2 & F2).
    repeat split; congruence.
Qed.

Lemma flag_step_emit (e : Event) : Respects flag_step (emit e).
Proof. intro w. now repeat split. Qed.

Lemma flag_step_log level msg : Respects flag_step (log level msg).
Proof. apply flag_step_emit. Qed.

Lemma flag_step_set_recording_started b :
  Respects flag_step (modify (with_tracker (set_recording_started b))).
Proof. intro w. now repeat split. Qed.

Create HintDb flag_step.
#[global] Hint Resolve flag_step_emit flag_step_log flag_step_set_recording_started
  : flag_step.

Ltac flag_step := frame_with ltac:(auto with flag_step).

(** A callable touches the trace and the tracker's recording flag only. *)
Lemma flag_step_call (c : Callback) (args : list json) :
  Respects flag_step (call c args).
Proof.
  unfold call, completion_closure, _handle_recording_state.
  destruct c; flag_step.
Qed.

(** One guarded call: it returns, and it is one invocation. *)
Lemma guarded_call_once (c : Callback) (args : list json) (msg : string) (w : World) :
  exists w' d,
    try_except (call c args) is_Exception (fun _ => log ERROR msg) w = (Ok tt, w') /\
    flag_step w w' /\ trace w' = trace w ++ d /\ calls d = [Called c args].
Proof.
  unfold try_except.
  destruct (call_is_one_call c args w) as [d [T C]].
  pose proof (flag_step_call c args w) as F.
  destruct (call c args w) as [[[]|e] w1]; cbn in *.
  - exists w1, d. split; [reflexivity|]. split; [exact F|]. now split.
  - exists (with_trace (fun t => t ++ [Log ERROR msg]) w1), (d ++ [Log ERROR msg]).
    split; [reflexivity|]. split; [exact F|]. split.
    + cbn. now rewrite T, app_assoc.
    + unfold calls in *. rewrite filter_app, C. reflexivity.
Qed.

(** A loop of guarded calls over [callbacks]: it returns, and its
    invocations are the callbacks, each once, in order. *)
Lemma guarded_calls_fan_out (callbacks : list Callback) (args : list json)
    (msg : string) (w : World) :
  exists w' d,
    for_each callbacks (fun callback =>
      try_except (call callback args) is_Exception (fun _ => log ERROR msg)) w
    = (Ok tt, w') /\
    flag_step w w' /\ trace w' = trace w ++ d /\
    calls d = map (fun c => Called c args) callbacks.
Proof.
  revert w. induction callbacks as [|c callbacks IH]; intro w; cbn.
  - exists w, []. split; [reflexivity|]. split; [reflexivity|].
    split; [now rewrite app_nil_r | reflexivity].
  - destruct (guarded_call_once c args msg w) as [w1 [d1 [E1 [F1 [T1 C1]]]]].
    destruct (IH w1) as [w2 [d2 [E2 [F2 [T2 C2]]]]].
    exists w2, (d1 ++ d2). unfold bind. rewrite E1, E2.
    split; [reflexivity|]. split; [|split].
    + etransitivity; eassumption.
    + now rewrite T2, T1, app_assoc.
    + unfold calls in *. now rewrite filter_app, C1, C2.
Qed.

(** ** OBSClient: the commands *)

(** X6: on a disconnected client each of [set_profile], [start_recording]
    and [stop_recording] fails on the caller's side: it calls the callback
    once, with [False], starts no worker, makes no RPC call and leaves the
    client as it was.  It returns [False] -- unless the callback raises,
    which nothing catches here: the exception reaches the caller. *)
Theorem commands_rejected_when_disconnected (w : World) (profile_name : string)
    (c : Callback) (command : option Callback -> M bool) :
  obs_connected (obs w) = false ->
  In command (commands profile_name) ->
  let w' := exec (command (Some c)) w in
  result (command (Some c)) w = (if raises c then Raise (raised c) else Ok false) /\
  (exists d, trace w' = trace w ++ d /\
             calls d = [Called c [JBool false]] /\ rpcs d = []) /\
  threads w' = threads w /\ obs w' = obs w /\
  command None w
  = (Ok false, with_trace (fun t => t ++ [Log ERROR "Not connected to OBS"]) w).
Proof.
  intros Hc Hin.
  assert (Hcmd : forall cb,
             command cb w
             = (log ERROR "Not connected to OBS" ;;
                if_some cb (fun c => call c [JBool false]) ;;
                ret false) w).
  { intro cb. destruct Hin as [<-|[<-|[<-|[]]]];
      [unfold OBSClient.set_profile | unfold OBSClient.start_recording
      | unfold OBSClient.stop_recording];
      unfold bind at 1, gets at 1; now rewrite Hc. }
  unfold exec, result. rewrite !Hcmd.
  unfold call, completion_closure, _handle_recording_state. run.
  destruct c as [id [|]| | | |]; cbn; rewrite <- ?app_assoc;
    repeat split; try reflexivity;
    eexists; (split; [reflexivity|]); split; reflexivity.
Qed.

Lemma commands_rejected_when_disconnected_witness :
  result (OBSClient.start_recording (Some (Extern 5 false))) world_built = Ok false /\
  result (OBSClient.start_recording (Some (Extern 5 true))) world_built
  = Raise (CallbackError 5) /\
  threads (exec (OBSClient.start_recording (Some (Extern 5 false))) world_built) = [].
Proof.
  destruct (commands_rejected_when_disconnected world_built "League of Legends"
              (Extern 5 false) OBSClient.start_recording)
    as [Hr [_ [Ht _]]]; [reflexivity | right; left; reflexivity |].
  destruct (commands_rejected_when_disconnected world_built "League of Legends"
              (Extern 5 true) OBSClient.start_recording)
    as [Hr' _]; [reflexivity | right; left; reflexivity |].
  repeat split; assumption.
Defined.

(** X7: how the worker of [start_recording] and of [stop_recording] resolves
    the callback.  It makes its RPC call exactly when the session object
    exists.  When the call is answered, the callback gets the response's
    success value; otherwise it gets [False].  A callback that raises on
    the success value is called a second time, with [False], by the error
    branch; whenever the callback raises, the worker ends with that
    exception, otherwise it returns the value it passed. *)
Theorem recording_worker_resolves_callback (w : World) (c : Callback)
    (out : RpcOutcome) (start : bool) :
  let worker := if start then OBSClient._start_recording else OBSClient._stop_recording in
  let request := if start then StartRecord else StopRecord in
  let passed := match answered w out with
                | Some response => OBSClient.response_success response
                | None => JBool false
                end in
  exists d,
    trace (exec (worker (Some c) out) w) = trace w ++ d /\
    rpcs d = (if obs_ws (obs w) then [Rpc request] else []) /\
    calls d
    = Called c [passed]
      :: (match answered w out with
          | Some _ => if raises c then [Called c [JBool false]] else []
          | None => []
          end) /\
    result (worker (Some c) out) w
    = (if raises c then Raise (raised c) else Ok passed).
Proof.
  intros worker request passed. subst worker request passed.
  unfold answered, OBSClient._start_recording, OBSClient._stop_recording,
    OBSClient.ws_call, call, completion_closure, _handle_recording_state.
  destruct start; run;
    (destruct (obs_ws (obs w)); cbn;
     [destruct out as [e|response]; cbn;
      [|destruct (truthy (OBSClient.response_success response)); cbn]|]);
    destruct c as [id [|]| | | |]; cbn;
    try (destruct (truthy (OBSClient.response_success response)); cbn);
    rewrite <- ?app_assoc;
    eexists; (split; [reflexivity|]); repeat split; reflexivity.
Qed.

(** X8: the worker of [set_profile] for a profile of the cached list and a
    callback that does not raise.  It makes the one RPC call
    [SetCurrentProfile] exactly when the session object exists, and reports
    success exactly when that call returns -- whatever the response says.
    The callback is called once, with what the worker returns, and the
    client object is left as it was. *)
Theorem set_profile_worker_known_profile (w : World) (profile_name : string)
    (c : Callback) (out : RpcOutcome) :
  mem String.eqb profile_name (obs_profiles (obs w)) = true ->
  raises c = false ->
  let w' := exec (OBSClient._set_profile profile_name (Some c) out) w in
  let changed := match answered w out with Some _ => true | None => false end in
  result (OBSClient._set_profile profile_name (Some c) out) w = Ok (JBool changed) /\
  (exists d, trace w' = trace w ++ d /\
             rpcs d = (if obs_ws (obs w)
                       then [Rpc (SetCurrentProfile profile_name)] else []) /\
             calls d = [Called c [JBool changed]]) /\
  obs w' = obs w.
Proof.
  intros Hin Hc.
  unfold answered, OBSClient._set_profile, OBSClient.ws_call, call,
    completion_closure, _handle_recording_state.
  run. rewrite Hin. cbn.
  destruct (obs_ws (obs w)); cbn;
    [destruct out as [[]|response]; cbn|];
    destruct c as [cid [|]| | | |]; try discriminate Hc; cbn;
    rewrite <- ?app_assoc;
    (split; [reflexivity|]); (split; [|reflexivity]);
    eexists; (split; [reflexivity|]); split; reflexivity.
Qed.

Lemma set_profile_worker_known_profile_witness :
  result (OBSClient._set_profile "League of Legends" (Some (Extern 0 false))
            (RpcReturns {| resp_status := Some (JBool false) |})) world_live
  = Ok (JBool true).
Proof.
  apply (set_profile_worker_known_profile world_live "League of Legends"
           (Extern 0 false) (RpcReturns {| resp_status := Some (JBool false) |}));
    reflexivity.
Defined.

(** ** OBSClient: events and listeners *)

Lemma recording_event_effects (b : bool) (w : World) :
  exists w' d,
    OBSClient._on_recording_state_changed {| OBSClient.ev_datain := Some (Some b) |} w
    = (Ok tt, w') /\
    flag_step (with_obs (set_obs_recording b) w) w' /\
    trace w' = trace w ++ d /\
    calls d = map (fun c => Called c [JBool b])
                (handlers_at "RecordStateChanged" (obs_event_handlers (obs w))).
Proof.
  unfold OBSClient._on_recording_state_changed, handlers_at. cbn [OBSClient.ev_datain].
  unfold try_except, bind at 1, modify at 1, bind at 1, log at 1, emit at 1,
    modify at 1, bind at 1, gets at 1. cbn.
  destruct (lookup "RecordStateChanged" (obs_event_handlers (obs w)))
    as [callbacks|] eqn:Hl; cbn.
  - match goal with
    | |- context [for_each callbacks ?body ?w1] =>
        destruct (guarded_calls_fan_out callbacks [JBool b]
                    "Error in recording state callback" w1
                  : exists w' d, for_each callbacks body w1 = (Ok tt, w') /\ _)
          as [w' [d [E [F [T C]]]]]
    end.
    rewrite E. exists w', (Log DEBUG "Recording state changed" :: d).
    split; [reflexivity|]. split; [|split].
    + etransitivity; [|exact F]. now repeat split.
    + rewrite T. cbn. now rewrite <- app_assoc.
    + cbn. exact C.
  - eexists _, [Log DEBUG "Recording state changed"].
    split; [reflexivity|]. split; [now repeat split|]. now split.
Qed.

(** X9: what [_on_recording_state_changed] does with an event.  It never
    raises.  An event without [datain] changes nothing.  Otherwise
    [_recording] becomes the event's [outputActive] ([False] when the key is
    missing), and the handlers registered under [RecordStateChanged] are
    called with that value, each once, in registration order, a raising
    handler not keeping the later ones from being called; nothing else of
    the client object changes. *)
Theorem recording_event_fans_out (w : World) (event : OBSClient.RecordStateChanged) :
  let w' := exec (OBSClient._on_recording_state_changed event) w in
  result (OBSClient._on_recording_state_changed event) w = Ok tt /\
  match OBSClient.ev_datain event with
  | None => w' = w
  | Some outputActive =>
      let recording := match outputActive with Some b => b | None => false end in
      obs w' = set_obs_recording recording (obs w) /\
      exists d, trace w' = trace w ++ d /\
                calls d = map (fun c => Called c [JBool recording])
                            (handlers_at "RecordStateChanged"
                               (obs_event_handlers (obs w)))
  end.
Proof.
  destruct event as [[outputActive|]]; cbn [OBSClient.ev_datain].
  - set (b := match outputActive with Some b => b | None => false end).
    assert (E0 : OBSClient._on_recording_state_changed
                   {| OBSClient.ev_datain := Some outputActive |}
                 = OBSClient._on_recording_state_changed
                     {| OBSClient.ev_datain := Some (Some b) |})
      by (destruct outputActive; reflexivity).
    unfold exec, result. rewrite E0.
    destruct (recording_event_effects b w) as [w' [d [E [F [T C]]]]].
    rewrite E. cbn. split; [reflexivity|]. split.
    + destruct F as (_ & _ & F & _). exact F.
    + now exists d.
  - split; reflexivity.
Qed.

Lemma handlers_at_store_same {A : Type} (k : string) (l : list A)
    (d : list (string * list A)) :
  handlers_at k (store k l d) = l.
Proof. unfold handlers_at. now rewrite lookup_store_same. Qed.

Lemma handlers_at_store_other {A : Type} (k k' : string) (l : list A)
    (d : list (string * list A)) :
  k' <> k -> handlers_at k' (store k l d) = handlers_at k' d.
Proof. intro H. unfold handlers_at. now rewrite lookup_store_other. Qed.

(** X10: [register_event_handler] appends the handler to the list of its
    event type without looking for it there, touches no other event type
    and calls nothing.  So after one more registration under
    [RecordStateChanged] an event reaches the handlers registered before,
    then the new one -- once more than before when it was already there. *)
Theorem register_event_handler_appends (w : World) (event_type : string)
    (c : Callback) (b : bool) :
  let w' := exec (OBSClient.register_event_handler event_type c) w in
  let table := obs_event_handlers (obs w) in
  let table' := obs_event_handlers (obs w') in
  handlers_at event_type table' = handlers_at event_type table ++ [c] /\
  (forall other, other <> event_type ->
                 handlers_at other table' = handlers_at other table) /\
  trace w' = trace w /\
  let w1 := exec (OBSClient.register_event_handler "RecordStateChanged" c) w in
  exists d,
    trace (exec (OBSClient._on_recording_state_changed
                   {| OBSClient.ev_datain := Some (Some b) |}) w1)
    = trace w1 ++ d /\
    calls d = map (fun c' => Called c' [JBool b])
                (handlers_at "RecordStateChanged" table) ++ [Called c [JBool b]].
Proof.
  cbn zeta.
  assert (Ht : forall event_type,
             obs_event_handlers
               (obs (exec (OBSClient.register_event_handler event_type c) w))
             = store event_type
                 (handlers_at event_type (obs_event_handlers (obs w)) ++ [c])
                 (obs_event_handlers (obs w))) by reflexivity.
  rewrite Ht. split; [apply handlers_at_store_same|].
  split; [intros other Ho; now apply handlers_at_store_other|].
  split; [reflexivity|].
  destruct (recording_event_effects b
              (exec (OBSClient.register_event_handler "RecordStateChanged" c) w))
    as [w' [d [E [_ [T C]]]]].
  unfold exec at 1. rewrite E. exists d. split; [exact T|].
  rewrite C, Ht, handlers_at_store_same, map_app. reflexivity.
Qed.

(** X11: the two connection notifiers of [OBSClient] run over two
    independent lists.  [_notify_connection_state] calls each connection
    handler, [_notify_connection_callbacks] each connection callback, once
    and in registration order with the given state; neither raises,
    whatever the listeners do, and neither changes the client object. *)
Theorem obs_notifiers_fan_out (w : World) (connected : bool) :
  (let m := OBSClient._notify_connection_state connected in
   result m w = Ok tt /\ obs (exec m w) = obs w /\
   exists d, trace (exec m w) = trace w ++ d /\
             calls d = map (fun c => Called c [JBool connected])
                         (obs_connection_handlers (obs w))) /\
  (let m := OBSClient._notify_connection_callbacks connected in
   result m w = Ok tt /\ obs (exec m w) = obs w /\
   exists d, trace (exec m w) = trace w ++ d /\
             calls d = map (fun c => Called c [JBool connected])
                         (obs_connection_callbacks (obs w))).
Proof.
  split; cbn zeta.
  - unfold OBSClient._notify_connection_state, exec, result.
    unfold bind at 1, log at 1, emit at 1, modify at 1, bind at 1, gets at 1. cbn.
    match goal with
    | |- context [for_each ?l ?body ?w1] =>
        destruct (guarded_calls_fan_out l [JBool connected]
                    "Error in connection handler" w1
                  : exists w' d, for_each l body w1 = (Ok tt, w') /\ _)
          as [w' [d [E [F [T C]]]]]
    end.
    rewrite E. cbn. split; [reflexivity|]. split.
    + destruct F as (_ & _ & F & _). exact F.
    + eexists (_ :: d). rewrite T. cbn. rewrite <- app_assoc. split; [reflexivity|].
      destruct connected; exact C.
  - unfold OBSClient._notify_connection_callbacks, exec, result.
    unfold bind at 1, gets at 1. cbn.
    match goal with
    | |- context [for_each ?l ?body ?w1] =>
        destruct (guarded_calls_fan_out l [JBool connected]
                    "Error in connection callback" w1
                  : exists w' d, for_each l body w1 = (Ok tt, w') /\ _)
          as [w' [d [E [F [T C]]]]]
    end.
    rewrite E. cbn. split; [reflexivity|]. split.
    + destruct F as (_ & _ & F & _). exact F.
    + now exists d.
Qed.

(** Appending unless present keeps a list free of duplicates. *)
Lemma append_unless_present (c : Callback) (l : list Callback) :
  NoDup l ->
  NoDup (if mem Callback_eqb c l then l else l ++ [c]) /\
  In c (if mem Callback_eqb c l then l else l ++ [c]).
Proof.
  intro Hl. destruct (mem Callback_eqb c l) eqn:Hm.
  - split; [exact Hl|]. now apply (mem_In Callback_eqb Callback_eqb_eq).
  - split.
    + apply NoDup_app; [exact Hl | repeat constructor; intros [] |].
      intros x Hx [<-|[]].
      apply (mem_In Callback_eqb Callback_eqb_eq) in Hx. congruence.
    + apply in_or_app. right. now left.
Qed.

(** X12: the two listener lists of [OBSClient] hold a listener once.
    Starting from a list without duplicates, [add_connection_handler] and
    [add_connection_callback] leave a list without duplicates that holds
    the listener, leave the other list alone, and a second registration
    of the same listener changes nothing at all. *)
Theorem obs_listeners_registered_once (w : World) (c : Callback) :
  NoDup (obs_connection_handlers (obs w)) ->
  NoDup (obs_connection_callbacks (obs w)) ->
  (let w' := exec (OBSClient.add_connection_handler c) w in
   NoDup (obs_connection_handlers (obs w')) /\
   In c (obs_connection_handlers (obs w')) /\
   obs_connection_callbacks (obs w') = obs_connection_callbacks (obs w) /\
   OBSClient.add_connection_handler c w' = (Ok tt, w')) /\
  (let w' := exec (OBSClient.add_connection_callback c) w in
   NoDup (obs_connection_callbacks (obs w')) /\
   In c (obs_connection_callbacks (obs w')) /\
   obs_connection_handlers (obs w') = obs_connection_handlers (obs w) /\
   OBSClient.add_connection_callback c w' = (Ok tt, w')).
Proof.
  intros Hh Hc. cbn zeta. split.
  - destruct (append_unless_present c _ Hh) as [Hn Hi].
    assert (Ho : obs (exec (OBSClient.add_connection_handler c) w)
                 = if mem Callback_eqb c (obs_connection_handlers (obs w)) then obs w
                   else set_obs_connection_handlers
                          (obs_connection_handlers (obs w) ++ [c]) (obs w)).
    { unfold OBSClient.add_connection_handler, exec.
      unfold bind at 1, gets at 1.
      destruct (mem Callback_eqb c (obs_connection_handlers (obs w))); [reflexivity|].
      cbn [negb when_]. unfold bind at 1, modify at 1.
      destruct (obs_connected (obs w)); [|reflexivity].
      cbn [when_].
      destruct (guarded_call_once c [JBool true] "Error in connection handler"
                  (with_obs (set_obs_connection_handlers
                               (obs_connection_handlers (obs w) ++ [c])) w))
        as [w1 [d [E [F _]]]].
      rewrite E. destruct F as (_ & _ & F & _). exact F. }
    assert (Hm : mem Callback_eqb c
                   (obs_connection_handlers
                      (obs (exec (OBSClient.add_connection_handler c) w))) = true).
    { apply (mem_In Callback_eqb Callback_eqb_eq). rewrite Ho.
      destruct (mem Callback_eqb c (obs_connection_handlers (obs w))); exact Hi. }
    rewrite Ho.
    repeat split.
    + destruct (mem Callback_eqb c (obs_connection_handlers (obs w))); exact Hn.
    + destruct (mem Callback_eqb c (obs_connection_handlers (obs w))); exact Hi.
    + now destruct (mem Callback_eqb c (obs_connection_handlers (obs w))).
    + unfold OBSClient.add_connection_handler at 1.
      unfold bind at 1, gets at 1. now rewrite Hm.
  - destruct (append_unless_present c _ Hc) as [Hn Hi].
    unfold OBSClient.add_connection_callback, exec.
    autounfold with monad_ops. cbn -[mem].
    destruct (mem Callback_eqb c (obs_connection_callbacks (obs w))) eqn:Hm;
      cbn -[mem].
    + rewrite Hm. now repeat split.
    + repeat split; try assumption.
      apply (mem_In Callback_eqb Callback_eqb_eq) in Hi. now rewrite Hi.
Qed.

Lemma obs_listeners_registered_once_witness :
  OBSClient.add_connection_handler on_profile_set
    (exec (OBSClient.add_connection_handler on_profile_set) world_live)
  = (Ok tt, exec (OBSClient.add_connection_handler on_profile_set) world_live).
Proof.
  apply (obs_listeners_registered_once world_live on_profile_set);
    cbn; repeat constructor; cbn; intuition discriminate.
Defined.

(** ** LeagueClientAuth: credential discovery *)

#[global] Instance logs_only_preorder : PreOrder logs_only.
Proof.
  split.
  - intro w. repeat (split; [reflexivity|]). exists []. now rewrite app_nil_r.
  - intros w1 w2 w3 (A1 & B1 & C1 & D1 & E1 & d1 & T1 & L1)
      (A2 & B2 & C2 & D2 & E2 & d2 & T2 & L2).
    repeat (split; [congruence|]). exists (d1 ++ d2). split.
    + now rewrite T2, T1, app_assoc.
    + now rewrite forallb_app, L1, L2.
Qed.

Lemma logs_only_log level msg : Respects logs_only (log level msg).
Proof.
  intro w. repeat (split; [reflexivity|]). now exists [Log level msg].
Qed.

Create HintDb logs_only.
#[global] Hint Resolve logs_only_log : logs_only.

Ltac logs_only := frame_with ltac:(auto with logs_only).

Lemma logs_only_check_process (process : Process) :
  Respects logs_only (LeagueClientAuth.check_process process).
Proof.
  unfold LeagueClientAuth.check_process.
  destruct (proc_name process) as [name|]; [|logs_only].
  destruct (mem String.eqb name LeagueClientAuth.process_names); [|logs_only].
  destruct (proc_cmdline process) as [[|arg args]|]; logs_only.
Qed.

#[global] Hint Resolve logs_only_check_process : logs_only.

Lemma logs_only_get_auth_data (processes : list Process) :
  Respects logs_only (LeagueClientAuth.get_auth_data processes).
Proof.
  induction processes as [|process rest IH]; cbn [LeagueClientAuth.get_auth_data].
  - logs_only.
  - apply respects_bind; [exact _ | logs_only |].
    intros [[token port]|]; [logs_only | exact IH].
Qed.

(** What checking one process comes to, exceptions absorbed. *)
Lemma check_process_credentials (process : Process) (w : World) :
  fst (try_except (LeagueClientAuth.check_process process) is_Exception
         (fun _ => log ERROR "Unexpected error while checking process" ;; ret None) w)
  = Ok (credentials process).
Proof.
  unfold LeagueClientAuth.check_process, credentials.
  destruct (proc_name process) as [name|]; [|now destruct (proc_cmdline process)].
  destruct (proc_cmdline process) as [[|arg args]|];
    destruct (mem String.eqb name LeagueClientAuth.process_names); try reflexivity.
  set (cmd_str := String.concat " " (arg :: args)).
  destruct (PyLib.find_option "--remoting-auth-token=" cmd_str) as [token|];
    destruct (PyLib.find_option "--app-port=" cmd_str) as [port|]; try reflexivity.
  autounfold with monad_ops.
  destruct (PyLib.int port) as [e|client_port]; [destruct e|]; reflexivity.
Qed.

Lemma get_auth_data_scan (processes : list Process) (w : World) :
  result (LeagueClientAuth.get_auth_data processes) w = Ok (scan processes).
Proof.
  revert w. induction processes as [|process rest IH]; intro w; [reflexivity|].
  cbn [LeagueClientAuth.get_auth_data scan]. unfold result, bind.
  pose proof (check_process_credentials process w) as H.
  destruct (try_except _ _ _ w) as [r w1]. cbn in H. subst r.
  destruct (credentials process) as [[token port]|]; [reflexivity|]. apply IH.
Qed.

Lemma credentials_token_nonempty (process : Process) (token : string) (port : Z) :
  credentials process = Some (token, port) -> token <> EmptyString.
Proof.
  unfold credentials.
  destruct (proc_name process) as [name|]; [|discriminate].
  destruct (proc_cmdline process) as [[|arg args]|]; try discriminate.
  destruct (mem String.eqb name LeagueClientAuth.process_names); [|discriminate].
  destruct (PyLib.find_option "--remoting-auth-token=" _) as [raw|]; [|discriminate].
  destruct (PyLib.find_option "--app-port=" _) as [port0|]; [|discriminate].
  destruct (PyLib.int port0) as [e|client_port]; [discriminate|].
  intros [= <- _]. discriminate.
Qed.

Lemma scan_both_or_neither (processes : list Process) :
  scan processes = (None, None) \/
  exists token port, scan processes = (Some token, Some port) /\ token <> EmptyString.
Proof.
  induction processes as [|process rest IH]; [now left|]. cbn.
  destruct (credentials process) as [[token port]|] eqn:Hc; [|exact IH].
  right. exists token, port. split; [reflexivity|].
  eapply credentials_token_nonempty, Hc.
Qed.

(** X13: [get_auth_data] never raises, whatever the process table holds --
    a port that is not an integer literal included -- and all it does
    besides returning is logging.  It returns a token and a port together
    or neither, and a token it returns is not the empty string. *)
Theorem get_auth_data_only_logs (processes : list Process) (w : World) :
  logs_only w (exec (LeagueClientAuth.get_auth_data processes) w) /\
  (result (LeagueClientAuth.get_auth_data processes) w = Ok (None, None) \/
   exists token port,
     result (LeagueClientAuth.get_auth_data processes) w = Ok (Some token, Some port) /\
     token <> EmptyString).
Proof.
  split; [apply logs_only_get_auth_data|].
  rewrite get_auth_data_scan.
  destruct (scan_both_or_neither processes) as [->|[token [port [-> Ht]]]];
    [now left | right; now exists token, port].
Qed.

Lemma get_auth_data_skips (skipped : list Process) (w : World) :
  Forall (fun process => credentials process = None) skipped ->
  exists w1,
    logs_only w w1 /\
    forall rest,
      LeagueClientAuth.get_auth_data (skipped ++ rest) w
      = LeagueClientAuth.get_auth_data rest w1.
Proof.
  intro Hs. revert w. induction Hs as [|process skipped Hp Hs IH]; intro w.
  - exists w. split; [reflexivity | reflexivity].
  - cbn [app LeagueClientAuth.get_auth_data].
    pose proof (check_process_credentials process w) as H.
    assert (L : Respects logs_only
                  (try_except (LeagueClientAuth.check_process process) is_Exception
                     (fun _ => log ERROR "Unexpected error while checking process" ;;
                               ret None))) by logs_only.
    specialize (L w).
    rewrite Hp in H.
    destruct (try_except (LeagueClientAuth.check_process process) is_Exception
                (fun _ => log ERROR "Unexpected error while checking process" ;;
                          ret None) w) as [r w1] eqn:E.
    cbn in H, L. subst r.
    destruct (IH w1) as [w2 [L2 H2]]. exists w2. split.
    + etransitivity; eassumption.
    + intro rest. rewrite <- H2. unfold bind at 1. rewrite E. reflexivity.
Qed.

(** X14: the first process with usable credentials wins.  Processes
    before it that give none -- another name, no command line, an option
    missing, a port that does not convert -- are skipped, and what comes
    after it in the process table is not looked at: the call ends in the
    same world whatever follows.  When no process gives credentials the
    result is [(None, None)]. *)
Theorem first_usable_process_wins (skipped rest : list Process) (process : Process)
    (token : string) (port : Z) (w : World) :
  Forall (fun p => credentials p = None) skipped ->
  (credentials process = Some (token, port) ->
   LeagueClientAuth.get_auth_data (skipped ++ process :: rest) w
   = LeagueClientAuth.get_auth_data (skipped ++ [process]) w /\
   result (LeagueClientAuth.get_auth_data (skipped ++ process :: rest)) w
   = Ok (Some token, Some port)) /\
  result (LeagueClientAuth.get_auth_data skipped) w = Ok (None, None).
Proof.
  intro Hs. split.
  - intro Hp.
    assert (Hhead : forall rest' w1,
               LeagueClientAuth.get_auth_data (process :: rest') w1
               = (Ok (Some token, Some port),
                  exec (LeagueClientAuth.get_auth_data [process]) w1)).
    { intros rest' w1. unfold exec. cbn [LeagueClientAuth.get_auth_data].
      unfold bind at 1 3.
      pose proof (check_process_credentials process w1) as H. rewrite Hp in H.
      destruct (try_except _ _ _ w1) as [r w2]. cbn in H. now subst r. }
    destruct (get_auth_data_skips skipped w Hs) as [w1 [_ H1]].
    unfold result. rewrite !H1, !Hhead. split; reflexivity.
  - destruct (get_auth_data_skips skipped w Hs) as [w1 [_ H1]].
    specialize (H1 []). rewrite app_nil_r in H1. unfold result. now rewrite H1.
Qed.

Lemma first_usable_process_wins_witness :
  result (LeagueClientAuth.get_auth_data
            ([{| proc_name := Some "LeagueClient.exe"; proc_cmdline := None |};
              {| proc_name := Some "LeagueClientUx.exe";
                 proc_cmdline := Some ["LeagueClientUx.exe"; "--app-port=five";
                                       "--remoting-auth-token=abc"] |}]
             ++ client_process :: [client_process])) world_init
  = Ok (Some "cmlvdDpabTl2WW1GeQ==", Some 51234%Z).
Proof.
  apply (first_usable_process_wins
           [{| proc_name := Some "LeagueClient.exe"; proc_cmdline := None |};
            {| proc_name := Some "LeagueClientUx.exe";
               proc_cmdline := Some ["LeagueClientUx.exe"; "--app-port=five";
                                     "--remoting-auth-token=abc"] |}]
           [client_process] client_process "cmlvdDpabTl2WW1GeQ==" 51234%Z world_init).
  - repeat constructor.
  - vm_compute. reflexivity.
Defined.

(** ** LeagueClientAuth: polling and listeners *)

Lemma option_eqb_eq {A : Type} (eqb : A -> A -> bool) (x y : option A) :
  (forall a b, eqb a b = true <-> a = b) ->
  LeagueClientAuth.option_eqb eqb x y = true <-> x = y.
Proof.
  intro H. destruct x as [a|], y as [b|]; cbn; try now split.
  rewrite H. split; congruence.
Qed.

Lemma auth_notify_effects (connected : bool) (w : World) :
  exists w' d,
    LeagueClientAuth._notify_connection_callbacks connected w = (Ok tt, w') /\
    auth w' = set_auth_connected connected (auth w) /\
    trace w' = trace w ++ d /\
    calls d = map (fun c => Called c [JBool connected])
                (auth_connection_callbacks (auth w)).
Proof.
  unfold LeagueClientAuth._notify_connection_callbacks.
  unfold bind at 1, modify at 1, bind at 1, gets at 1. cbn.
  match goal with
  | |- context [for_each ?l ?body ?w1] =>
      destruct (guarded_calls_fan_out l [JBool connected]
                  "Error in connection callback" w1
                : exists w' d, for_each l body w1 = (Ok tt, w') /\ _)
        as [w' [d [E [F [T C]]]]]
  end.
  exists w', d. split; [exact E|]. split; [|now split].
  destruct F as (F & _). exact F.
Qed.

(** X15: [_notify_connection_callbacks] of [LeagueClientAuth] records the
    state, then calls each registered callback with it, once and in
    registration order; a raising callback is logged and does not keep the
    later ones from being called, and the method never raises.  [connect]
    without both credentials does nothing at all. *)
Theorem auth_notifier_fan_out (w : World) (connected : bool) :
  let m := LeagueClientAuth._notify_connection_callbacks connected in
  result m w = Ok tt /\
  auth (exec m w) = set_auth_connected connected (auth w) /\
  (exists d, trace (exec m w) = trace w ++ d /\
             calls d = map (fun c => Called c [JBool connected])
                         (auth_connection_callbacks (auth w))) /\
  (auth_token (auth w) = None \/ client_port (auth w) = None ->
   LeagueClientAuth.connect w = (Ok tt, w)).
Proof.
  cbn zeta. destruct (auth_notify_effects connected w) as [w' [d [E [A [T C]]]]].
  unfold result, exec. rewrite E. cbn.
  split; [reflexivity|]. split; [exact A|]. split; [now exists d|].
  unfold LeagueClientAuth.connect. run.
  intros [H|H]; rewrite H; [reflexivity|].
  now destruct (auth_token (auth w)).
Qed.

Lemma auth_notifier_fan_out_witness :
  LeagueClientAuth.connect world_built = (Ok tt, world_built).
Proof.
  apply (auth_notifier_fan_out world_built true). left. reflexivity.
Defined.

(** What a poll of the process table comes to. *)
Lemma update_auth_effects (processes : list Process) (w : World) :
  let token := fst (scan processes) in
  let port := snd (scan processes) in
  let changed :=
    negb (LeagueClientAuth.option_eqb String.eqb token (auth_token (auth w)))
    || negb (LeagueClientAuth.option_eqb Z.eqb port (client_port (auth w))) in
  exists w' d,
    LeagueClientAuth.update_auth processes w = (Ok tt, w') /\
    auth w'
    = (if changed
       then set_auth_connected (LeagueClientAuth.both_present token port)
              (LeagueClientAuth.set_credentials token port (auth w))
       else auth w) /\
    trace w' = trace w ++ d /\
    calls d = (if changed
               then map (fun c => Called c [JBool (LeagueClientAuth.both_present
                                                     token port)])
                      (auth_connection_callbacks (auth w))
               else []).
Proof.
  cbn zeta. unfold LeagueClientAuth.update_auth.
  unfold bind at 1, log at 1, emit at 1, modify at 1. unfold bind at 1.
  set (w0 := with_trace (fun t => t ++ [Log DEBUG "Checking authentication data..."]) w).
  pose proof (get_auth_data_scan processes w0) as Hr.
  pose proof (logs_only_get_auth_data processes w0) as Hl.
  unfold result in Hr.
  destruct (LeagueClientAuth.get_auth_data processes w0) as [r w1]. cbn in Hr, Hl.
  subst r. destruct Hl as (A1 & _ & _ & _ & _ & d1 & T1 & L1).
  assert (C1 : calls d1 = []).
  { clear T1. induction d1 as [|[] d1 IH]; try discriminate; [reflexivity|].
    apply IH. exact L1. }
  destruct (scan_both_or_neither processes) as [Hs|[token [port [Hs Hne]]]];
    rewrite Hs; cbn [fst snd]; unfold bind at 1, gets at 1; rewrite A1;
    change (auth w0) with (auth w);
    match goal with
    | |- context [if ?c then _ else _] => destruct c eqn:Hch
    end.
  - unfold bind at 1, log at 1, emit at 1, modify at 1.
    unfold bind at 1, modify at 1. cbn [LeagueClientAuth.both_present].
    unfold LeagueClientAuth.disconnect.
    match goal with
    | |- context [LeagueClientAuth._notify_connection_callbacks false ?w2] =>
        destruct (auth_notify_effects false w2) as [w' [d [E [A [T C]]]]]
    end.
    rewrite E. eexists w', (Log DEBUG _ :: d1 ++ Log INFO _ :: d).
    split; [reflexivity|]. split; [|split].
    + rewrite A. cbn. now rewrite A1.
    + rewrite T. cbn. rewrite T1. cbn. rewrite <- !app_assoc. reflexivity.
    + cbn. unfold calls in *. rewrite filter_app, C1. cbn. rewrite C. cbn.
      now rewrite A1.
  - eexists _, (Log DEBUG _ :: d1 ++ [Log DEBUG _]).
    split; [reflexivity|]. split; [exact A1|]. split.
    + cbn. rewrite T1. cbn. rewrite <- !app_assoc. reflexivity.
    + cbn. unfold calls in *. rewrite filter_app, C1. reflexivity.
  - unfold bind at 1, log at 1, emit at 1, modify at 1.
    unfold bind at 1, modify at 1.
    destruct (LeagueClientAuth.both_present (Some token) (Some port)) eqn:Hb.
    + unfold LeagueClientAuth.connect. unfold bind at 1, gets at 1.
      cbn [auth with_auth with_trace LeagueClientAuth.set_credentials auth_token
             client_port].
      match goal with
      | |- context [LeagueClientAuth._notify_connection_callbacks true ?w2] =>
          destruct (auth_notify_effects true w2) as [w' [d [E [A [T C]]]]]
      end.
      rewrite E. eexists w', (Log DEBUG _ :: d1 ++ Log INFO _ :: d).
      split; [reflexivity|]. split; [|split].
      * rewrite A. cbn. now rewrite A1.
      * rewrite T. cbn. rewrite T1. cbn. rewrite <- !app_assoc. reflexivity.
      * cbn. unfold calls in *. rewrite filter_app, C1. cbn. rewrite C. cbn.
        now rewrite A1.
    + unfold LeagueClientAuth.disconnect.
      match goal with
      | |- context [LeagueClientAuth._notify_connection_callbacks false ?w2] =>
          destruct (auth_notify_effects false w2) as [w' [d [E [A [T C]]]]]
      end.
      rewrite E. eexists w', (Log DEBUG _ :: d1 ++ Log INFO _ :: d).
      split; [reflexivity|]. split; [|split].
      * rewrite A. cbn. now rewrite A1.
      * rewrite T. cbn. rewrite T1. cbn. rewrite <- !app_assoc. reflexivity.
      * cbn. unfold calls in *. rewrite filter_app, C1. cbn. rewrite C. cbn.
        now rewrite A1.
  - eexists _, (Log DEBUG _ :: d1 ++ [Log DEBUG _]).
    split; [reflexivity|]. split; [exact A1|]. split.
    + cbn. rewrite T1. cbn. rewrite <- !app_assoc. reflexivity.
    + cbn. unfold calls in *. rewrite filter_app, C1. reflexivity.
Qed.

(** X16: a poll notifies on a change of credentials, not of connectivity.
    [update_auth] never raises.  When the token and the port found in the
    process table are those already stored, no callback is called and the
    object is left as it was.  When either differs, each registered
    callback is called once, in registration order, with [True] if a token
    and a non-zero port were found and [False] otherwise -- also when the
    connection state is the same as before. *)
Theorem update_auth_notifies_on_change (processes : list Process) (w : World) :
  let m := LeagueClientAuth.update_auth processes in
  let token := fst (scan processes) in
  let port := snd (scan processes) in
  let unchanged := (token, port) = (auth_token (auth w), client_port (auth w)) in
  result m w = Ok tt /\
  exists d,
    trace (exec m w) = trace w ++ d /\
    (unchanged -> calls d = [] /\ auth (exec m w) = auth w) /\
    (~ unchanged ->
     calls d = map (fun c => Called c [JBool (LeagueClientAuth.both_present token port)])
                 (auth_connection_callbacks (auth w)) /\
     LeagueClientAuth.is_connected (auth (exec m w))
     = LeagueClientAuth.both_present token port).
Proof.
  cbn zeta. destruct (update_auth_effects processes w) as [w' [d [E [A [T C]]]]].
  cbn zeta in A, C. unfold result, exec. rewrite E. cbn [fst snd].
  split; [reflexivity|]. exists d. split; [exact T|].
  destruct (LeagueClientAuth.option_eqb String.eqb (fst (scan processes))
              (auth_token (auth w))) eqn:Ht;
    [destruct (LeagueClientAuth.option_eqb Z.eqb (snd (scan processes))
                 (client_port (auth w))) eqn:Hp|];
    cbn [negb orb] in A, C.
  - split; [now intros _|].
    apply (option_eqb_eq _ _ _ String.eqb_eq) in Ht.
    apply (option_eqb_eq _ _ _ Z.eqb_eq) in Hp.
    intros []. congruence.
  - split; [|intros _; rewrite A; now split].
    intros [= _ Hp']. apply (option_eqb_eq _ _ _ Z.eqb_eq) in Hp'. congruence.
  - split; [|intros _; rewrite A; now split].
    intros [= Ht' _]. apply (option_eqb_eq _ _ _ String.eqb_eq) in Ht'. congruence.
Qed.

Lemma update_auth_notifies_on_change_witness :
  exists d,
    trace (exec (LeagueClientAuth.update_auth [client_process]) world_built)
    = trace world_built ++ d /\
    calls d = map (fun c => Called c [JBool true])
                (auth_connection_callbacks (auth world_built)).
Proof.
  destruct (update_auth_notifies_on_change [client_process] world_built)
    as [_ [d [T [_ H]]]].
  exists d. split; [exact T|]. apply H. vm_compute. discriminate.
Defined.

(** X17: polling keeps the connection flag in step with the credentials.
    If [is_connected] agrees with [is_client_running] before [update_auth],
    it does after; the credentials stored afterwards are the ones found;
    and a second poll of the same process table calls no callback and
    leaves the object as it is. *)
Theorem update_auth_keeps_flag_consistent (processes : list Process) (w : World) :
  consistent w ->
  let w' := exec (LeagueClientAuth.update_auth processes) w in
  consistent w' /\
  (auth_token (auth w'), client_port (auth w')) = scan processes /\
  let w'' := exec (LeagueClientAuth.update_auth processes) w' in
  auth w'' = auth w' /\
  exists d, trace w'' = trace w' ++ d /\ calls d = [].
Proof.
  intro Hc. cbn zeta.
  destruct (update_auth_effects processes w) as [w' [d [E [A [_ _]]]]].
  cbn zeta in A. unfold exec. rewrite E. cbn [snd].
  assert (Hs : (auth_token (auth w'), client_port (auth w')) = scan processes).
  { rewrite A.
    destruct (LeagueClientAuth.option_eqb String.eqb (fst (scan processes))
                (auth_token (auth w))) eqn:Ht;
      [destruct (LeagueClientAuth.option_eqb Z.eqb (snd (scan processes))
                   (client_port (auth w))) eqn:Hp|];
      cbn [negb orb]; try now destruct (scan processes).
    apply (option_eqb_eq _ _ _ String.eqb_eq) in Ht.
    apply (option_eqb_eq _ _ _ Z.eqb_eq) in Hp.
    rewrite <- Ht, <- Hp. now destruct (scan processes). }
  split; [|split; [exact Hs|]].
  - unfold consistent in *. rewrite A.
    destruct (_ || _); [reflexivity | exact Hc].
  - destruct (update_auth_effects processes w') as [w'' [d' [E' [A' [T' C']]]]].
    cbn zeta in A', C'. rewrite E'. cbn [snd].
    assert (Hu : negb (LeagueClientAuth.option_eqb String.eqb (fst (scan processes))
                         (auth_token (auth w')))
                 || negb (LeagueClientAuth.option_eqb Z.eqb (snd (scan processes))
                            (client_port (auth w'))) = false).
    { rewrite <- Hs. cbn [fst snd].
      rewrite (proj2 (option_eqb_eq String.eqb _ _ String.eqb_eq) eq_refl).
      now rewrite (proj2 (option_eqb_eq Z.eqb _ _ Z.eqb_eq) eq_refl). }
    rewrite Hu in A', C'. split; [exact A'|]. exists d'. split; assumption.
Qed.

Lemma update_auth_keeps_flag_consistent_witness :
  consistent (exec (LeagueClientAuth.update_auth [client_process]) world_built).
Proof.
  apply (update_auth_keeps_flag_consistent [client_process] world_built).
  reflexivity.
Defined.

Section Removal.
Context {A : Type} (eqb : A -> A -> bool).
Hypothesis eqb_eq : forall x y, eqb x y = true <-> x = y.

Lemma remove_first_appended (x : A) (l : list A) :
  mem eqb x l = false -> remove_first eqb x (l ++ [x]) = Some l.
Proof.
  induction l as [|y l IH]; cbn.
  - intros _. now rewrite (proj2 (eqb_eq x x) eq_refl).
  - intro H. apply orb_false_iff in H. destruct H as [Hy Hl].
    rewrite Hy. unfold mem in IH. now rewrite (IH Hl).
Qed.

Lemma remove_first_NoDup (x : A) (l l' : list A) :
  NoDup l -> remove_first eqb x l = Some l' ->
  NoDup l' /\ ~ In x l' /\ incl l' l.
Proof.
  intro Hl. revert l'. induction Hl as [|y l Hy Hl IH]; cbn; [discriminate|].
  intro l'. destruct (eqb x y) eqn:E.
  - intros [= <-]. apply eqb_eq in E. subst y.
    repeat split; [assumption | assumption | now apply incl_tl].
  - destruct (remove_first eqb x l) as [l0|]; [|discriminate].
    intros [= <-]. destruct (IH l0 eq_refl) as [Hn [Hx Hi]]. repeat split.
    + constructor; [|assumption]. intro H. apply Hy, Hi, H.
    + intros [->|H]; [|now apply Hx].
      rewrite (proj2 (eqb_eq x x) eq_refl) in E. discriminate.
    + intros z [->|Hz]; [now left | right; now apply Hi].
Qed.
End Removal.

Lemma auth_add_effects (c : Callback) (w : World) :
  auth (exec (LeagueClientAuth.add_connection_callback c) w)
  = (if mem Callback_eqb c (auth_connection_callbacks (auth w)) then auth w
     else set_auth_connection_callbacks
            (auth_connection_callbacks (auth w) ++ [c]) (auth w)) /\
  result (LeagueClientAuth.add_connection_callback c) w
  = (if negb (mem Callback_eqb c (auth_connection_callbacks (auth w))) && raises c
     then Raise (raised c) else Ok tt).
Proof.
  unfold LeagueClientAuth.add_connection_callback, exec, result.
  split; unfold bind at 1, gets at 1;
    (destruct (mem Callback_eqb c (auth_connection_callbacks (auth w)));
     [reflexivity|]);
    cbn [negb when_ andb]; unfold bind at 1, modify at 1.
  - match goal with
    | |- context [call c ?args ?w1] =>
        destruct (flag_step_call c args w1) as (F & _)
    end.
    exact F.
  - unfold call, completion_closure, _handle_recording_state.
    destruct c as [cid [|]| | | |]; try reflexivity;
      run; now destruct (auth_connected (auth w)).
Qed.

(** X18: registering and removing a callback of [LeagueClientAuth].
    On a list without duplicates, [add_connection_callback] leaves the
    callback registered once -- also when the callback raises at the
    immediate notification, which reaches the registrant after the
    callback was stored.  [remove_connection_callback] then unregisters
    it, giving back the original object if the callback was new, and
    removing a callback that is not registered does nothing and does not
    raise. *)
Theorem auth_callback_round_trip (w : World) (c : Callback) :
  NoDup (auth_connection_callbacks (auth w)) ->
  let w1 := exec (LeagueClientAuth.add_connection_callback c) w in
  let w2 := exec (LeagueClientAuth.remove_connection_callback c) w1 in
  (In c (auth_connection_callbacks (auth w1)) /\
   NoDup (auth_connection_callbacks (auth w1))) /\
  (~ In c (auth_connection_callbacks (auth w)) -> raises c = true ->
   result (LeagueClientAuth.add_connection_callback c) w = Raise (raised c)) /\
  result (LeagueClientAuth.remove_connection_callback c) w1 = Ok tt /\
  (~ In c (auth_connection_callbacks (auth w2)) /\
   NoDup (auth_connection_callbacks (auth w2))) /\
  (~ In c (auth_connection_callbacks (auth w)) -> auth w2 = auth w) /\
  LeagueClientAuth.remove_connection_callback c w2 = (Ok tt, w2).
Proof.
  intro Hn. cbn zeta.
  destruct (auth_add_effects c w) as [Ha Hr].
  destruct (append_unless_present c _ Hn) as [Hn1 Hi1].
  set (w1 := exec (LeagueClientAuth.add_connection_callback c) w) in *.
  assert (Hl1 : auth_connection_callbacks (auth w1)
                = if mem Callback_eqb c (auth_connection_callbacks (auth w))
                  then auth_connection_callbacks (auth w)
                  else auth_connection_callbacks (auth w) ++ [c]).
  { rewrite Ha. now destruct (mem Callback_eqb c _). }
  rewrite <- Hl1 in Hn1, Hi1.
  split; [now split|]. split.
  { intros Hc Hx. rewrite Hr, Hx.
    destruct (mem Callback_eqb c _) eqn:Hm; [|reflexivity].
    apply (mem_In Callback_eqb Callback_eqb_eq) in Hm. contradiction. }
  destruct (remove_first_present Callback_eqb c (auth_connection_callbacks (auth w1))
              (proj2 (mem_In Callback_eqb Callback_eqb_eq c _) Hi1)) as [l' Hl'].
  destruct (remove_first_NoDup Callback_eqb Callback_eqb_eq c _ l' Hn1 Hl')
    as [Hn2 [Hx2 _]].
  assert (E2 : LeagueClientAuth.remove_connection_callback c w1
               = (Ok tt, with_auth (set_auth_connection_callbacks l') w1)).
  { unfold LeagueClientAuth.remove_connection_callback.
    unfold bind at 1, gets at 1. now rewrite Hl'. }
  unfold exec, result. rewrite !E2. cbn [fst snd].
  split; [reflexivity|]. split; [now split|]. split.
  - intro Hc.
    assert (Hm : mem Callback_eqb c (auth_connection_callbacks (auth w)) = false).
    { destruct (mem Callback_eqb c _) eqn:Hm; [|reflexivity].
      apply (mem_In Callback_eqb Callback_eqb_eq) in Hm. contradiction. }
    rewrite Hl1, Hm, (remove_first_appended Callback_eqb Callback_eqb_eq _ _ Hm) in Hl'.
    injection Hl' as <-. cbn. rewrite Ha, Hm. now destruct (auth w).
  - unfold LeagueClientAuth.remove_connection_callback.
    unfold bind at 1, gets at 1. cbn [auth with_auth auth_connection_callbacks
                                       set_auth_connection_callbacks].
    rewrite remove_first_absent; [reflexivity|].
    destruct (mem Callback_eqb c l') eqn:Hm; [|reflexivity].
    apply (mem_In Callback_eqb Callback_eqb_eq) in Hm. contradiction.
Qed.

Lemma auth_callback_round_trip_witness :
  result (LeagueClientAuth.add_connection_callback (Extern 3 true)) world_built
  = Raise (CallbackError 3) /\
  In (Extern 3 true)
    (auth_connection_callbacks
       (auth (exec (LeagueClientAuth.add_connection_callback (Extern 3 true))
                world_built))).
Proof.
  destruct (auth_callback_round_trip world_built (Extern 3 true))
    as [[Hi _] [Hr _]].
  - cbn. repeat constructor; cbn; intuition discriminate.
  - split; [apply Hr|exact Hi].
    + cbn. intuition discriminate.
    + reflexivity.
Defined.

(** ** LCUApi: the receive loop, frame by frame *)

(** On a frame of the event shape, whatever number spells the 8, one loop
    iteration is the delivery loop at the stripped path. *)
Lemma on_message_well_shaped (first : json) (name : string)
    (payload : list (string * json)) (w : World) :
  eq_8 first = true ->
  LCUApi.on_message run_handler (Json (JList [first; JStr name; JDict payload])) w
  = deliver (remove_all "OnJsonApiEvent_" name) (JDict payload)
            (api_event_handlers (api w)) w.
Proof.
  intro H8. set (event_path := remove_all "OnJsonApiEvent_" name).
  transitivity
    (try_except (deliver event_path (JDict payload) (api_event_handlers (api w)))
       (fun e => match e with JSONDecodeError => true | _ => false end)
       (fun _ => log WARNING "Received invalid JSON message") w).
  - unfold LCUApi.on_message, try_except, bind. cbn. rewrite H8. reflexivity.
  - destruct (deliver_delivers event_path (JDict payload)
                (api_event_handlers (api w)) w) as [w' [d [E _]]].
    unfold try_except. now rewrite E.
Qed.

(** A delivery after which the loop goes on returns and leaves the
    [LCUApi] object as it was. *)
Lemma on_message_goes_on (message : Message) (w : World) :
  goes_on (Frame message) = true ->
  exists w', LCUApi.on_message run_handler message w = (Ok tt, w') /\
             api w' = api w.
Proof.
  destruct message as [text|data]; cbn [goes_on].
  - intros _. eexists. now rewrite on_message_not_json.
  - intro H. apply orb_true_iff in H. destruct H as [H|H].
    + exists w. split; [|reflexivity].
      destruct data as [| | | |s|l|d]; try discriminate H.
      * destruct s as [|c s]; [reflexivity|].
        unfold LCUApi.on_message. run.
        now destruct (Nat.eqb (String.length s) 2).
      * cbn in H. apply orb_true_iff in H. destruct H as [H|H].
        -- apply negb_true_iff, Nat.eqb_neq in H.
           now apply (on_message_other_length (JList l) (List.length l)).
        -- destruct l as [|first [|name [|payload [|x l]]]];
             try (apply (on_message_other_length (JList _) _ w eq_refl);
                  cbn; congruence).
           apply negb_true_iff in H. now apply on_message_not_an_event.
      * cbn in H. apply negb_true_iff, Nat.eqb_neq in H.
        now apply (on_message_other_length (JDict d) (List.length d)).
    + destruct data as [| | | | |[|first [|[| | | |name| |] [|[| | | | | |payload] [|x l]]]]|];
        try discriminate H.
      rewrite (on_message_well_shaped first name payload w H).
      destruct (deliver_delivers (remove_all "OnJsonApiEvent_" name) (JDict payload)
                  (api_event_handlers (api w)) w) as [w' [d [E [A _]]]].
      exists w'. now split.
Qed.

(** A JSON frame after which the loop does not go on makes the iteration
    raise something the inner [except] does not catch. *)
Lemma on_message_stops (data : json) (w : World) :
  goes_on (Frame (Json data)) = false ->
  exists e, LCUApi.on_message run_handler (Json data) w = (Raise e, w) /\
            is_Exception e = true.
Proof.
  cbn [goes_on]. intro H. apply orb_false_iff in H. destruct H as [Hi Hw].
  destruct data as [|b|z|f|s|l|d]; try discriminate Hi;
    try (exists TypeError; split; reflexivity).
  - cbn in Hi. apply orb_false_iff in Hi. destruct Hi as [Hl H8].
    destruct l as [|first [|name [|payload [|x l]]]]; try discriminate Hl;
      try discriminate H8.
    apply negb_false_iff in H8. cbn in Hw.
    unfold LCUApi.on_message. run. rewrite H8. cbn.
    destruct name as [| | | |name| |]; try (exists AttributeError; split; reflexivity).
    cbn. destruct payload as [| | | | | |payload];
      try (exists AttributeError; split; reflexivity).
    congruence.
  - cbn in Hi. apply negb_false_iff, Nat.eqb_eq in Hi.
    destruct d as [|[k1 v1] [|[k2 v2] [|[k3 v3] [|x d]]]]; try discriminate Hi.
    exists KeyError. split; reflexivity.
Qed.

Lemma delivery_stops (r : Recv) (w : World) :
  goes_on r = false ->
  exists e,
    match r with
    | Closed => raise ConnectionClosed
    | Frame message => LCUApi.on_message run_handler message
    end w = (Raise e, w) /\ is_Exception e = true.
Proof.
  destruct r as [|[text|data]]; intro H.
  - exists ConnectionClosed. split; reflexivity.
  - discriminate H.
  - now apply on_message_stops.
Qed.

Lemma receive_loop_outcome (inbox : list Recv) (w : World) :
  api_running (api w) && api_ws (api w) = true ->
  exists r w',
    LCUApi.receive_loop run_handler inbox w = (r, w') /\ api w' = api w /\
    if forallb goes_on inbox then r = Ok AwaitingFrame
    else exists e, r = Raise e /\ is_Exception e = true.
Proof.
  revert w. induction inbox as [|r inbox IH]; intros w Hrun.
  - exists (Ok AwaitingFrame), w. cbn. unfold bind, gets. rewrite Hrun. now repeat split.
  - cbn [LCUApi.receive_loop forallb]. unfold bind at 1, gets at 1. rewrite Hrun.
    destruct (goes_on r) eqn:Hr.
    + destruct r as [|message]; [discriminate Hr|].
      destruct (on_message_goes_on message w Hr) as [w1 [E A]].
      unfold bind at 1. rewrite E.
      destruct (IH w1) as [r' [w' [E' [A' H']]]]; [now rewrite A|].
      exists r', w'. cbn [andb]. split; [exact E'|]. split; [congruence | exact H'].
    + destruct (delivery_stops r w Hr) as [e [E He]].
      unfold bind at 1. rewrite E. exists (Raise e), w. cbn [andb].
      split; [reflexivity|]. split; [reflexivity|]. now exists e.
Qed.

Lemma receive_loop_cons (r : Recv) (rest : list Recv) (w : World) :
  LCUApi.receive_loop run_handler (r :: rest) w
  = if api_running (api w) && api_ws (api w) then
      match match r with
            | Closed => raise ConnectionClosed
            | Frame message => LCUApi.on_message run_handler message
            end w with
      | (Ok _, w1) => LCUApi.receive_loop run_handler rest w1
      | (Raise e, w1) => (Raise e, w1)
      end
    else (Ok Returned, w).
Proof.
  cbn [LCUApi.receive_loop]. unfold bind at 1, gets at 1.
  destruct (api_running (api w) && api_ws (api w)); reflexivity.
Qed.

Lemma receive_loop_cut (pre rest : list Recv) (r : Recv) (w : World) :
  goes_on r = false ->
  LCUApi.receive_loop run_handler (pre ++ r :: rest) w
  = LCUApi.receive_loop run_handler (pre ++ [r]) w.
Proof.
  intro Hr. revert w. induction pre as [|p pre IH]; intro w;
    cbn [app]; rewrite !receive_loop_cons;
    (destruct (api_running (api w) && api_ws (api w)); [|reflexivity]).
  - destruct (delivery_stops r w Hr) as [e [E _]]. now rewrite E.
  - destruct (match p with
              | Closed => raise ConnectionClosed
              | Frame message => LCUApi.on_message run_handler message
              end w) as [[[]|e] w1]; [apply IH | reflexivity].
Qed.

(** X19: which deliveries keep the receive loop receiving.  With the loop
    running, [_handle_messages] never raises and leaves the [LCUApi] object
    as it was; it is still waiting for a frame after the whole inbox
    exactly when every delivery was text that is not JSON, a frame the
    shape guard lets pass (a string, an array or object of another length,
    a three-element array not starting with 8) or an event frame with a
    string name and an object payload.  Any other delivery -- the
    connection closing, a number, a boolean, [null], a three-key object, an
    event frame with another name or payload -- makes it return, and what
    was delivered after it is never read. *)
Theorem receive_loop_goes_on_exactly (inbox : list Recv) (w : World) :
  api_running (api w) && api_ws (api w) = true ->
  result (handle_messages inbox) w
  = Ok (if forallb goes_on inbox then AwaitingFrame else Returned) /\
  api (exec (handle_messages inbox) w) = api w /\
  forall pre r rest,
    inbox = pre ++ r :: rest -> goes_on r = false ->
    handle_messages inbox w = handle_messages (pre ++ [r]) w.
Proof.
  intro Hrun. unfold handle_messages, LCUApi._handle_messages, result, exec, try_except.
  destruct (receive_loop_outcome inbox w Hrun) as [r [w' [E [A H]]]].
  split; [|split].
  - rewrite E. destruct (forallb goes_on inbox); [now subst r|].
    destruct H as [e [-> He]]. rewrite He. now destruct e.
  - rewrite E. destruct (forallb goes_on inbox); [now subst r|].
    destruct H as [e [-> He]]. rewrite He. now destruct e.
  - intros pre r0 rest -> Hr.
    now rewrite (receive_loop_cut pre rest r0 w Hr).
Qed.

Lemma receive_loop_goes_on_exactly_witness :
  result (handle_messages
            [Frame (Json (JStr "abc")); Frame lobby_event;
             Frame (Json (JList [JInt 8; JInt 0; JDict []])); Frame lobby_event])
    world_live
  = Ok Returned.
Proof.
  apply (receive_loop_goes_on_exactly
           [Frame (Json (JStr "abc")); Frame lobby_event;
            Frame (Json (JList [JInt 8; JInt 0; JDict []])); Frame lobby_event]
           world_live).
  reflexivity.
Defined.

(** ** LCUApi: the table of subscriptions *)

Lemma In_store {V : Type} (k k0 : string) (v v0 : V) (d : list (string * V)) :
  In (k, v) (store k0 v0 d) -> (k = k0 /\ v = v0) \/ In (k, v) d.
Proof.
  induction d as [|[k' v'] d IH]; cbn.
  - intros [[= <- <-]|[]]. now left.
  - destruct (String.eqb_spec k' k0) as [E|E]; cbn.
    + intros [[= <- <-]|H]; [left; now split | right; now right].
    + intros [H|H]; [right; now left|].
      destruct (IH H) as [H'|H']; [now left | right; now right].
Qed.

Lemma store_distinct_keys {V : Type} (k : string) (v : V) (d : list (string * V)) :
  distinct_keys d -> distinct_keys (store k v d).
Proof.
  unfold distinct_keys. intro H. rewrite store_keys.
  destruct (has_key k d) eqn:E; [exact H|].
  apply NoDup_app; [exact H | repeat constructor; intros [] |].
  intros x Hx [<-|[]]. apply has_key_In in Hx. congruence.
Qed.

Lemma lookup_distinct {V : Type} (k : string) (v : V) (d : list (string * V)) :
  distinct_keys d -> In (k, v) d -> lookup k d = Some v.
Proof.
  unfold distinct_keys. induction d as [|[k' v'] d IH]; cbn; [tauto|].
  intros Hn [[= -> ->]|Hin]; [now rewrite String.eqb_refl|].
  inversion Hn as [|? ? Hk Hn']; subst.
  destruct (String.eqb_spec k' k) as [->|E]; [|now apply IH].
  exfalso. apply Hk. now apply (in_map fst) in Hin.
Qed.

Lemma store_no_duplicates {A : Type} (k : string) (l : list A)
    (d : list (string * list A)) :
  NoDup l -> no_duplicates d -> no_duplicates (store k l d).
Proof.
  intros Hl Hd k' l' Hin. destruct (In_store _ _ _ _ _ Hin) as [[_ ->]|H];
    [exact Hl | exact (Hd _ _ H)].
Qed.

Lemma handlers_at_NoDup {A : Type} (k : string) (d : list (string * list A)) :
  no_duplicates d -> NoDup (handlers_at k d).
Proof.
  intro Hd. unfold handlers_at. destruct (lookup k d) as [l|] eqn:E; [|constructor].
  exact (Hd _ _ (lookup_In _ _ _ E)).
Qed.

Lemma append_handler_unless_present (cb : Handler) (l : list Handler) :
  NoDup l ->
  NoDup (if mem Handler_eqb cb l then l else l ++ [cb]) /\
  In cb (if mem Handler_eqb cb l then l else l ++ [cb]).
Proof.
  intro Hl. destruct (mem Handler_eqb cb l) eqn:Hm.
  - split; [exact Hl|]. now apply (mem_In Handler_eqb Handler_eqb_eq).
  - split.
    + apply NoDup_app; [exact Hl | repeat constructor; intros [] |].
      intros x Hx [<-|[]].
      apply (mem_In Handler_eqb Handler_eqb_eq) in Hx. congruence.
    + apply in_or_app. right. now left.
Qed.

(** The table [_store_subscription] leaves. *)
Lemma store_subscription_table (event_path : string) (cb : Handler) (w : World) :
  let table := api_event_handlers (api w) in
  let registered := handlers_at event_path table in
  let table' :=
    api_event_handlers (api (exec (LCUApi.subscribe event_path cb) w)) in
  result (LCUApi.subscribe event_path cb) w = Ok tt /\
  handlers_at event_path table'
  = (if mem Handler_eqb cb registered then registered else registered ++ [cb]) /\
  (forall other, other <> event_path ->
                 handlers_at other table' = handlers_at other table) /\
  has_key event_path table' = true /\
  (distinct_keys table -> distinct_keys table') /\
  (no_duplicates table -> no_duplicates table') /\
  (has_key event_path table = true -> mem Handler_eqb cb registered = true ->
   table' = table).
Proof.
  cbn zeta.
  assert (Ht : api_event_handlers (api (exec (LCUApi.subscribe event_path cb) w))
               = let table := api_event_handlers (api w) in
                 let handlers := if has_key event_path table then table
                                 else store event_path [] table in
                 let registered := handlers_at event_path handlers in
                 if mem Handler_eqb cb registered then handlers
                 else store event_path (registered ++ [cb]) handlers).
  { unfold LCUApi.subscribe, LCUApi._store_subscription, exec. run.
    now destruct (api_is_connected _ && negb _ && _). }
  assert (Hr : result (LCUApi.subscribe event_path cb) w = Ok tt).
  { unfold LCUApi.subscribe, LCUApi._store_subscription, result. run.
    now destruct (api_is_connected _ && negb _ && _). }
  rewrite Ht. cbn zeta. clear Ht. split; [exact Hr|]. clear Hr.
  set (table := api_event_handlers (api w)).
  assert (Hreg : handlers_at event_path
                   (if has_key event_path table then table
                    else store event_path [] table)
                 = handlers_at event_path table).
  { unfold has_key. destruct (lookup event_path table) eqn:E; [reflexivity|].
    rewrite handlers_at_store_same. unfold handlers_at. now rewrite E. }
  rewrite Hreg.
  split; [|split; [|split; [|split; [|split]]]];
    [| | | | |intros Hk Hm; now rewrite Hm, Hk].
  - destruct (mem Handler_eqb cb (handlers_at event_path table));
      [exact Hreg | apply handlers_at_store_same].
  - intros other Ho.
    destruct (mem Handler_eqb cb (handlers_at event_path table));
      rewrite ?(handlers_at_store_other _ _ _ _ Ho);
      destruct (has_key event_path table);
      rewrite ?(handlers_at_store_other _ _ _ _ Ho); reflexivity.
  - destruct (mem Handler_eqb cb (handlers_at event_path table)).
    + destruct (has_key event_path table) eqn:E; [exact E|].
      unfold has_key. now rewrite lookup_store_same.
    + unfold has_key. now rewrite lookup_store_same.
  - intro Hd.
    assert (Hd' : distinct_keys (if has_key event_path table then table
                                 else store event_path [] table))
      by (destruct (has_key event_path table);
          [exact Hd | now apply store_distinct_keys]).
    destruct (mem Handler_eqb cb (handlers_at event_path table));
      [exact Hd' | now apply store_distinct_keys].
  - intro Hn.
    assert (Hn' : no_duplicates (if has_key event_path table then table
                                 else store event_path [] table))
      by (destruct (has_key event_path table);
          [exact Hn | apply store_no_duplicates; [constructor | exact Hn]]).
    destruct (mem Handler_eqb cb (handlers_at event_path table)) eqn:Hm;
      [exact Hn'|].
    apply store_no_duplicates; [|exact Hn'].
    pose proof (append_handler_unless_present cb _
                  (handlers_at_NoDup event_path table Hn)) as [H _].
    now rewrite Hm in H.
Qed.

(** X20: [subscribe] registers a handler once.  It never raises; afterwards
    the path is a key of the table and the handler is in its list, which is
    the old list with the handler appended unless it was there; the lists
    of the other paths are as before.  A table with distinct keys and no
    handler twice under a key stays such a table, and subscribing the same
    handler again leaves the table as it is. *)
Theorem subscribe_registers_once (w : World) (event_path : string) (cb : Handler) :
  distinct_keys (api_event_handlers (api w)) ->
  no_duplicates (api_event_handlers (api w)) ->
  let w' := exec (LCUApi.subscribe event_path cb) w in
  let table := api_event_handlers (api w) in
  let table' := api_event_handlers (api w') in
  result (LCUApi.subscribe event_path cb) w = Ok tt /\
  In cb (handlers_at event_path table') /\
  (exists added, handlers_at event_path table' = handlers_at event_path table ++ added /\
                 (added = [] \/ added = [cb])) /\
  (forall other, other <> event_path ->
                 handlers_at other table' = handlers_at other table) /\
  (distinct_keys table' /\ no_duplicates table') /\
  api_event_handlers (api (exec (LCUApi.subscribe event_path cb) w')) = table'.
Proof.
  intros Hd Hn. cbn zeta.
  destruct (store_subscription_table event_path cb w)
    as (Hr & Hat & Hother & Hk & Hd' & Hn' & _).
  cbn zeta in *.
  pose proof (append_handler_unless_present cb _
                (handlers_at_NoDup event_path _ Hn)) as [_ Hin].
  rewrite <- Hat in Hin.
  split; [exact Hr|]. split; [exact Hin|]. split.
  { rewrite Hat. destruct (mem Handler_eqb cb _).
    - exists []. rewrite app_nil_r. split; [reflexivity | now left].
    - exists [cb]. split; [reflexivity | now right]. }
  split; [exact Hother|]. split; [split; [now apply Hd' | now apply Hn']|].
  destruct (store_subscription_table event_path cb
              (exec (LCUApi.subscribe event_path cb) w)) as (_ & _ & _ & _ & _ & _ & Hsame).
  apply Hsame; [exact Hk|].
  now apply (mem_In Handler_eqb Handler_eqb_eq).
Qed.

Lemma subscribe_registers_once_witness :
  In bound_handle_gameflow_update
    (handlers_at "lol-gameflow_v1_session"
       (api_event_handlers
          (api (exec (LCUApi.subscribe "lol-gameflow_v1_session"
                        bound_handle_gameflow_update) world_init)))).
Proof.
  apply (subscribe_registers_once world_init "lol-gameflow_v1_session"
           bound_handle_gameflow_update).
  - constructor.
  - intros k l [].
Defined.

Lemma remove_all_absent (old s : string) :
  occurs old s = false -> remove_all old s = s.
Proof.
  unfold remove_all. induction s as [|c s IH]; [reflexivity|].
  cbn [occurs remove_all_from]. intro H. apply orb_false_iff in H.
  destruct H as [Hp Ho]. rewrite Hp. now rewrite (IH Ho).
Qed.

Lemma prefix_append (p s : string) : String.prefix p (p ++ s) = true.
Proof.
  induction p as [|c p IH]; cbn; [now destruct s|].
  destruct (ascii_dec c c); [exact IH | congruence].
Qed.

Lemma matching_In (event_path registered_path : string) (h : Handler)
    (handlers : list (string * list Handler)) :
  startswith event_path registered_path = true ->
  In h (handlers_at registered_path handlers) ->
  In h (matching event_path handlers).
Proof.
  intros Hs Hin. unfold handlers_at in Hin.
  destruct (lookup registered_path handlers) as [l|] eqn:E; [|contradiction].
  apply lookup_In in E. unfold matching. apply in_flat_map.
  exists (registered_path, l). split; [exact E|]. now rewrite Hs.
Qed.

(** X21: a subscribed handler gets its events.  After
    [subscribe event_path cb], an event frame named like the subscription
    message of the path -- ["OnJsonApiEvent_"] followed by the path -- or
    like any resource below it is dispatched to [cb] with the frame's
    payload, provided the marker does not occur in what follows it. *)
Theorem subscribed_handler_receives_event (w : World) (event_path suffix : string)
    (cb : Handler) (payload : list (string * json)) :
  occurs "OnJsonApiEvent_" (event_path ++ suffix) = false ->
  let w' := exec (LCUApi.subscribe event_path cb) w in
  let name := ("OnJsonApiEvent_" ++ event_path)%string in
  LCUApi.subscribe_msg event_path = JList [JInt 5; JStr name; JDict []] /\
  exists w'' d,
    LCUApi.on_message run_handler (event_frame (name ++ suffix) payload) w'
    = (Ok tt, w'') /\
    trace w'' = trace w' ++ d /\
    In (Invoked cb (JDict payload)) (invoked d).
Proof.
  intro Ho. cbn zeta. split; [reflexivity|].
  set (w' := exec (LCUApi.subscribe event_path cb) w).
  rewrite on_message_event_frame.
  assert (Hn : remove_all "OnJsonApiEvent_"
                 (("OnJsonApiEvent_" ++ event_path) ++ suffix)
               = (event_path ++ suffix)%string).
  { rewrite <- (remove_all_absent _ _ Ho). unfold remove_all. cbn.
    now destruct (event_path ++ suffix)%string. }
  rewrite Hn.
  destruct (deliver_delivers (event_path ++ suffix) (JDict payload)
              (api_event_handlers (api w')) w') as [w'' [d [E [_ [T I]]]]].
  exists w'', d. split; [exact E|]. split; [exact T|].
  rewrite I. apply (in_map (fun h => Invoked h (JDict payload))).
  apply (matching_In _ event_path).
  - apply prefix_append.
  - destruct (store_subscription_table event_path cb w) as (_ & Hat & _).
    cbn zeta in Hat. fold w' in Hat. rewrite Hat.
    destruct (mem Handler_eqb cb _) eqn:Hm.
    + now apply (mem_In Handler_eqb Handler_eqb_eq).
    + apply in_or_app. right. now left.
Qed.

Lemma subscribed_handler_receives_event_witness :
  exists w'' d,
    LCUApi.on_message run_handler
      (event_frame "OnJsonApiEvent_lol-lobby_v2_lobby/members" [])
      (exec (LCUApi.subscribe "lol-lobby_v2_lobby" (Plain (Extern 7 false)))
         world_live)
    = (Ok tt, w'') /\
    trace w'' = trace (exec (LCUApi.subscribe "lol-lobby_v2_lobby"
                               (Plain (Extern 7 false))) world_live) ++ d /\
    In (Invoked (Plain (Extern 7 false)) (JDict [])) (invoked d).
Proof.
  apply (subscribed_handler_receives_event world_live "lol-lobby_v2_lobby"
           "/members" (Plain (Extern 7 false)) []).
  reflexivity.
Defined.

(** X22: [unsubscribe] after [subscribe].  On a table with distinct keys
    and no handler twice under a key, removing the handler just subscribed
    returns normally and leaves the path a key without that handler, the
    other paths untouched; removing it a second time raises [ValueError].
    [unsubscribe] without a handler empties the list of the path, keeps the
    key and never raises. *)
Theorem unsubscribe_after_subscribe (w : World) (event_path : string) (cb : Handler) :
  distinct_keys (api_event_handlers (api w)) ->
  no_duplicates (api_event_handlers (api w)) ->
  let w1 := exec (LCUApi.subscribe event_path cb) w in
  let w2 := exec (LCUApi.unsubscribe event_path (Some cb)) w1 in
  let w3 := exec (LCUApi.unsubscribe event_path None) w1 in
  result (LCUApi.unsubscribe event_path (Some cb)) w1 = Ok tt /\
  ~ In cb (handlers_at event_path (api_event_handlers (api w2))) /\
  has_key event_path (api_event_handlers (api w2)) = true /\
  (forall other, other <> event_path ->
     handlers_at other (api_event_handlers (api w2))
     = handlers_at other (api_event_handlers (api w))) /\
  result (LCUApi.unsubscribe event_path (Some cb)) w2 = Raise ValueError /\
  result (LCUApi.unsubscribe event_path None) w1 = Ok tt /\
  lookup event_path (api_event_handlers (api w3)) = Some [].
Proof.
  intros Hd Hn. cbn zeta.
  destruct (store_subscription_table event_path cb w)
    as (_ & Hat & Hother & Hk & _ & Hn' & _).
  cbn zeta in *. specialize (Hn' Hn).
  set (w1 := exec (LCUApi.subscribe event_path cb) w) in *.
  pose proof (append_handler_unless_present cb _
                (handlers_at_NoDup event_path _ Hn)) as [_ Hin].
  rewrite <- Hat in Hin.
  unfold has_key in Hk. unfold handlers_at in Hin.
  destruct (lookup event_path (api_event_handlers (api w1))) as [registered|] eqn:El;
    [|discriminate Hk].
  assert (Hnr : NoDup registered) by exact (Hn' _ _ (lookup_In _ _ _ El)).
  destruct (remove_first_present Handler_eqb cb registered
              (proj2 (mem_In Handler_eqb Handler_eqb_eq cb _) Hin)) as [rest Hr].
  destruct (remove_first_NoDup Handler_eqb Handler_eqb_eq cb _ rest Hnr Hr)
    as [_ [Hx _]].
  assert (E2 : LCUApi.unsubscribe event_path (Some cb) w1
               = (Ok tt,
                  with_trace (fun t => t ++ [Log DEBUG ("Removed specific callback for event: " ++ event_path)%string])
                    (with_api (set_api_event_handlers
                                 (store event_path rest (api_event_handlers (api w1))))
                       w1))).
  { unfold LCUApi.unsubscribe. unfold bind at 1, gets at 1. rewrite El, Hr.
    reflexivity. }
  assert (E3 : LCUApi.unsubscribe event_path None w1
               = (Ok tt,
                  with_trace (fun t => t ++ [Log DEBUG ("Removed all callbacks for event: " ++ event_path)%string])
                    (with_api (set_api_event_handlers
                                 (store event_path [] (api_event_handlers (api w1))))
                       w1))).
  { unfold LCUApi.unsubscribe. unfold bind at 1, gets at 1. rewrite El.
    reflexivity. }
  unfold exec, result. rewrite E2, E3. cbn [fst snd].
  cbn [api with_trace with_api api_event_handlers set_api_event_handlers].
  split; [reflexivity|]. split; [now rewrite handlers_at_store_same|].
  split; [unfold has_key; now rewrite lookup_store_same|].
  split; [intros other Ho; rewrite handlers_at_store_other by exact Ho;
          now apply Hother|].
  split; [|split; [reflexivity | apply lookup_store_same]].
  unfold LCUApi.unsubscribe. unfold bind at 1, gets at 1.
  cbn [api with_trace with_api api_event_handlers set_api_event_handlers].
  rewrite lookup_store_same, remove_first_absent; [reflexivity|].
  destruct (mem Handler_eqb cb rest) eqn:Hm; [|reflexivity].
  apply (mem_In Handler_eqb Handler_eqb_eq) in Hm. contradiction.
Qed.

Lemma unsubscribe_after_subscribe_witness :
  result (LCUApi.unsubscribe "lol-gameflow_v1_session"
            (Some bound_handle_gameflow_update))
    (exec (LCUApi.unsubscribe "lol-gameflow_v1_session"
             (Some bound_handle_gameflow_update))
       (exec (LCUApi.subscribe "lol-gameflow_v1_session"
                bound_handle_gameflow_update) world_init))
  = Raise ValueError.
Proof.
  apply (unsubscribe_after_subscribe world_init "lol-gameflow_v1_session"
           bound_handle_gameflow_update).
  - constructor.
  - intros k l [].
Defined.

(** ** LCUApi: requests that are answered *)



(** ** GameTracker: stopping, and events end to end *)

(** X24: [GameTracker.stop] only asks OBS to stop.  It never raises; it
    starts one stop-recording worker when the recording flag is set and
    OBS is connected and none otherwise; and it leaves the tracker's phase
    and recording flag, the subscriptions to the League client and the OBS
    client object as they are. *)
Theorem tracker_stop_only_stops_recording (w : World) :
  let w' := exec GameTracker.stop w in
  result GameTracker.stop w = Ok tt /\
  threads w'
  = threads w ++ (if recording_started (tracker w) && obs_connected (obs w)
                  then [T_stop_recording (Some on_record_stop)] else []) /\
  trace w' = trace w ++ [Log INFO "Stopping game tracker..."] /\
  tracker w' = tracker w /\ api w' = api w /\ obs w' = obs w /\ auth w' = auth w.
Proof.
  destruct w as [a ap o t th tr]. destruct t as [phase recording cb].
  destruct o as [ws connected profiles rec handlers callbacks chandlers].
  unfold GameTracker.stop, GameTracker._stop_recording,
    OBSClient.stop_recording, OBSClient.is_connected.
  destruct recording, connected; cbn; rewrite ?app_nil_r; repeat split; reflexivity.
Qed.

#[global] Instance settles_preorder (p : GamePhase) : PreOrder (settles p).
Proof.
  split.
  - intro w. now right.
  - intros w1 w2 w3 H1 [H2|H2]; [now left|].
    destruct H1 as [H1|H1]; [left | right]; congruence.
Qed.

Lemma settles_same_phase (p : GamePhase) {A} (m : M A) :
  Respects same_phase m -> Respects (settles p) m.
Proof. intros H w. right. apply H. Qed.

Section EventsEndToEnd.
Variable event_path : string.
Variable payload : list (string * json).
Variables new_phase queue_info : json.
Variable p : GamePhase.
Hypothesis fields : gameflow_fields (JDict payload) = inr (new_phase, queue_info, p).

Lemma gameflow_handler_sets_phase (w : World) :
  current_phase
    (tracker (snd (guarded_call event_path (JDict payload)
                     bound_handle_gameflow_update w))) = p.
Proof.
  unfold guarded_call, try_except.
  unfold bind at 1, log at 1, emit at 1, modify at 1.
  unfold bind at 1, emit at 1, modify at 1.
  cbn [run_handler]. rewrite handle_gameflow_update_cases, fields.
  match goal with
  | |- context [GamePhase_eqb p (current_phase (tracker ?w1))] =>
      destruct (GamePhase_eqb p (current_phase (tracker w1))) eqn:E; set (w2 := w1) in *
  end.
  - cbn. apply GamePhase_eqb_eq in E. cbn in E. now symmetry.
  - pose proof (on_phase_change_returns new_phase queue_info p w2) as R.
    pose proof (on_phase_change_effects new_phase queue_info p w2) as [H _].
    destruct (on_phase_change new_phase queue_info p w2) as [r w3].
    cbn in R, H. subst r. exact H.
Qed.

Lemma guarded_call_settles (h : Handler) :
  h <> bound_handle_champselect_update ->
  Respects (settles p) (guarded_call event_path (JDict payload) h).
Proof.
  intro Hh. destruct h as [c| |]; [| |congruence].
  - apply settles_same_phase. unfold guarded_call. cbn [run_handler]. same_phase.
  - intro w. left. apply gameflow_handler_sets_phase.
Qed.

Lemma callbacks_settle (callbacks : list Handler) (w : World) :
  ~ In bound_handle_champselect_update callbacks ->
  exists w',
    for_each callbacks (guarded_call event_path (JDict payload)) w = (Ok tt, w') /\
    settles p w w' /\
    (In bound_handle_gameflow_update callbacks -> current_phase (tracker w') = p).
Proof.
  revert w. induction callbacks as [|h callbacks IH]; intros w Hn.
  - exists w. split; [reflexivity|]. split; [reflexivity | intros []].
  - cbn [for_each]. unfold bind.
    destruct (guarded_call_delivers event_path (JDict payload) h w)
      as [w1 [d [E _]]].
    assert (S1 : settles p w w1).
    { pose proof (guarded_call_settles h) as G.
      specialize (G (fun Heq => Hn (or_introl Heq)) w). now rewrite E in G. }
    rewrite E.
    destruct (IH w1 (fun H => Hn (or_intror H))) as [w2 [E2 [S2 P2]]].
    exists w2. split; [exact E2|]. split; [etransitivity; eassumption|].
    intros [->|Hin]; [|now apply P2].
    pose proof (gameflow_handler_sets_phase w) as G. rewrite E in G. cbn in G.
    destruct S2 as [S2|S2]; congruence.
Qed.

Lemma deliver_settles (handlers : list (string * list Handler)) (w : World) :
  ~ In bound_handle_champselect_update (matching event_path handlers) ->
  exists w',
    deliver event_path (JDict payload) handlers w = (Ok tt, w') /\
    settles p w w' /\
    (In bound_handle_gameflow_update (matching event_path handlers) ->
     current_phase (tracker w') = p).
Proof.
  revert w. induction handlers as [|[registered_path callbacks] handlers IH];
    intros w Hn.
  - exists w. split; [reflexivity|]. split; [reflexivity | intros []].
  - cbn [matching flat_map] in Hn |- *. fold (matching event_path handlers) in *.
    unfold deliver. cbn [for_each]. fold (deliver event_path (JDict payload) handlers).
    unfold bind, when_.
    destruct (startswith event_path registered_path).
    + destruct (callbacks_settle callbacks w) as [w1 [E1 [S1 P1]]];
        [intro H; apply Hn, in_or_app; now left|].
      rewrite E1.
      destruct (IH w1) as [w2 [E2 [S2 P2]]];
        [intro H; apply Hn, in_or_app; now right|].
      exists w2. split; [exact E2|]. split; [etransitivity; eassumption|].
      intro Hin. apply in_app_or in Hin. destruct Hin as [Hin|Hin]; [|now apply P2].
      specialize (P1 Hin). destruct S2 as [S2|S2]; congruence.
    + cbn [ret]. destruct (IH w) as [w2 [E2 [S2 P2]]]; [exact Hn|].
      exists w2. split; [exact E2|]. split; [exact S2 | exact P2].
Qed.
End EventsEndToEnd.

(** X25: from the receive loop to the tracker.  When an event frame
    reaches the tracker's gameflow handler -- the handler is registered
    under a path the stripped event name starts with -- and not its
    champ-select handler, then one loop iteration returns and leaves
    [current_phase] at the phase the event's fields map to, whatever other
    handlers the event reaches and whatever they do. *)
Theorem gameflow_event_sets_phase (w : World) (name : string)
    (payload : list (string * json)) (new_phase queue_info : json) (p : GamePhase) :
  gameflow_fields (JDict payload) = inr (new_phase, queue_info, p) ->
  let reached :=
    matching (remove_all "OnJsonApiEvent_" name) (api_event_handlers (api w)) in
  In bound_handle_gameflow_update reached ->
  ~ In bound_handle_champselect_update reached ->
  let m := LCUApi.on_message run_handler (event_frame name payload) in
  result m w = Ok tt /\ current_phase (tracker (exec m w)) = p.
Proof.
  intros Hf reached Hin Hn m. subst m reached. unfold result, exec.
  rewrite on_message_event_frame.
  destruct (deliver_settles (remove_all "OnJsonApiEvent_" name) payload
              new_phase queue_info p Hf (api_event_handlers (api w)) w Hn)
    as [w' [E [_ P]]].
  rewrite E. split; [reflexivity | now apply P].
Qed.

Lemma gameflow_event_sets_phase_witness :
  current_phase
    (tracker (exec (LCUApi.on_message run_handler (gameflow_event "InProgress"))
                world_live))
  = IN_GAME.
Proof.
  apply (gameflow_event_sets_phase world_live
           "OnJsonApiEvent_lol-gameflow_v1_session"
           [("uri", JStr "/lol-gameflow/v1/session");
            ("data", JDict [("phase", JStr "InProgress")])]
           (JStr "InProgress") (JStr "Unknown Queue") IN_GAME).
  - reflexivity.
  - cbn. now left.
  - cbn. intuition discriminate.
Defined.

(** ** LeagueClientAuth: reading an option off the command line *)

Section StringFacts.
Local Open Scope string_scope.

Lemma prefix_empty (s : string) : String.prefix EmptyString s = true.
Proof. now destruct s. Qed.

Lemma prefix_cons (c : ascii) (p s : string) :
  String.prefix (String c p) (String c s) = String.prefix p s.
Proof. cbn. destruct (ascii_dec c c); [reflexivity | congruence]. Qed.

Lemma prefix_split (p s : string) :
  String.prefix p s = true -> s = p ++ PyLib.drop (String.length p) s.
Proof.
  revert s. induction p as [|c p IH]; intros s H; [reflexivity|].
  destruct s as [|c' s]; [discriminate H|]. cbn in H.
  destruct (ascii_dec c c') as [<-|]; [|discriminate H].
  cbn. f_equal. now apply IH.
Qed.

Lemma prefix_app_same (p x s : string) :
  String.prefix (p ++ x) (p ++ s) = String.prefix x s.
Proof.
  induction p as [|c p IH]; [reflexivity|].
  cbn [append]. now rewrite prefix_cons.
Qed.

Lemma take_while_split (f : ascii -> bool) (s : string) :
  s = PyLib.take_while f s ++ PyLib.drop (String.length (PyLib.take_while f s)) s.
Proof.
  induction s as [|c s IH]; [reflexivity|]. cbn.
  destruct (f c); [|reflexivity]. cbn. now f_equal.
Qed.

Lemma take_while_all (f : ascii -> bool) (s : string) (c : ascii) :
  In c (list_ascii_of_string (PyLib.take_while f s)) -> f c = true.
Proof.
  induction s as [|c' s IH]; cbn; [tauto|].
  destruct (f c') eqn:E; cbn; [|tauto].
  intros [<-|H]; [exact E | now apply IH].
Qed.

Lemma append_assoc (a b c : string) : (a ++ b) ++ c = a ++ (b ++ c).
Proof. induction a as [|x a IH]; cbn; [reflexivity | now f_equal]. Qed.

Lemma length_append (a b : string) :
  String.length (a ++ b) = String.length a + String.length b.
Proof. induction a as [|x a IH]; cbn; [reflexivity | now f_equal]. Qed.

Lemma first_match_occurs (at_head : string -> option string)
    (found : string -> string) (s value : string) :
  (forall s' v, at_head s' = Some v -> String.prefix (found v) s' = true) ->
  PyLib.first_match at_head s = Some value ->
  occurs (found value) s = true.
Proof.
  intro H. induction s as [|c s IH]; cbn [PyLib.first_match occurs].
  - destruct (at_head EmptyString) eqn:E; [|discriminate].
    intros [= <-]. now rewrite (H _ _ E).
  - destruct (at_head (String c s)) eqn:E.
    + intros [= <-]. now rewrite (H _ _ E).
    + intro Hf. rewrite (IH Hf). apply orb_true_r.
Qed.

Lemma first_match_head (at_head : string -> option string) (s : string) :
  PyLib.first_match at_head s = None -> at_head s = None.
Proof. destruct s; cbn; now destruct (at_head _). Qed.

Lemma first_match_none (at_head : string -> option string) (x s : string) :
  (forall s', String.prefix x s' = true -> at_head s' <> None) ->
  PyLib.first_match at_head s = None -> occurs x s = false.
Proof.
  intro H. induction s as [|c s IH]; cbn [PyLib.first_match occurs].
  - destruct (at_head EmptyString) eqn:E; [discriminate|]. intros _.
    destruct (String.prefix x EmptyString) eqn:P; [|reflexivity].
    now destruct (H _ P).
  - destruct (at_head (String c s)) eqn:E; [discriminate|]. intro Hf.
    rewrite (IH Hf).
    destruct (String.prefix x (String c s)) eqn:P; [|reflexivity].
    now destruct (H _ P).
Qed.

Lemma match_bare_sound (key s value : string) :
  PyLib.match_bare key s = Some value ->
  String.prefix (key ++ value) s = true /\ PyLib.nonempty value = true /\
  forall c, In c (list_ascii_of_string value) -> PyLib.bare_char c = true.
Proof.
  unfold PyLib.match_bare. destruct (String.prefix key s) eqn:P; [|discriminate].
  destruct (PyLib.nonempty _) eqn:N; [|discriminate]. intros [= <-].
  split; [|split; [exact N | apply take_while_all]].
  rewrite (prefix_split _ _ P) at 2. rewrite prefix_app_same.
  set (rest := PyLib.drop (String.length key) s).
  rewrite (take_while_split PyLib.bare_char rest) at 2. apply prefix_append.
Qed.

Lemma match_quoted_sound (key s value : string) :
  PyLib.match_quoted key s = Some value ->
  String.prefix (key ++ String PyLib.dquote (value ++ String PyLib.dquote EmptyString)) s
  = true /\
  PyLib.nonempty value = true /\
  forall c, In c (list_ascii_of_string value) -> PyLib.quoted_char c = true.
Proof.
  unfold PyLib.match_quoted.
  destruct (String.prefix (key ++ String PyLib.dquote EmptyString) s) eqn:P;
    [|discriminate].
  set (rest := PyLib.drop (String.length key + 1) s).
  destruct (PyLib.nonempty _) eqn:N; [|discriminate].
  destruct (String.prefix _ (PyLib.drop _ rest)) eqn:Q; [|discriminate].
  intros [= <-]. split; [|split; [exact N | apply take_while_all]].
  apply prefix_split in P. rewrite length_append in P. cbn [String.length] in P.
  fold rest in P.
  pose proof (take_while_split PyLib.quoted_char rest) as R.
  remember (PyLib.take_while PyLib.quoted_char rest) as value eqn:Hv.
  remember (PyLib.drop (String.length value) rest) as rest2 eqn:Hr2.
  clearbody rest. subst s rest.
  rewrite !append_assoc, prefix_app_same. cbn [append]. rewrite prefix_cons.
  rewrite prefix_app_same. exact Q.
Qed.

Lemma first_match_found (at_head : string -> option string) (s value : string) :
  PyLib.first_match at_head s = Some value ->
  exists s', at_head s' = Some value.
Proof.
  induction s as [|c s IH]; cbn.
  - destruct (at_head EmptyString) as [v|] eqn:E; [|discriminate].
    intro H. injection H as ->. exists EmptyString. exact E.
  - destruct (at_head (String c s)) as [v|] eqn:E.
    + intro H. injection H as ->. exists (String c s). exact E.
    + exact IH.
Qed.
End StringFacts.

(** X26: an option value read off the command line is really there.  When
    the two patterns of [get_auth_data] give a value for [key], the value
    is not empty, holds no double quote, and the command line contains the
    key immediately followed by the value -- bare, or between double
    quotes.  When they give none, the command line nowhere has the key
    followed by a character that is neither whitespace nor a double
    quote. *)
Theorem find_option_sound (key s : string) :
  (forall value,
      PyLib.find_option key s = Some value ->
      value <> EmptyString /\
      ~ In PyLib.dquote (list_ascii_of_string value) /\
      (occurs (key ++ value) s = true \/
       occurs (key ++ String PyLib.dquote (value ++ String PyLib.dquote EmptyString)) s
       = true)) /\
  (PyLib.find_option key s = None ->
   forall c, PyLib.bare_char c = true ->
             occurs (key ++ String c EmptyString) s = false).
Proof.
  unfold PyLib.find_option. split.
  - intros value.
    destruct (PyLib.first_match (PyLib.match_bare key) s) as [v|] eqn:B.
    + intros [= ->].
      destruct (first_match_found _ _ _ B) as [s' Hs'].
      destruct (match_bare_sound _ _ _ Hs') as [_ [N A]].
      split; [now destruct value|]. split.
      * intro Hq. specialize (A _ Hq). unfold PyLib.bare_char in A.
        now rewrite Ascii.eqb_refl in A.
      * left. apply (first_match_occurs (PyLib.match_bare key)
                       (fun v => (key ++ v)%string) s value); [|exact B].
        intros s0 v0 H0. now apply match_bare_sound.
    + intro Q.
      destruct (first_match_found _ _ _ Q) as [s' Hs'].
      destruct (match_quoted_sound _ _ _ Hs') as [_ [N A]].
      split; [now destruct value|]. split.
      * intro Hq. specialize (A _ Hq). unfold PyLib.quoted_char in A.
        now rewrite Ascii.eqb_refl in A.
      * right. apply (first_match_occurs (PyLib.match_quoted key)
                        (fun v => (key ++ String PyLib.dquote
                                            (v ++ String PyLib.dquote EmptyString))%string)
                        s value); [|exact Q].
        intros s0 v0 H0. now apply match_quoted_sound.
  - destruct (PyLib.first_match (PyLib.match_bare key) s) eqn:B; [discriminate|].
    intros _ c Hc.
    apply (first_match_none (PyLib.match_bare key)); [|exact B].
    intros s' P. unfold PyLib.match_bare.
    pose proof (prefix_split _ _ P) as Hs'.
    rewrite length_append in Hs'. cbn [String.length] in Hs'.
    assert (Pk : String.prefix key s' = true).
    { rewrite Hs', append_assoc. apply prefix_append. }
    rewrite Pk.
    assert (Hd : PyLib.drop (String.length key) s'
                 = String c (PyLib.drop (String.length key + 1) s')).
    { rewrite Hs' at 1. rewrite append_assoc.
      generalize (PyLib.drop (String.length key + 1) s'). clear. intro t.
      induction key as [|k key IH]; [reflexivity | exact IH]. }
    rewrite Hd. cbn. rewrite Hc. discriminate.
Qed.

Lemma find_option_sound_witness :
  occurs "--app-port=51234"
    "LeagueClientUx.exe --remoting-auth-token=Zm9vYmFy --app-port=51234" = true
  \/ occurs ("--app-port=" ++ String PyLib.dquote ("51234" ++ String PyLib.dquote EmptyString))
       "LeagueClientUx.exe --remoting-auth-token=Zm9vYmFy --app-port=51234" = true.
Proof.
  apply (proj1 (find_option_sound "--app-port="
                  "LeagueClientUx.exe --remoting-auth-token=Zm9vYmFy --app-port=51234")
           "51234").
  reflexivity.
Defined.

(** ** GameTracker: what [start] sets going *)

(** X27: [start] never raises, whatever the session read gives.  It sends
    the one GET for the gameflow session when the League client is known
    and none otherwise, starts one set-profile worker for the profile
    [League of Legends] when OBS is connected and none otherwise, calls no
    callback, and leaves the credentials and the subscriptions as they
    are. *)
Theorem start_effects (net : HttpOutcome) (w : World) :
  let w' := exec (GameTracker.start net) w in
  result (GameTracker.start net) w = Ok tt /\
  threads w'
  = threads w ++ (if obs_connected (obs w)
                  then [T_set_profile "League of Legends" (Some on_profile_set)]
                  else []) /\
  (exists d, trace w' = trace w ++ d /\
             https d = (if LeagueClientAuth.is_client_running (auth w)
                        then [HttpGet (client_port (auth w)) "lol-gameflow/v1/session"]
                        else []) /\
             calls d = []) /\
  api w' = api w /\ auth w' = auth w.
Proof.
  cbn zeta. unfold exec, result, GameTracker.start, LCUApi.get_current_gameflow.
  rewrite no_method_gameflow_update.
  change (bind (@raise (json -> M unit) AttributeError) ?k)
    with (@raise unit AttributeError).
  unfold GameTracker._set_obs_profile, OBSClient.set_profile,
    OBSClient.register_event_handler, OBSClient.is_connected,
    LCUApi.get_request, LeagueClientAuth.get_connection_headers,
    LCUApi.raise_for_status, LCUApi.response_json.
  destruct w as [a ap o t th tr]. destruct t as [phase recording cb].
  destruct o as [ws connected profiles rec handlers callbacks chandlers].
  destruct a as [token port acallbacks aconnected].
  unfold LeagueClientAuth.is_client_running. run.
  destruct token as [token|]; [destruct port as [port|]|]; cbn;
    repeat match goal with
      | |- context [String.eqb ?a ?b] => destruct (String.eqb a b); cbn
      | |- context [Z.eqb ?a ?b] => destruct (Z.eqb a b); cbn
      | |- context [andb (Z.leb 400 ?a) ?b] => destruct (andb (Z.leb 400 a) b); cbn
      | |- context [json_decoded ?r] => destruct (json_decoded r); cbn
      | |- context [truthy ?b] => destruct (truthy b); cbn
      | |- context [GamePhase_eqb ?a ?b] => destruct (GamePhase_eqb a b); cbn
      | |- context [if ?c then _ else _] => is_var c; destruct c; cbn
      | |- context [match ?x with _ => _ end] => is_var x; destruct x; cbn
      end;
    rewrite <- ?app_assoc, ?app_nil_r;
    repeat split; try reflexivity;
    eexists; (split; [reflexivity|]); split; reflexivity.
Qed.

(** ** From the process table to the request *)

Lemma update_auth_stores (processes : list Process) (w : World) :
  let w' := exec (LeagueClientAuth.update_auth processes) w in
  (auth_token (auth w'), client_port (auth w')) = scan processes.
Proof.
  cbn zeta. destruct (update_auth_effects processes w) as [w' [d [E [A _]]]].
  cbn zeta in A. unfold exec. rewrite E. cbn [snd]. rewrite A.
  destruct (LeagueClientAuth.option_eqb String.eqb (fst (scan processes))
              (auth_token (auth w))) eqn:Ht;
    [destruct (LeagueClientAuth.option_eqb Z.eqb (snd (scan processes))
                 (client_port (auth w))) eqn:Hp|];
    cbn [negb orb]; try now destruct (scan processes).
  apply (option_eqb_eq _ _ _ String.eqb_eq) in Ht.
  apply (option_eqb_eq _ _ _ Z.eqb_eq) in Hp.
  rewrite <- Ht, <- Hp. now destruct (scan processes).
Qed.

(** X28: the credentials found in the process table are the ones requests
    go out with.  After a poll that finds a token and a non-zero port, the
    client counts as running, the connection headers carry the token as
    [Basic] authorization, and [get_request] sends its one request to the
    port found, at the endpoint asked for. *)
Theorem discovered_credentials_reach_requests (processes : list Process)
    (token : string) (port : Z) (endpoint : string) (net : HttpOutcome) (w : World) :
  scan processes = (Some token, Some port) ->
  port <> 0%Z ->
  let w' := exec (LeagueClientAuth.update_auth processes) w in
  LeagueClientAuth.is_client_running (auth w') = true /\
  result LeagueClientAuth.get_connection_headers w'
  = Ok [("Authorization", ("Basic " ++ token)%string);
        ("Content-Type", "application/json"); ("Accept", "application/json")] /\
  exists d,
    trace (exec (LCUApi.get_request endpoint net) w') = trace w' ++ d /\
    https d = [HttpGet (Some port) endpoint].
Proof.
  intros Hs Hp. cbn zeta.
  pose proof (update_auth_stores processes w) as Hst. cbn zeta in Hst.
  rewrite Hs in Hst. injection Hst as Ht Hpo.
  assert (Hne : (token =? EmptyString)%string = false).
  { destruct (scan_both_or_neither processes) as [H|[t [p [H Hn]]]];
      rewrite Hs in H; [discriminate|].
    injection H as <- <-. now apply String.eqb_neq. }
  assert (Hpz : (port =? 0)%Z = false) by now apply Z.eqb_neq.
  set (w' := exec (LeagueClientAuth.update_auth processes) w) in *.
  assert (Hrun : LeagueClientAuth.is_client_running (auth w') = true).
  { unfold LeagueClientAuth.is_client_running. now rewrite Ht, Hpo, Hne, Hpz. }
  split; [exact Hrun|]. split.
  - unfold LeagueClientAuth.get_connection_headers, result. run.
    now rewrite Ht, Hne.
  - unfold LCUApi.get_request, LeagueClientAuth.get_connection_headers,
      LCUApi.raise_for_status, LCUApi.response_json, exec.
    run. rewrite Hrun. cbn. rewrite Ht, Hne, Hpo. cbn.
    destruct net as [|response]; cbn;
      [|destruct ((400 <=? status_code response)%Z
                  && (status_code response <? 600)%Z); cbn;
        [|destruct (json_decoded response); cbn]];
      rewrite <- ?app_assoc; eexists; (split; [reflexivity | reflexivity]).
Qed.

Lemma discovered_credentials_reach_requests_witness :
  LeagueClientAuth.is_client_running
    (auth (exec (LeagueClientAuth.update_auth [client_process]) world_built)) = true.
Proof.
  apply (discovered_credentials_reach_requests [client_process]
           "cmlvdDpabTl2WW1GeQ==" 51234%Z "lol-gameflow/v1/session" TransportError
           world_built).
  - vm_compute. reflexivity.
  - discriminate.
Defined.
